(** * AI code review: browser client and serverless proxy

    A shallow embedding of the two JavaScript sources of the repository,
    the script of the page (element lookups, [callGeminiAPI], the button
    listeners, [formatReviewAsHtml], [animateScore]) and
    [netlify/functions/review.js] ([exports.handler]), and the theorems that
    relate them to the specification.

    Conventions.
    - A JavaScript string is the list of its UTF-16 code units ([list N]).
    - A JavaScript value coming out of [JSON.parse] is a [JSON.value];
      [undefined] is [None] in [option JSON.value].
    - An [async] function is its request together with its continuation:
      what runs up to the first [await] on the network, and what runs once
      the network answered. *)

From Stdlib Require Import List NArith ZArith Lia Bool String Ascii DecimalString.
Import ListNotations.

Set Implicit Arguments.
Set Warnings "-register-all".

(* ================================================================== *)
(** * Strings of the host language *)
(* ================================================================== *)

Module JS.

Local Open Scope N_scope.

Definition jsstring := list N.

(** A literal, written with the 8-bit characters of a Rocq string. *)
Definition str (s : string) : jsstring :=
  map N_of_ascii (list_ascii_of_string s).

Definition jsstring_eqb (a b : jsstring) : bool :=
  if list_eq_dec N.eq_dec a b then true else false.

(** [WhiteSpace] and [LineTerminator] of ECMA-262: what
    [String.prototype.trim] strips. *)
Definition isWhiteSpace (c : N) : bool :=
  ((9 <=? c) && (c <=? 13)) || (c =? 32) || (c =? 160) || (c =? 5760)
  || ((8192 <=? c) && (c <=? 8202)) || (c =? 8232) || (c =? 8233)
  || (c =? 8239) || (c =? 8287) || (c =? 12288) || (c =? 65279).

Fixpoint trimStart (s : jsstring) : jsstring :=
  match s with
  | [] => []
  | c :: s' => if isWhiteSpace c then trimStart s' else s
  end.

Definition trimEnd (s : jsstring) : jsstring := rev (trimStart (rev s)).

Definition trim (s : jsstring) : jsstring := trimStart (trimEnd s).

Fixpoint startsWith (p s : jsstring) : bool :=
  match p, s with
  | [], _ => true
  | _ :: _, [] => false
  | a :: p', c :: s' => (a =? c) && startsWith p' s'
  end.

(** [s.includes(p)]. *)
Fixpoint includes (p s : jsstring) : bool :=
  match s with
  | [] => startsWith p []
  | _ :: s' => startsWith p s || includes p s'
  end.

(** [s.replace(/pat/g, rep)] for a pattern [pat] that is a non-empty
    literal: matches are taken leftmost first and do not overlap.  [skip]
    counts the code units of the current match still to be dropped. *)
Fixpoint replaceAll_from (pat rep : jsstring) (skip : nat) (s : jsstring)
  : jsstring :=
  match s with
  | [] => []
  | c :: s' =>
      match skip with
      | S k => replaceAll_from pat rep k s'
      | O =>
          if startsWith pat s
          then rep ++ replaceAll_from pat rep (List.length pat - 1) s'
          else c :: replaceAll_from pat rep 0 s'
      end
  end.

Definition replaceAll (pat rep s : jsstring) : jsstring :=
  replaceAll_from pat rep 0 s.

(** [s.split(sep)] for a separator of one code unit. *)
Fixpoint split (sep : N) (s : jsstring) : list jsstring :=
  match s with
  | [] => [[]]
  | c :: s' =>
      if c =? sep then [] :: split sep s'
      else match split sep s' with
           | l :: ls => (c :: l) :: ls
           | [] => [[c]]
           end
  end.

(** [s.indexOf(c)] for a needle of one code unit; [-1] when absent. *)
Fixpoint indexOf_from (c : N) (s : jsstring) (i : Z) : Z :=
  match s with
  | [] => (-1)%Z
  | x :: s' => if x =? c then i else indexOf_from c s' (i + 1)%Z
  end.

Definition indexOf (c : N) (s : jsstring) : Z := indexOf_from c s 0%Z.

(** [s.substring(start)]: [start] is clamped to [0 .. s.length]. *)
Definition substring (s : jsstring) (start : Z) : jsstring :=
  skipn (Z.to_nat (Z.max 0 start)) s.

(** [String(n)] for a non-negative integer. *)
Definition decimal (n : N) : jsstring :=
  str (NilEmpty.string_of_uint (N.to_uint n)).

(** Code units used below. *)
Definition LF : N := 10.
Definition QUOTE : N := 34.
Definition ASTERISK : N := 42.
Definition BACKSLASH : N := 92.
Definition BACKTICK : N := 96.

End JS.

Import JS.

(* ================================================================== *)
(** * JSON texts and values *)
(* ================================================================== *)

(** [JSON.parse] is the runtime's; it is modelled after the grammar of
    ECMA-404: a lexer that reads one code unit at a time, and a push-down
    recogniser over its tokens.  Both are structurally recursive, so the
    parser is total.  A number is kept as its literal,
    [mantissa * 10 ^ exponent]; the Number it stands for in the script, a
    binary64, is its [numberOf], which is what the script's tests and
    comparisons see. *)

Module JSON.

Local Open Scope N_scope.

Inductive value : Type :=
| JNull
| JBool (b : bool)
| JNumber (mantissa exponent : Z)
| JString (s : jsstring)
| JArray (elements : list value)
| JObject (members : list (jsstring * value)).

Inductive token : Type :=
| TLBrace | TRBrace | TLBracket | TRBracket | TColon | TComma
| TString (s : jsstring)
| TNumber (mantissa exponent : Z)
| TTrue | TFalse | TNull.

(** ** Lexer *)

Inductive lexstate : Type :=
| LStart
| LString (acc : jsstring)
| LEscape (acc : jsstring)
| LUnicode (acc : jsstring) (seen : nat) (code : N)
| LLiteral (rest : jsstring) (t : token)
| LMinus
| LZero (neg : bool)
| LInt (neg : bool) (m : Z)
| LDot (neg : bool) (m : Z)
| LFrac (neg : bool) (m : Z) (scale : Z)
| LExp (neg : bool) (m : Z) (scale : Z)
| LExpSign (neg : bool) (m : Z) (scale : Z) (eneg : bool)
| LExpDigits (neg : bool) (m : Z) (scale : Z) (eneg : bool) (e : Z).

Definition isJsonSpace (c : N) : bool :=
  (c =? 9) || (c =? 10) || (c =? 13) || (c =? 32).

Definition digit (c : N) : option Z :=
  if (48 <=? c) && (c <=? 57) then Some (Z.of_N (c - 48)) else None.

Definition hexdigit (c : N) : option N :=
  if (48 <=? c) && (c <=? 57) then Some (c - 48)
  else if (65 <=? c) && (c <=? 70) then Some (c - 55)
  else if (97 <=? c) && (c <=? 102) then Some (c - 87)
  else None.

Definition signed (neg : bool) (m : Z) : Z := if neg then (- m)%Z else m.

Definition number_token (neg : bool) (m scale : Z) (eneg : bool) (e : Z)
  : token :=
  TNumber (signed neg m) (signed eneg e - scale)%Z.

(** The first code unit of a token. *)
Definition lex_start (c : N) : option (list token * lexstate) :=
  if isJsonSpace c then Some ([], LStart)
  else if c =? 123 then Some ([TLBrace], LStart)
  else if c =? 125 then Some ([TRBrace], LStart)
  else if c =? 91 then Some ([TLBracket], LStart)
  else if c =? 93 then Some ([TRBracket], LStart)
  else if c =? 58 then Some ([TColon], LStart)
  else if c =? 44 then Some ([TComma], LStart)
  else if c =? 34 then Some ([], LString [])
  else if c =? 45 then Some ([], LMinus)
  else if c =? 48 then Some ([], LZero false)
  else if c =? 116 then Some ([], LLiteral (str "rue") TTrue)
  else if c =? 102 then Some ([], LLiteral (str "alse") TFalse)
  else if c =? 110 then Some ([], LLiteral (str "ull") TNull)
  else match digit c with
       | Some d => Some ([], LInt false d)
       | None => None
       end.

(** A number ends at the first code unit that cannot continue it; that
    code unit then starts the next token. *)
Definition lex_after (t : token) (c : N) : option (list token * lexstate) :=
  match lex_start c with
  | Some (ts, st) => Some (t :: ts, st)
  | None => None
  end.

Definition isExpMark (c : N) : bool := (c =? 101) || (c =? 69).

Definition lex_step (st : lexstate) (c : N)
  : option (list token * lexstate) :=
  match st with
  | LStart => lex_start c
  | LString acc =>
      if c =? 34 then Some ([TString (rev acc)], LStart)
      else if c =? 92 then Some ([], LEscape acc)
      else if c <? 32 then None
      else Some ([], LString (c :: acc))
  | LEscape acc =>
      if c =? 34 then Some ([], LString (34 :: acc))
      else if c =? 92 then Some ([], LString (92 :: acc))
      else if c =? 47 then Some ([], LString (47 :: acc))
      else if c =? 98 then Some ([], LString (8 :: acc))
      else if c =? 102 then Some ([], LString (12 :: acc))
      else if c =? 110 then Some ([], LString (10 :: acc))
      else if c =? 114 then Some ([], LString (13 :: acc))
      else if c =? 116 then Some ([], LString (9 :: acc))
      else if c =? 117 then Some ([], LUnicode acc 0 0)
      else None
  | LUnicode acc seen code =>
      match hexdigit c with
      | Some h =>
          let code' := code * 16 + h in
          match seen with
          | 3%nat => Some ([], LString (code' :: acc))
          | _ => Some ([], LUnicode acc (S seen) code')
          end
      | None => None
      end
  | LLiteral rest t =>
      match rest with
      | [] => lex_after t c
      | x :: rest' =>
          if c =? x
          then match rest' with
               | [] => Some ([t], LStart)
               | _ :: _ => Some ([], LLiteral rest' t)
               end
          else None
      end
  | LMinus =>
      if c =? 48 then Some ([], LZero true)
      else match digit c with
           | Some d => Some ([], LInt true d)
           | None => None
           end
  | LZero neg =>
      if c =? 46 then Some ([], LDot neg 0%Z)
      else if isExpMark c then Some ([], LExp neg 0%Z 0%Z)
      else lex_after (number_token neg 0 0 false 0) c
  | LInt neg m =>
      match digit c with
      | Some d => Some ([], LInt neg (m * 10 + d)%Z)
      | None =>
          if c =? 46 then Some ([], LDot neg m)
          else if isExpMark c then Some ([], LExp neg m 0%Z)
          else lex_after (number_token neg m 0 false 0) c
      end
  | LDot neg m =>
      match digit c with
      | Some d => Some ([], LFrac neg (m * 10 + d)%Z 1%Z)
      | None => None
      end
  | LFrac neg m scale =>
      match digit c with
      | Some d => Some ([], LFrac neg (m * 10 + d)%Z (scale + 1)%Z)
      | None =>
          if isExpMark c then Some ([], LExp neg m scale)
          else lex_after (number_token neg m scale false 0) c
      end
  | LExp neg m scale =>
      if c =? 43 then Some ([], LExpSign neg m scale false)
      else if c =? 45 then Some ([], LExpSign neg m scale true)
      else match digit c with
           | Some d => Some ([], LExpDigits neg m scale false d)
           | None => None
           end
  | LExpSign neg m scale eneg =>
      match digit c with
      | Some d => Some ([], LExpDigits neg m scale eneg d)
      | None => None
      end
  | LExpDigits neg m scale eneg e =>
      match digit c with
      | Some d => Some ([], LExpDigits neg m scale eneg (e * 10 + d)%Z)
      | None => lex_after (number_token neg m scale eneg e) c
      end
  end.

(** What the end of the text closes. *)
Definition lex_end (st : lexstate) : option (list token) :=
  match st with
  | LStart => Some []
  | LZero neg => Some [number_token neg 0 0 false 0]
  | LInt neg m => Some [number_token neg m 0 false 0]
  | LFrac neg m scale => Some [number_token neg m scale false 0]
  | LExpDigits neg m scale eneg e => Some [number_token neg m scale eneg e]
  | _ => None
  end.

Fixpoint lex (st : lexstate) (s : jsstring) : option (list token) :=
  match s with
  | [] => lex_end st
  | c :: s' =>
      match lex_step st c with
      | Some (ts, st') =>
          match lex st' s' with
          | Some rest => Some (ts ++ rest)
          | None => None
          end
      | None => None
      end
  end.

(** ** Recogniser over tokens *)

(** The enclosing containers, innermost first.  [FMember ms k] is an object
    whose member [k] is being read. *)
Inductive frame : Type :=
| FArray (done : list value)
| FObject (members : list (jsstring * value))
| FMember (members : list (jsstring * value)) (key : jsstring).

Inductive expect : Type :=
| EValue
| EValueOrClose
| EKeyOrClose
| EKey
| EColon (key : jsstring)
| ECommaOrClose
| EDone (v : value).

(** [CreateDataProperty]: a repeated key keeps its place and takes the
    last value. *)
Fixpoint set_member (k : jsstring) (v : value)
  (ms : list (jsstring * value)) : list (jsstring * value) :=
  match ms with
  | [] => [(k, v)]
  | (k', v') :: ms' =>
      if jsstring_eqb k k' then (k, v) :: ms'
      else (k', v') :: set_member k v ms'
  end.

Definition pstate : Type := (list frame * expect)%type.

(** A value [v] is complete inside the containers [stack]. *)
Definition reduce (stack : list frame) (v : value) : option pstate :=
  match stack with
  | [] => Some ([], EDone v)
  | FArray es :: st => Some (FArray (v :: es) :: st, ECommaOrClose)
  | FMember ms k :: st => Some (FObject (set_member k v ms) :: st, ECommaOrClose)
  | FObject _ :: _ => None
  end.

Definition scalar (t : token) : option value :=
  match t with
  | TString s => Some (JString s)
  | TNumber m e => Some (JNumber m e)
  | TTrue => Some (JBool true)
  | TFalse => Some (JBool false)
  | TNull => Some JNull
  | _ => None
  end.

Definition start_value (stack : list frame) (t : token) : option pstate :=
  match t with
  | TLBracket => Some (FArray [] :: stack, EValueOrClose)
  | TLBrace => Some (FObject [] :: stack, EKeyOrClose)
  | _ => match scalar t with
         | Some v => reduce stack v
         | None => None
         end
  end.

Definition pstep (ps : pstate) (t : token) : option pstate :=
  let (stack, mode) := ps in
  match mode with
  | EValue => start_value stack t
  | EValueOrClose =>
      match t, stack with
      | TRBracket, FArray es :: st => reduce st (JArray (rev es))
      | _, _ => start_value stack t
      end
  | EKeyOrClose =>
      match t, stack with
      | TString k, _ => Some (stack, EColon k)
      | TRBrace, FObject ms :: st => reduce st (JObject ms)
      | _, _ => None
      end
  | EKey =>
      match t with
      | TString k => Some (stack, EColon k)
      | _ => None
      end
  | EColon k =>
      match t, stack with
      | TColon, FObject ms :: st => Some (FMember ms k :: st, EValue)
      | _, _ => None
      end
  | ECommaOrClose =>
      match t, stack with
      | TComma, FArray _ :: _ => Some (stack, EValue)
      | TRBracket, FArray es :: st => reduce st (JArray (rev es))
      | TComma, FObject _ :: _ => Some (stack, EKey)
      | TRBrace, FObject ms :: st => reduce st (JObject ms)
      | _, _ => None
      end
  | EDone _ => None
  end.

Fixpoint prun (ps : pstate) (ts : list token) : option pstate :=
  match ts with
  | [] => Some ps
  | t :: ts' =>
      match pstep ps t with
      | Some ps' => prun ps' ts'
      | None => None
      end
  end.

(** [JSON.parse(text)]; [None] is the [SyntaxError]. *)
Definition parse (text : jsstring) : option value :=
  match lex LStart text with
  | Some ts =>
      match prun ([], EValue) ts with
      | Some ([], EDone v) => Some v
      | _ => None
      end
  | None => None
  end.

(** ** Reading a parsed value *)

(** A host value: [None] is [undefined]. *)
Definition jsvalue : Type := option value.

Fixpoint lookup (k : jsstring) (ms : list (jsstring * value)) : jsvalue :=
  match ms with
  | [] => None
  | (k', v) :: ms' => if jsstring_eqb k k' then Some v else lookup k ms'
  end.

(** ** The Number a literal stands for *)

(** A Number of the script: the binary64 [mant * 2 ^ exp], or an
    infinity.  The two zeros are one here: the sources only test and
    compare them. *)
Inductive number : Type :=
| Finite (mant exp : Z)
| Infinite (negative : bool).

(** [n / d] rounded to the nearest integer, ties to even. *)
Definition nearestEven (n d : Z) : Z :=
  let q := (n / d)%Z in
  let r := (n mod d)%Z in
  if (2 * r <? d)%Z then q
  else if (d <? 2 * r)%Z then (q + 1)%Z
  else if Z.even q then q else (q + 1)%Z.

(** The [k] with [2 ^ k <= p / q < 2 ^ (k + 1)], for positive [p], [q]. *)
Definition binade (p q : Z) : Z :=
  let k := (Z.log2 p - Z.log2 q)%Z in
  if (q * 2 ^ Z.max 0 k <=? p * 2 ^ Z.max 0 (- k))%Z then k else (k - 1)%Z.

(** The Number value for [m * 10 ^ e], what [JSON.parse] makes of the
    literal: 53 bits of precision, exponents from -1074, ties to even,
    an infinity from [2 ^ 1024] on. *)
Definition numberOf (m e : Z) : number :=
  let p := (Z.abs m * 10 ^ Z.max 0 e)%Z in
  let q := (10 ^ Z.max 0 (- e))%Z in
  if (p =? 0)%Z then Finite 0 0
  else
    let x := Z.max (binade p q - 52) (-1074) in
    let mant := nearestEven (p * 2 ^ Z.max 0 (- x)) (q * 2 ^ Z.max 0 x) in
    if (2 ^ 1024 <=? mant * 2 ^ Z.max 0 x)%Z then Infinite (m <? 0)%Z
    else Finite (Z.sgn m * mant) x.

(** [ToBoolean]. *)
Definition truthy (v : jsvalue) : bool :=
  match v with
  | None | Some JNull => false
  | Some (JBool b) => b
  | Some (JNumber m e) =>
      match numberOf m e with
      | Finite mant _ => negb (mant =? 0)%Z
      | Infinite _ => true
      end
  | Some (JString s) => match s with [] => false | _ :: _ => true end
  | Some (JArray _) | Some (JObject _) => true
  end.

End JSON.

Import JSON.

(* ================================================================== *)
(** * The host: exceptions, dynamic reads, HTTP *)
(* ================================================================== *)

Module Host.

Local Open Scope N_scope.

(** The two values that have no properties. *)
Inductive nullish : Type := Undefined | Null.

(** What the engine itself throws.  [InvalidJSON] is a [SyntaxError], the
    others are [TypeError]s. *)
Inductive fault : Type :=
| ReadOfNullish (base : nullish) (prop : jsstring)
| NotAFunction (prop : jsstring)
| NotConvertible
| InvalidJSON (text : jsstring)
| FetchFailed.

(** [Error m] is [new Error(m)], thrown by the program. *)
Inductive exn : Type :=
| Error (message : jsstring)
| Fault (f : fault).

(** How an expression completes: with a value, or by throwing. *)
Inductive result (A : Type) : Type :=
| Ok (a : A)
| Throw (e : exn).

Arguments Ok {A} a.
Arguments Throw {A} e.

(** What the sources use of the engine without fixing it: the wording of
    the engine's own messages, [JSON.stringify], the text a template
    literal gives a number, array or object ([None] when [ToPrimitive]
    throws), and [n >= v] for a string, array or object [v] ([false] also
    when the coercion throws). *)
Class Runtime : Type := {
  faultMessage : fault -> jsstring;
  JSON_stringify : value -> jsstring;
  templateText : value -> option jsstring;
  numberGE : Z -> value -> bool
}.

(** [error.message]. *)
Definition message {rt : Runtime} (e : exn) : jsstring :=
  match e with
  | Error m => m
  | Fault f => faultMessage f
  end.

(** [v.k] for a name [k] that no built-in prototype defines (the sources
    read [candidates], [content], [parts], [text], [review], [updatedCode],
    [score] and [code]). *)
Definition getProp (v : jsvalue) (k : jsstring) : result jsvalue :=
  match v with
  | None => Throw (Fault (ReadOfNullish Undefined k))
  | Some JNull => Throw (Fault (ReadOfNullish Null k))
  | Some (JObject ms) => Ok (lookup k ms)
  | Some _ => Ok None
  end.

(** [v[i]]. *)
Definition getIndex (v : jsvalue) (i : nat) : result jsvalue :=
  match v with
  | None => Throw (Fault (ReadOfNullish Undefined (decimal (N.of_nat i))))
  | Some JNull => Throw (Fault (ReadOfNullish Null (decimal (N.of_nat i))))
  | Some (JArray es) => Ok (nth_error es i)
  | Some (JString s) =>
      Ok (match nth_error s i with Some c => Some (JString [c]) | None => None end)
  | Some (JObject ms) => Ok (lookup (decimal (N.of_nat i)) ms)
  | Some _ => Ok None
  end.

(** The receiver of a call [v.name(...)] of a [String.prototype] method:
    only a string has the method. *)
Definition stringReceiver (name : jsstring) (v : jsvalue) : result jsstring :=
  match v with
  | Some (JString s) => Ok s
  | None => Throw (Fault (ReadOfNullish Undefined name))
  | Some JNull => Throw (Fault (ReadOfNullish Null name))
  | Some _ => Throw (Fault (NotAFunction name))
  end.

(** A template literal's [${v}]. *)
Definition template {rt : Runtime} (v : jsvalue) : result jsstring :=
  match v with
  | None => Ok (str "undefined")
  | Some JNull => Ok (str "null")
  | Some (JBool true) => Ok (str "true")
  | Some (JBool false) => Ok (str "false")
  | Some (JString s) => Ok s
  | Some w =>
      match templateText w with
      | Some s => Ok s
      | None => Throw (Fault NotConvertible)
      end
  end.

(** [n >= x] for an integer [n] and a Number [x]. *)
Definition reachesNumber (n : Z) (x : number) : bool :=
  match x with
  | Finite mant e =>
      if (0 <=? e)%Z then (mant * 2 ^ e <=? n)%Z
      else (mant <=? n * 2 ^ (- e))%Z
  | Infinite negative => negative
  end.

(** [n >= x] for the Number [x] of the literal [m * 10 ^ e]. *)
Definition decimalGE (n m e : Z) : bool := reachesNumber n (numberOf m e).

(** [n >= v] for an integer [n]. *)
Definition ge {rt : Runtime} (n : Z) (v : jsvalue) : bool :=
  match v with
  | None => false
  | Some JNull => (0 <=? n)%Z
  | Some (JBool b) => ((if b then 1 else 0) <=? n)%Z
  | Some (JNumber m e) => decimalGE n m e
  | Some w => numberGE n w
  end.

(** ** HTTP *)

Record Request : Type := {
  url : jsstring;
  method : jsstring;
  headers : list (jsstring * jsstring);
  body : jsstring
}.

Record Response : Type := {
  status : N;
  statusText : jsstring;
  text : jsstring
}.

(** [response.ok]. *)
Definition ok (r : Response) : bool := (200 <=? status r) && (status r <=? 299).

(** How [fetch] settles: rejected, or resolved with a response whose body
    has arrived. *)
Inductive outcome : Type :=
| Rejected
| Responded (r : Response).

(** ** What the program does to the outside *)

(** An argument of [console.error]. *)
Inductive logged : Type :=
| LText (s : jsstring)
| LValue (v : value)
| LExn (e : exn).

(** A call of [fetch], of [response.json()], of [JSON.parse], of
    [console.error]. *)
Inductive effect : Type :=
| EvFetch (req : Request)
| EvBodyJson
| EvJSONparse (text : jsstring)
| EvConsoleError (args : list logged).

Definition isFetch (e : effect) : bool :=
  match e with EvFetch _ => true | _ => false end.

Definition isParse (e : effect) : bool :=
  match e with EvBodyJson | EvJSONparse _ => true | _ => false end.

(** ** Statements: state passing with exceptions *)

(** A state that keeps the record of what was done to the outside. *)
Class Recording (S : Type) : Type := record : effect -> S -> S.

#[export] Instance log_recording : Recording (list effect) :=
  fun e l => l ++ [e].

Definition stm (S A : Type) : Type := S -> S * result A.

Section Statements.

Context {S : Type} {rec : Recording S}.

Definition ret {A} (a : A) : stm S A := fun w => (w, Ok a).

Definition throw {A} (e : exn) : stm S A := fun w => (w, Throw e).

Definition bind {A B} (c : stm S A) (k : A -> stm S B) : stm S B :=
  fun w =>
    match c w with
    | (w', Ok a) => k a w'
    | (w', Throw e) => (w', Throw e)
    end.

Definition lift {A} (r : result A) : stm S A := fun w => (w, r).

(** [try { c } catch (e) { h e }]. *)
Definition tryCatch {A} (c : stm S A) (h : exn -> stm S A) : stm S A :=
  fun w =>
    match c w with
    | (w', Ok a) => (w', Ok a)
    | (w', Throw e) => h e w'
    end.

(** [try { c } finally { f }], for an [f] that does not throw. *)
Definition finally {A} (c : stm S A) (f : S -> S) : stm S A :=
  fun w => let (w', r) := c w in (f w', r).

Definition emit (e : effect) : stm S unit :=
  fun w => (record e w, Ok tt).

Definition console_error (args : list logged) : stm S unit :=
  emit (EvConsoleError args).

(** [JSON.parse(text)]. *)
Definition JSON_parse (text : jsstring) : stm S value :=
  bind (emit (EvJSONparse text)) (fun _ =>
  match parse text with
  | Some v => ret v
  | None => throw (Fault (InvalidJSON text))
  end).

(** [await response.json()]. *)
Definition Response_json (r : Response) : stm S value :=
  bind (emit EvBodyJson) (fun _ =>
  match parse (text r) with
  | Some v => ret v
  | None => throw (Fault (InvalidJSON (text r)))
  end).

(** What [await fetch(...)] gives once the network has settled. *)
Definition fetched (o : outcome) : stm S Response :=
  match o with
  | Rejected => throw (Fault FetchFailed)
  | Responded r => ret r
  end.

End Statements.

Notation "x <- c ;; k" := (bind c (fun x => k))
  (at level 61, c at next level, right associativity).
Notation "c ;;; k" := (bind c (fun _ => k))
  (at level 61, right associativity).

(** The next read of a chain of reads. *)
Definition then_ (r : result jsvalue) (f : jsvalue -> result jsvalue)
  : result jsvalue :=
  match r with
  | Ok v => f v
  | Throw e => Throw e
  end.

(** [result.candidates[0].content.parts[0].text], the path both sources
    read in the reply of the model. *)
Definition candidateText (reply : value) : result jsvalue :=
  then_ (then_ (then_ (then_ (then_
    (getProp (Some reply) (str "candidates"))
    (fun v => getIndex v 0))
    (fun v => getProp v (str "content")))
    (fun v => getProp v (str "parts")))
    (fun v => getIndex v 0))
    (fun v => getProp v (str "text")).

(** The lines of a template literal, and a text between double quotes. *)
Definition lines (ls : list jsstring) : jsstring :=
  match ls with
  | [] => []
  | l :: ls' => l ++ flat_map (fun x => LF :: x) ls'
  end.

Definition q (s : string) : jsstring := [QUOTE] ++ str s ++ [QUOTE].

End Host.

Import Host.

(* ================================================================== *)
(** * The browser client *)
(* ================================================================== *)

Module Client.

Local Open Scope N_scope.

(** ** 1. The page: the elements the script looks up *)

Record Page : Type := {
  inputCode_value : jsstring;
  reviewOutput_innerHTML : jsstring;
  outputCode_value : jsstring;
  scoreDisplay_textContent : jsstring;
  loader_hidden : bool;
  errorBox_hidden : bool;
  errorMessage_textContent : jsstring;
  reviewBtn_disabled : bool;
  copyBtn_textContent : jsstring
}.

Definition set_inputCode_value (x : jsstring) (p : Page) : Page :=
  {| inputCode_value := x;
     reviewOutput_innerHTML := reviewOutput_innerHTML p;
     outputCode_value := outputCode_value p;
     scoreDisplay_textContent := scoreDisplay_textContent p;
     loader_hidden := loader_hidden p;
     errorBox_hidden := errorBox_hidden p;
     errorMessage_textContent := errorMessage_textContent p;
     reviewBtn_disabled := reviewBtn_disabled p;
     copyBtn_textContent := copyBtn_textContent p |}.

Definition set_reviewOutput_innerHTML (x : jsstring) (p : Page) : Page :=
  {| inputCode_value := inputCode_value p;
     reviewOutput_innerHTML := x;
     outputCode_value := outputCode_value p;
     scoreDisplay_textContent := scoreDisplay_textContent p;
     loader_hidden := loader_hidden p;
     errorBox_hidden := errorBox_hidden p;
     errorMessage_textContent := errorMessage_textContent p;
     reviewBtn_disabled := reviewBtn_disabled p;
     copyBtn_textContent := copyBtn_textContent p |}.

Definition set_outputCode_value (x : jsstring) (p : Page) : Page :=
  {| inputCode_value := inputCode_value p;
     reviewOutput_innerHTML := reviewOutput_innerHTML p;
     outputCode_value := x;
     scoreDisplay_textContent := scoreDisplay_textContent p;
     loader_hidden := loader_hidden p;
     errorBox_hidden := errorBox_hidden p;
     errorMessage_textContent := errorMessage_textContent p;
     reviewBtn_disabled := reviewBtn_disabled p;
     copyBtn_textContent := copyBtn_textContent p |}.

Definition set_scoreDisplay_textContent (x : jsstring) (p : Page) : Page :=
  {| inputCode_value := inputCode_value p;
     reviewOutput_innerHTML := reviewOutput_innerHTML p;
     outputCode_value := outputCode_value p;
     scoreDisplay_textContent := x;
     loader_hidden := loader_hidden p;
     errorBox_hidden := errorBox_hidden p;
     errorMessage_textContent := errorMessage_textContent p;
     reviewBtn_disabled := reviewBtn_disabled p;
     copyBtn_textContent := copyBtn_textContent p |}.

Definition set_loader_hidden (x : bool) (p : Page) : Page :=
  {| inputCode_value := inputCode_value p;
     reviewOutput_innerHTML := reviewOutput_innerHTML p;
     outputCode_value := outputCode_value p;
     scoreDisplay_textContent := scoreDisplay_textContent p;
     loader_hidden := x;
     errorBox_hidden := errorBox_hidden p;
     errorMessage_textContent := errorMessage_textContent p;
     reviewBtn_disabled := reviewBtn_disabled p;
     copyBtn_textContent := copyBtn_textContent p |}.

Definition set_errorBox_hidden (x : bool) (p : Page) : Page :=
  {| inputCode_value := inputCode_value p;
     reviewOutput_innerHTML := reviewOutput_innerHTML p;
     outputCode_value := outputCode_value p;
     scoreDisplay_textContent := scoreDisplay_textContent p;
     loader_hidden := loader_hidden p;
     errorBox_hidden := x;
     errorMessage_textContent := errorMessage_textContent p;
     reviewBtn_disabled := reviewBtn_disabled p;
     copyBtn_textContent := copyBtn_textContent p |}.

Definition set_errorMessage_textContent (x : jsstring) (p : Page) : Page :=
  {| inputCode_value := inputCode_value p;
     reviewOutput_innerHTML := reviewOutput_innerHTML p;
     outputCode_value := outputCode_value p;
     scoreDisplay_textContent := scoreDisplay_textContent p;
     loader_hidden := loader_hidden p;
     errorBox_hidden := errorBox_hidden p;
     errorMessage_textContent := x;
     reviewBtn_disabled := reviewBtn_disabled p;
     copyBtn_textContent := copyBtn_textContent p |}.

Definition set_reviewBtn_disabled (x : bool) (p : Page) : Page :=
  {| inputCode_value := inputCode_value p;
     reviewOutput_innerHTML := reviewOutput_innerHTML p;
     outputCode_value := outputCode_value p;
     scoreDisplay_textContent := scoreDisplay_textContent p;
     loader_hidden := loader_hidden p;
     errorBox_hidden := errorBox_hidden p;
     errorMessage_textContent := errorMessage_textContent p;
     reviewBtn_disabled := x;
     copyBtn_textContent := copyBtn_textContent p |}.

Definition set_copyBtn_textContent (x : jsstring) (p : Page) : Page :=
  {| inputCode_value := inputCode_value p;
     reviewOutput_innerHTML := reviewOutput_innerHTML p;
     outputCode_value := outputCode_value p;
     scoreDisplay_textContent := scoreDisplay_textContent p;
     loader_hidden := loader_hidden p;
     errorBox_hidden := errorBox_hidden p;
     errorMessage_textContent := errorMessage_textContent p;
     reviewBtn_disabled := reviewBtn_disabled p;
     copyBtn_textContent := x |}.

(** ** The world around the page *)

(** What a timer runs: the closure of [animateScore] with its counter, or
    the relabelling of the copy button. *)
Inductive Task : Type :=
| Animate (currentScore : Z) (finalScore : jsvalue)
| RestoreCopyLabel.

Record Timer : Type := {
  timerId : nat;
  due : Z;
  task : Task
}.

(** [inflight] holds the reviews whose [fetch] has not settled, oldest
    first; [copying] the clipboard writes that have not; [log] what the
    script did to the outside, oldest first. *)
Record World : Type := {
  page : Page;
  now : Z;
  timers : list Timer;
  nextTimer : nat;
  inflight : list jsstring;
  copying : list jsstring;
  log : list effect
}.

Definition set_page (x : Page) (w : World) : World :=
  {| page := x; now := now w; timers := timers w; nextTimer := nextTimer w;
     inflight := inflight w; copying := copying w; log := log w |}.

Definition set_now (x : Z) (w : World) : World :=
  {| page := page w; now := x; timers := timers w; nextTimer := nextTimer w;
     inflight := inflight w; copying := copying w; log := log w |}.

Definition set_timers (x : list Timer) (w : World) : World :=
  {| page := page w; now := now w; timers := x; nextTimer := nextTimer w;
     inflight := inflight w; copying := copying w; log := log w |}.

Definition set_nextTimer (x : nat) (w : World) : World :=
  {| page := page w; now := now w; timers := timers w; nextTimer := x;
     inflight := inflight w; copying := copying w; log := log w |}.

Definition set_inflight (x : list jsstring) (w : World) : World :=
  {| page := page w; now := now w; timers := timers w; nextTimer := nextTimer w;
     inflight := x; copying := copying w; log := log w |}.

Definition set_copying (x : list jsstring) (w : World) : World :=
  {| page := page w; now := now w; timers := timers w; nextTimer := nextTimer w;
     inflight := inflight w; copying := x; log := log w |}.

Definition set_log (x : list effect) (w : World) : World :=
  {| page := page w; now := now w; timers := timers w; nextTimer := nextTimer w;
     inflight := inflight w; copying := copying w; log := x |}.

#[export] Instance World_recording : Recording World :=
  fun e w => set_log (log w ++ [e]) w.

Definition JSM (A : Type) : Type := stm World A.

Definition onPage (f : Page -> Page) : JSM unit :=
  fun w => (set_page (f (page w)) w, Ok tt).

Section Script.

Context {rt : Runtime}.

(** ** 2. The call to the model *)

Definition apiKey : jsstring := [].

Definition apiUrl : jsstring :=
  str "https://generativelanguage.googleapis.com/v1beta/models/gemini-2.5-flash-preview-05-20:generateContent?key="
  ++ apiKey.

Definition prompt_head : jsstring :=
  lines
    [ [];
      str "    Please act as an expert code reviewer. Analyze the following code snippet.";
      str "    Your analysis MUST check for the following specific issues:";
      str "    1.  XSS vulnerabilities (e.g., from using .innerHTML).";
      str "    2.  Global variable pollution.";
      str "    3.  Missing error handling (e.g., lack of try...catch in async functions).";
      str "    4.  Inefficient logic or performance bottlenecks.";
      str "    5.  Outdated practices (e.g., using 'var' instead of 'let'/'const').";
      str "    6.  Hardcoded " ++ q "magic strings" ++ str ".";
      [];
      str "    Based on your analysis, provide a concise, summarized review. Use markdown bullet points (e.g., " ++ q "* Point 1" ++ str ") to list the most important issues.";
      [];
      str "    Then, determine the purpose of the code and check if it correctly achieves that purpose.";
      str "    - If the code is already perfect and achieves its goal, your review should state that, and " ++ q "updatedCode" ++ str " should be an empty string.";
      str "    - If the code works but can be improved for style, performance, or best practices, provide the updated version.";
      str "    - If the code is broken or incorrect, provide the corrected version.";
      [];
      str "    Finally, give a score from 0 to 100 for the ORIGINAL code.";
      [];
      str "    Return your response ONLY as a valid JSON object with the following structure:";
      str "    {";
      str "      " ++ q "review" ++ str ": " ++ q "Your summarized review in markdown bullet points here." ++ str ",";
      str "      " ++ q "updatedCode" ++ str ": " ++ q "The fully corrected and improved code here, or an empty string if no changes are needed." ++ str ",";
      str "      " ++ q "score" ++ str ": <the score as an integer>";
      str "    }";
      [];
      str "    Here is the code to review:";
      str "    ```";
      str "    " ].

Definition prompt_tail : jsstring :=
  lines
    [ [];
      str "    ```";
      str "  " ].

Definition prompt (code : jsstring) : jsstring :=
  prompt_head ++ code ++ prompt_tail.

Definition payload (code : jsstring) : value :=
  JObject [(str "contents",
    JArray [JObject [(str "parts",
      JArray [JObject [(str "text", JString (prompt code))]])]])].

(** The one request of [callGeminiAPI]. *)
Definition request (code : jsstring) : Request :=
  {| url := apiUrl;
     method := str "POST";
     headers := [(str "Content-Type", str "application/json")];
     body := JSON_stringify (payload code) |}.

(** [textResponse.replace(/```json/g, '').replace(/```/g, '').trim()]. *)
Definition cleanResponse (textResponse : jsstring) : jsstring :=
  trim (replaceAll (str "```") [] (replaceAll (str "```json") [] textResponse)).

(** [callGeminiAPI] from the point where [fetch] has settled. *)
Definition callGeminiAPI_resume (o : outcome) : JSM value :=
  response <- fetched o ;;
  if negb (ok response)
  then throw (Error (str "API Error: " ++ decimal (status response)
                       ++ str " " ++ statusText response))
  else
    reply <- Response_json response ;;
    textResponse <- lift (candidateText reply) ;;
    s <- lift (stringReceiver (str "replace") textResponse) ;;
    let cleanedResponse := cleanResponse s in
    tryCatch (JSON_parse cleanedResponse)
      (fun _ =>
         console_error [LText (str "Failed to parse JSON from AI response:");
                        LText cleanedResponse] ;;;
         throw (Error (str "The AI returned an invalid response. Please try again."))).

(** [callGeminiAPI(code)] against a network that answers a request with
    [net]. *)
Definition callGeminiAPI (code : jsstring) (net : Request -> outcome)
  : JSM value :=
  emit (EvFetch (request code)) ;;;
  callGeminiAPI_resume (net (request code)).

(** ** 4. Helpers *)

(** The markup [formatReviewAsHtml] writes around the list and around
    each item. *)
Definition ul_open : jsstring := str "<ul class=" ++ q "space-y-2" ++ str ">".
Definition li_open : jsstring := str "<li class=" ++ q "ml-5 list-disc" ++ str ">".
Definition li_close : jsstring := str "</li>".
Definition ul_close : jsstring := str "</ul>".

(** [line.trim().substring(line.indexOf('*') + 1).trim()]. *)
Definition trimmedLine (line : jsstring) : jsstring :=
  trim (substring (trim line) (indexOf ASTERISK line + 1)).

(** [reviewText.split('\n').filter(line => line.trim() !== '')]. *)
Definition reviewLines (reviewText : jsstring) : list jsstring :=
  filter (fun line => negb (jsstring_eqb (trim line) []))
         (split LF reviewText).

(** [formatReviewAsHtml(reviewText)]; the call of [split] throws unless
    [reviewText] is a string. *)
Definition formatReviewAsHtml (reviewText : jsvalue) : result jsstring :=
  match stringReceiver (str "split") reviewText with
  | Throw e => Throw e
  | Ok s =>
      let html :=
        fold_left (fun html line => html ++ li_open ++ trimmedLine line ++ li_close)
                  (reviewLines s) ul_open in
      Ok (html ++ ul_close)
  end.

(** [animateScore(finalScore)]: [setInterval(..., 20)] with a fresh
    counter. *)
Definition animateScore (finalScore : jsvalue) : JSM unit :=
  fun w =>
    (set_nextTimer (S (nextTimer w))
       (set_timers (timers w ++ [{| timerId := nextTimer w;
                                    due := now w + 20;
                                    task := Animate 0 finalScore |}]) w),
     Ok tt).

(** [showError(message)] and [hideError()]. *)
Definition showError (message : jsstring) : JSM unit :=
  onPage (fun p => set_errorBox_hidden false (set_errorMessage_textContent message p)).

Definition hideError : JSM unit :=
  onPage (set_errorBox_hidden true).

(** The body of the interval callback of [animateScore]: the new counter,
    the page, and whether [clearInterval] was called.  The counter is an
    integer: it starts at 0 and goes up by 1, which a Number does without
    rounding for the first [2 ^ 53] firings. *)
Definition animateStep (currentScore : Z) (finalScore : jsvalue) (p : Page)
  : Z * Page * bool :=
  let currentScore := (currentScore + 1)%Z in
  (currentScore,
   set_scoreDisplay_textContent (decimal (Z.to_N currentScore)) p,
   ge currentScore finalScore).

(** ** 3. Event listeners *)

(** What the corrected-code box shows when there is no updated code. *)
Definition noChangesNeeded : jsstring :=
  str "No changes needed. Your code is looking great!".

(** The review button, up to [await callGeminiAPI(userCode)]: the request
    leaves, and the review is in flight. *)
Definition reviewClick (w : World) : World :=
  let userCode := trim (inputCode_value (page w)) in
  match userCode with
  | [] =>
      fst (showError
             (str "Please paste some code in the input box before reviewing.") w)
  | _ :: _ =>
      fst ((hideError ;;;
            onPage (set_loader_hidden false) ;;;
            onPage (set_reviewBtn_disabled true) ;;;
            emit (EvFetch (request userCode)) ;;;
            (fun w => (set_inflight (inflight w ++ [userCode]) w, Ok tt))) w)
  end.

(** The [try] block of the review button once the network has settled. *)
Definition reviewUpdate (o : outcome) : JSM unit :=
  reply <- callGeminiAPI_resume o ;;
  review <- lift (getProp (Some reply) (str "review")) ;;
  html <- lift (formatReviewAsHtml review) ;;
  onPage (set_reviewOutput_innerHTML html) ;;;
  updatedCode <- lift (getProp (Some reply) (str "updatedCode")) ;;
  (if truthy updatedCode
   then
     code <- lift (stringReceiver (str "trim") updatedCode) ;;
     if negb (jsstring_eqb (trim code) [])
     then onPage (set_outputCode_value code)
     else onPage (set_outputCode_value noChangesNeeded)
   else onPage (set_outputCode_value noChangesNeeded)) ;;;
  score <- lift (getProp (Some reply) (str "score")) ;;
  animateScore score.

(** The review button from the point where the network has settled:
    [try], [catch] and [finally]. *)
Definition reviewSettled (o : outcome) (w : World) : World :=
  fst (finally
         (tryCatch (reviewUpdate o)
            (fun error =>
               console_error [LText (str "Error during AI review:"); LExn error] ;;;
               showError (str "An error occurred: " ++ message error)))
         (fun w => set_page (set_reviewBtn_disabled false
                               (set_loader_hidden true (page w))) w)
         w).

(** The clear button. *)
Definition clearClick (w : World) : World :=
  fst ((onPage (set_inputCode_value []) ;;;
        onPage (set_reviewOutput_innerHTML (str "AI's feedback will appear here...")) ;;;
        onPage (set_outputCode_value []) ;;;
        onPage (set_scoreDisplay_textContent (str "N/A")) ;;;
        hideError) w).

(** The copy button, up to the promise of [writeText]. *)
Definition copyClick (w : World) : World :=
  match outputCode_value (page w) with
  | [] => w
  | _ :: _ => set_copying (copying w ++ [outputCode_value (page w)]) w
  end.

(** The [then] of [writeText], run when the write succeeded. *)
Definition copyWritten (w : World) : World :=
  set_nextTimer (S (nextTimer w))
    (set_timers (timers w ++ [{| timerId := nextTimer w;
                                 due := now w + 2000;
                                 task := RestoreCopyLabel |}])
       (set_page (set_copyBtn_textContent (str "Copied!") (page w)) w)).

(** ** The event loop *)

(** The timer [id], [clearInterval(id)], and the next round of an
    interval. *)
Fixpoint findTimer (id : nat) (ts : list Timer) : option Timer :=
  match ts with
  | [] => None
  | t :: ts' => if Nat.eqb (timerId t) id then Some t else findTimer id ts'
  end.

Definition clearTimer (id : nat) (ts : list Timer) : list Timer :=
  filter (fun t => negb (Nat.eqb (timerId t) id)) ts.

Definition rearm (id : nat) (d : Z) (k : Task) (ts : list Timer) : list Timer :=
  map (fun t => if Nat.eqb (timerId t) id
                then {| timerId := id; due := d; task := k |} else t) ts.

(** Timer [id] fires: the clock reaches its due time and its callback
    runs.  An interval is armed again 20 later unless the callback cleared
    it; a timeout runs once. *)
Definition fire (id : nat) (w : World) : World :=
  match findTimer id (timers w) with
  | None => w
  | Some t =>
      let w := set_now (Z.max (now w) (due t)) w in
      match task t with
      | Animate currentScore finalScore =>
          let '(currentScore', p, cleared) :=
            animateStep currentScore finalScore (page w) in
          set_timers
            (if cleared then clearTimer id (timers w)
             else rearm id (due t + 20) (Animate currentScore' finalScore) (timers w))
            (set_page p w)
      | RestoreCopyLabel =>
          set_timers (clearTimer id (timers w))
            (set_page (set_copyBtn_textContent (str "Copy") (page w)) w)
      end
  end.

(** What can happen to the page.  A click on the review button reaches
    the script only while the button is enabled. *)
Inductive input : Type :=
| ClickReview
| ClickClear
| ClickCopy
| TimerFires (id : nat)
| FetchSettles (o : outcome)
| ClipboardSettles (written : bool).

Definition step (w : World) (i : input) : World :=
  match i with
  | ClickReview =>
      if reviewBtn_disabled (page w) then w else reviewClick w
  | ClickClear => clearClick w
  | ClickCopy => copyClick w
  | TimerFires id => fire id w
  | FetchSettles o =>
      match inflight w with
      | [] => w
      | _ :: rest => reviewSettled o (set_inflight rest w)
      end
  | ClipboardSettles written =>
      match copying w with
      | [] => w
      | _ :: rest =>
          let w := set_copying rest w in
          if written then copyWritten w else w
      end
  end.

Definition run (w : World) (ins : list input) : World := fold_left step ins w.

(** How many requests have left so far. *)
Definition fetches (w : World) : nat := List.length (filter isFetch (log w)).

End Script.

End Client.

(* ================================================================== *)
(** * The serverless proxy *)
(* ================================================================== *)

Module Proxy.

Local Open Scope N_scope.

(** What the function receives: the method and the body of the request,
    [None] for a [null] body. *)
Record Event : Type := {
  httpMethod : jsstring;
  eventBody : option jsstring
}.

(** [process.env]. *)
Record Env : Type := {
  GEMINI_API_KEY : option jsstring
}.

(** What the function returns; [replyBody] is whatever value the script
    put there. *)
Record Reply : Type := {
  statusCode : N;
  replyHeaders : list (jsstring * jsstring);
  replyBody : jsvalue
}.

Section Function.

Context {rt : Runtime}.

Definition apiUrl (apiKey : jsstring) : jsstring :=
  str "https://generativelanguage.googleapis.com/v1beta/models/gemini-pro:generateContent?key="
  ++ apiKey.

Definition prompt_head : jsstring :=
  lines
    [ [];
      str "Act as an expert senior software developer and code reviewer.";
      str "Your task is to provide a detailed, constructive review of the following code snippet.";
      [];
      str "Analyze the code based on these criteria:";
      str "1.  **Correctness and Bugs:** Identify any logic errors, potential runtime errors, or edge cases that are not handled.";
      str "2.  **Best Practices & Readability:** Check for adherence to modern coding standards, clarity, and maintainability. Suggest improvements for variable names, comments, and structure.";
      str "3.  **Performance & Efficiency:** Highlight any inefficient code, unnecessary computations, or memory leaks. Suggest more performant alternatives.";
      str "4.  **Security:** Point out potential security vulnerabilities (e.g., injection risks, exposed secrets, improper error handling).";
      [];
      str "After the analysis, provide a response in a single, clean JSON object with no extra text or commentary outside the JSON. The JSON object must have these exact keys:";
      str "-   " ++ q "language" ++ str ": A string identifying the programming language (e.g., " ++ q "JavaScript" ++ str ", " ++ q "Python" ++ str ").";
      str "-   " ++ q "review" ++ str ": A string containing your detailed feedback in Markdown format. Use bullet points for clarity.";
      str "-   " ++ q "updatedCode" ++ str ": A string with the refactored code, incorporating all your suggestions. If no changes are needed, return the original code.";
      str "-   " ++ q "score" ++ str ": A number from 1 to 10, where 1 is poor and 10 is excellent, representing the overall quality of the code.";
      [];
      str "Code to review:";
      str "```";
      [] ].

Definition prompt_tail : jsstring :=
  lines
    [ [];
      str "```";
      [] ].

Definition prompt (code : jsstring) : jsstring :=
  prompt_head ++ code ++ prompt_tail.

Definition payload (code : jsstring) : value :=
  JObject
    [(str "contents",
       JArray [JObject [(str "parts",
         JArray [JObject [(str "text", JString (prompt code))]])]]);
     (str "generationConfig",
       JObject [(str "response_mime_type", JString (str "application/json"))])].

Definition request (apiKey code : jsstring) : Request :=
  {| url := apiUrl apiKey;
     method := str "POST";
     headers := [(str "Content-Type", str "application/json")];
     body := JSON_stringify (payload code) |}.

Definition errorBody (message : jsstring) : jsvalue :=
  Some (JString (JSON_stringify (JObject [(str "error", JString message)]))).

(** [JSON.parse(event.body)]: a [null] body is read as the text [null]. *)
Definition eventText (event : Event) : jsstring :=
  match eventBody event with
  | Some s => s
  | None => str "null"
  end.

(** [!apiKey]. *)
Definition configured (env : Env) : option jsstring :=
  match GEMINI_API_KEY env with
  | Some (c :: k) => Some (c :: k)
  | _ => None
  end.

(** The [try] block, against a network that answers a request with
    [net]. *)
Definition tryBlock (env : Env) (net : Request -> outcome) (event : Event)
  : stm (list effect) Reply :=
  parsed <- JSON_parse (eventText event) ;;
  code <- lift (getProp (Some parsed) (str "code")) ;;
  match configured env with
  | None =>
      ret {| statusCode := 500; replyHeaders := [];
             replyBody := errorBody (str "API key is not configured on the server.") |}
  | Some apiKey =>
      codeText <- lift (template code) ;;
      emit (EvFetch (request apiKey codeText)) ;;;
      response <- fetched (net (request apiKey codeText)) ;;
      if negb (ok response)
      then
        errorData <- Response_json response ;;
        console_error [LText (str "Gemini API Error:"); LValue errorData] ;;;
        ret {| statusCode := status response; replyHeaders := [];
               replyBody := Some (JString (JSON_stringify errorData)) |}
      else
        reply <- Response_json response ;;
        responseText <- lift (candidateText reply) ;;
        ret {| statusCode := 200;
               replyHeaders := [(str "Content-Type", str "application/json")];
               replyBody := responseText |}
  end.

(** [exports.handler]: what was done to the outside, and the reply. *)
Definition handler (env : Env) (net : Request -> outcome) (event : Event)
  : list effect * Reply :=
  if negb (jsstring_eqb (httpMethod event) (str "POST"))
  then ([], {| statusCode := 405; replyHeaders := [];
               replyBody := Some (JString (str "Method Not Allowed")) |})
  else
    match tryBlock env net event [] with
    | (l, Ok reply) => (l, reply)
    | (l, Throw error) =>
        (l ++ [EvConsoleError [LText (str "Function Error:"); LExn error]],
         {| statusCode := 500; replyHeaders := [];
            replyBody := errorBody (message error) |})
    end.

End Function.

End Proxy.

(* ================================================================== *)
(** * An engine to run the sources on *)
(* ================================================================== *)

(** The theorems hold for every [Runtime].  This one serves to run them
    on inputs.  [JSON.stringify], the text of a template literal and the
    comparison with a string, an array or an object follow ECMA-262.  The
    messages of the faults are the sample's own: ECMA-262 leaves them to
    the engine, and an engine says more than a fault holds here (V8 names
    the expression that was called, as in [result.updatedCode.trim is not
    a function], quotes the JSON text it refuses, and words the failure of
    [fetch] in one way in a browser and in another under Node). *)

Module Engine.

Local Open Scope N_scope.

Definition signedText (z : Z) : jsstring :=
  match z with
  | Zneg p => str "-" ++ decimal (Npos p)
  | _ => decimal (Z.to_N z)
  end.

(** ** [Number::toString] *)

(** The same Number, with the same exponent or not. *)
Definition sameNumber (a b : number) : bool :=
  match a, b with
  | Finite m x, Finite m' x' =>
      (m * 2 ^ Z.max 0 (x - x') =? m' * 2 ^ Z.max 0 (x' - x))%Z
  | Infinite s, Infinite s' => Bool.eqb s s'
  | _, _ => false
  end.

(** [10 ^ n <= p / q]. *)
Definition reaches (p q n : Z) : bool :=
  (q * 10 ^ Z.max 0 n <=? p * 10 ^ Z.max 0 (- n))%Z.

(** The [n] with [10 ^ (n - 1) <= p / q < 10 ^ n], looked for around
    [n]. *)
Fixpoint magnitude_from (fuel : nat) (p q n : Z) : Z :=
  match fuel with
  | O => n
  | S fuel' =>
      if reaches p q n then magnitude_from fuel' p q (n + 1)%Z
      else if reaches p q (n - 1)%Z then n
      else magnitude_from fuel' p q (n - 1)%Z
  end.

Definition magnitude (p q : Z) : Z :=
  magnitude_from 8 p q ((Z.log2 p - Z.log2 q) * 30103 / 100000 + 1)%Z.

(** The digits [s] and the place [n] of the decimal [s * 10 ^ (n - k)]
    with the fewest digits, [k] or more, that reads back as
    [mant * 2 ^ x]; the nearest one when two do. *)
Fixpoint shortest (fuel : nat) (mant x n0 k : Z) : Z * Z :=
  let p := (mant * 2 ^ Z.max 0 x)%Z in
  let q := (2 ^ Z.max 0 (- x))%Z in
  let num := (p * 10 ^ Z.max 0 (k - n0))%Z in
  let den := (q * 10 ^ Z.max 0 (n0 - k))%Z in
  let lo := (num / den)%Z in
  let hi := if (lo + 1 =? 10 ^ k)%Z then (10 ^ (k - 1), n0 + 1)%Z
            else (lo + 1, n0)%Z in
  let back '(s, n) := sameNumber (numberOf s (n - k)) (Finite mant x) in
  match fuel with
  | O => (lo, n0)
  | S fuel' =>
      if back (lo, n0) && back hi
      then if (2 * (num mod den) <=? den)%Z then (lo, n0) else hi
      else if back (lo, n0) then (lo, n0)
      else if back hi then hi
      else shortest fuel' mant x n0 (k + 1)%Z
  end.

Definition zeros (n : Z) : jsstring := repeat 48 (Z.to_nat n).

Definition Number_toString (v : number) : jsstring :=
  match v with
  | Infinite false => str "Infinity"
  | Infinite true => str "-Infinity"
  | Finite 0 _ => str "0"
  | Finite mant x =>
      let a := Z.abs mant in
      let n0 := magnitude (a * 2 ^ Z.max 0 x) (2 ^ Z.max 0 (- x)) in
      let '(s, n) := shortest 17 a x n0 1 in
      let digits := decimal (Z.to_N s) in
      let k := Z.of_nat (List.length digits) in
      let exponent :=
        (if (0 <? n - 1)%Z then str "e+" else str "e") ++ signedText (n - 1) in
      (if (mant <? 0)%Z then str "-" else [])
      ++ (if ((k <=? n) && (n <=? 21))%Z then digits ++ zeros (n - k)
          else if ((0 <? n) && (n <=? 21))%Z
          then firstn (Z.to_nat n) digits ++ str "." ++ skipn (Z.to_nat n) digits
          else if ((-6 <? n) && (n <=? 0))%Z then str "0." ++ zeros (- n) ++ digits
          else if (k =? 1)%Z then digits ++ exponent
          else firstn 1 digits ++ str "." ++ skipn 1 digits ++ exponent)
  end.

(** ** [JSON.stringify] *)

Definition hexText (n : N) : jsstring :=
  match nth_error (str "0123456789abcdef") (N.to_nat n) with
  | Some c => [c]
  | None => []
  end.

(** [UnicodeEscape]. *)
Definition unicodeEscape (c : N) : jsstring :=
  BACKSLASH :: str "u" ++ hexText (c / 4096) ++ hexText ((c / 256) mod 16)
  ++ hexText ((c / 16) mod 16) ++ hexText (c mod 16).

Definition isLeadingSurrogate (c : N) : bool := (55296 <=? c) && (c <=? 56319).
Definition isTrailingSurrogate (c : N) : bool := (56320 <=? c) && (c <=? 57343).

(** The code unit [c], which is no surrogate, between the quotes. *)
Definition quoteUnit (c : N) : jsstring :=
  if c =? 34 then [BACKSLASH; QUOTE]
  else if c =? 92 then [BACKSLASH; BACKSLASH]
  else if c =? 8 then BACKSLASH :: str "b"
  else if c =? 9 then BACKSLASH :: str "t"
  else if c =? 10 then BACKSLASH :: str "n"
  else if c =? 12 then BACKSLASH :: str "f"
  else if c =? 13 then BACKSLASH :: str "r"
  else if c <? 32 then unicodeEscape c
  else [c].

(** A pair of surrogates stays, a lone one is escaped. *)
Fixpoint quoteUnits (s : jsstring) : jsstring :=
  match s with
  | [] => []
  | c :: s' =>
      if isLeadingSurrogate c
      then match s' with
           | d :: s'' =>
               if isTrailingSurrogate d then c :: d :: quoteUnits s''
               else unicodeEscape c ++ quoteUnits s'
           | [] => unicodeEscape c
           end
      else if isTrailingSurrogate c then unicodeEscape c ++ quoteUnits s'
      else quoteUnit c ++ quoteUnits s'
  end.

(** [QuoteJSONString]. *)
Definition quote (s : jsstring) : jsstring :=
  [QUOTE] ++ quoteUnits s ++ [QUOTE].

(** A number in a JSON text: [null] for an infinity. *)
Definition numberJSON (m e : Z) : jsstring :=
  match numberOf m e with
  | Infinite _ => str "null"
  | v => Number_toString v
  end.

Fixpoint stringify (v : value) : jsstring :=
  match v with
  | JNull => str "null"
  | JBool true => str "true"
  | JBool false => str "false"
  | JNumber m e => numberJSON m e
  | JString s => quote s
  | JArray es =>
      str "["
      ++ (fix elements (es : list value) : jsstring :=
            match es with
            | [] => []
            | x :: r =>
                stringify x
                ++ match r with [] => [] | _ :: _ => str "," ++ elements r end
            end) es
      ++ str "]"
  | JObject ms =>
      str "{"
      ++ (fix members (ms : list (jsstring * value)) : jsstring :=
            match ms with
            | [] => []
            | (k, x) :: r =>
                quote k ++ str ":" ++ stringify x
                ++ match r with [] => [] | _ :: _ => str "," ++ members r end
            end) ms
      ++ str "}"
  end.

(** ** The messages of the faults *)

Definition wording (f : fault) : jsstring :=
  match f with
  | ReadOfNullish Undefined prop =>
      str "Cannot read properties of undefined (reading '" ++ prop ++ str "')"
  | ReadOfNullish Null prop =>
      str "Cannot read properties of null (reading '" ++ prop ++ str "')"
  | NotAFunction prop => prop ++ str " is not a function"
  | NotConvertible => str "Cannot convert object to primitive value"
  | InvalidJSON _ => str "Unexpected token in JSON"
  | FetchFailed => str "Failed to fetch"
  end.

(** ** [ToString] *)

(** [ToString(v)]; [None] when [ToPrimitive] throws.  An array is its
    elements joined by commas, [null] among them as the empty text; an
    object is [[object Object]], unless a member named [toString] hides
    the method: a member is no function. *)
Fixpoint textOf (v : value) : option jsstring :=
  match v with
  | JNull => Some (str "null")
  | JBool true => Some (str "true")
  | JBool false => Some (str "false")
  | JNumber m e => Some (Number_toString (numberOf m e))
  | JString s => Some s
  | JArray es =>
      (fix join (es : list value) : option jsstring :=
         match es with
         | [] => Some []
         | x :: r =>
             match (match x with JNull => Some [] | _ => textOf x end), r with
             | Some t, [] => Some t
             | Some t, _ :: _ =>
                 match join r with
                 | Some u => Some (t ++ str "," ++ u)
                 | None => None
                 end
             | None, _ => None
             end
         end) es
  | JObject ms =>
      match lookup (str "toString") ms with
      | None => Some (str "[object Object]")
      | Some _ => None
      end
  end.

(** ** [StringToNumber] *)

Definition digitValue (radix : Z) (c : N) : option Z :=
  let d := if (48 <=? c) && (c <=? 57) then Some (Z.of_N c - 48)%Z
           else if (97 <=? c) && (c <=? 102) then Some (Z.of_N c - 87)%Z
           else if (65 <=? c) && (c <=? 70) then Some (Z.of_N c - 55)%Z
           else None in
  match d with
  | Some x => if (x <? radix)%Z then Some x else None
  | None => None
  end.

(** The digits at the head of [s]: their value after [acc], their number
    after [count], and what follows them. *)
Fixpoint digits (radix : Z) (s : jsstring) (acc count : Z) : Z * Z * jsstring :=
  match s with
  | [] => (acc, count, [])
  | c :: s' =>
      match digitValue radix c with
      | Some d => digits radix s' (acc * radix + d)%Z (count + 1)%Z
      | None => (acc, count, s)
      end
  end.

(** [ExponentPart], or nothing. *)
Definition exponentPart (s : jsstring) : option Z :=
  match s with
  | [] => Some 0%Z
  | c :: s' =>
      if (c =? 101) || (c =? 69)
      then
        let '(negative, s'') :=
          match s' with
          | 43 :: r => (false, r)
          | 45 :: r => (true, r)
          | _ => (false, s')
          end in
        match digits 10 s'' 0 0 with
        | (e, count, []) =>
            if (0 <? count)%Z then Some (if negative then - e else e)%Z else None
        | _ => None
        end
      else None
  end.

(** [StrUnsignedDecimalLiteral]: mantissa and exponent. *)
Definition unsignedDecimal (s : jsstring) : option (Z * Z) :=
  let '(i, ni, r) := digits 10 s 0 0 in
  match r with
  | 46 :: r' =>
      let '(m, nf, r'') := digits 10 r' i 0 in
      if (0 <? ni + nf)%Z
      then match exponentPart r'' with
           | Some e => Some (m, e - nf)%Z
           | None => None
           end
      else None
  | _ =>
      if (0 <? ni)%Z
      then match exponentPart r with
           | Some e => Some (i, e)
           | None => None
           end
      else None
  end.

(** [0x], [0o] and [0b] literals. *)
Definition nonDecimal (s : jsstring) : option Z :=
  match s with
  | 48 :: c :: r =>
      let radix := if (c =? 120) || (c =? 88) then Some 16%Z
                   else if (c =? 111) || (c =? 79) then Some 8%Z
                   else if (c =? 98) || (c =? 66) then Some 2%Z
                   else None in
      match radix with
      | Some b =>
          match digits b r 0 0 with
          | (v, count, []) => if (0 <? count)%Z then Some v else None
          | _ => None
          end
      | None => None
      end
  | _ => None
  end.

(** [StringToNumber(s)]; [None] for [NaN]. *)
Definition StringToNumber (s : jsstring) : option number :=
  match trim s with
  | [] => Some (Finite 0 0)
  | t =>
      match nonDecimal t with
      | Some v => Some (numberOf v 0)
      | None =>
          let '(negative, u) :=
            match t with
            | 43 :: r => (false, r)
            | 45 :: r => (true, r)
            | _ => (false, t)
            end in
          if jsstring_eqb u (str "Infinity") then Some (Infinite negative)
          else match unsignedDecimal u with
               | Some (m, e) => Some (numberOf (if negative then - m else m)%Z e)
               | None => None
               end
      end
  end.

(** [n >= v] for a string, an array or an object [v]: through
    [ToPrimitive], which gives an array or an object its text, and
    [StringToNumber]; [false] against [NaN]. *)
Definition spelledGE (n : Z) (v : value) : bool :=
  match textOf v with
  | Some s =>
      match StringToNumber s with
      | Some x => reachesNumber n x
      | None => false
      end
  | None => false
  end.

#[export] Instance sample : Runtime :=
  {| faultMessage := wording;
     JSON_stringify := stringify;
     templateText := textOf;
     numberGE := spelledGE |}.

End Engine.

(* ================================================================== *)
(** * The vocabulary of the specification *)
(* ================================================================== *)

(** What the statements below speak of: the fence and the fenced text,
    the item of a line, the candidate of a reply, the worlds an animation
    goes through, what a statement keeps, and the inputs on which the
    sources are run. *)

Unset Implicit Arguments.

Module Vocabulary.

Import Client.

Local Open Scope N_scope.

(** ** Texts *)

(** The three backticks of a markdown fence. *)
Definition fence : jsstring := [BACKTICK; BACKTICK; BACKTICK].

(** A text made of white space only. *)
Definition blank (w : jsstring) : Prop :=
  Forall (fun c => isWhiteSpace c = true) w.

(** A text without backticks. *)
Definition tickFree (s : jsstring) : Prop := Forall (fun c => c <> BACKTICK) s.

(** [t] between a [json] fence and a closing fence, with blanks around
    the fences and around [t]. *)
Definition fenced (w0 w1 t w2 w3 : jsstring) : jsstring :=
  w0 ++ str "```json" ++ w1 ++ t ++ w2 ++ str "```" ++ w3.

(** What follows the first asterisk of a line, when it has one. *)
Fixpoint afterAsterisk (line : jsstring) : option jsstring :=
  match line with
  | [] => None
  | c :: rest => if c =? ASTERISK then Some rest else afterAsterisk rest
  end.

(** The item the specification gives a line: what follows its first
    asterisk, trimmed; the line itself, trimmed, when it has none. *)
Definition itemOf (line : jsstring) : jsstring :=
  match afterAsterisk line with
  | Some rest => trim rest
  | None => trim line
  end.

(** The markup of one item, and of a list of items. *)
Definition listItem (content : jsstring) : jsstring :=
  li_open ++ content ++ li_close.

Definition unorderedList (items : list jsstring) : jsstring :=
  ul_open ++ flat_map listItem items ++ ul_close.

(** A state the lexer can be in: inside a literal name, letters are still
    to come, and none of them is white space. *)
Definition steady (st : lexstate) : Prop :=
  match st with
  | LLiteral rest _ =>
      rest <> [] /\ Forall (fun c => isWhiteSpace c = false) rest
  | _ => True
  end.

(** ** Replies of the model *)

(** The network settled with a success response whose first candidate's
    text is the string [s]. *)
Definition candidate (o : outcome) (s : jsstring) : Prop :=
  exists r v,
    o = Responded r /\ ok r = true /\ parse (text r) = Some v
    /\ candidateText v = Ok (Some (JString s)).

(** The reply of the model around a candidate text. *)
Definition envelope (s : jsstring) : value :=
  JObject [(str "candidates",
    JArray [JObject [(str "content",
      JObject [(str "parts",
        JArray [JObject [(str "text", JString s)]])])]])].

(** [result.candidates[0]], the first candidate of a reply. *)
Definition firstCandidate (v : value) : result jsvalue :=
  then_ (getProp (Some v) (str "candidates")) (fun c => getIndex c 0).

(** The reply holds no first candidate: reading it throws or gives
    [undefined]. *)
Definition noCandidate (v : value) : Prop :=
  forall c, firstCandidate v <> Ok (Some c).

(** An exception that no reply holding a candidate makes the call throw:
    a failure kept for the empty reply. *)
Definition distinctFailure (e : exn) : Prop :=
  forall r v world,
    ok r = true -> parse (text r) = Some v -> ~ noCandidate v ->
    snd (callGeminiAPI_resume (Responded r) world) <> Throw e.

(** The failure [callGeminiAPI] reports for a text it cannot parse. *)
Definition invalidResponse : JSM value :=
  throw (Error (str "The AI returned an invalid response. Please try again.")).

(** ** Worlds *)

(** The integer [n] as the script receives it from [JSON.parse]. *)
Definition integer (n : Z) : jsvalue := Some (JNumber n 0).

(** The world [k] firings after [animateScore(n)] was called in [w], while
    the counter has not reached [n]. *)
Definition counting (w : World) (n : Z) (k : nat) : World :=
  {| page := match k with
             | O => page w
             | S _ => set_scoreDisplay_textContent
                        (decimal (Z.to_N (Z.of_nat k))) (page w)
             end;
     now := now w + 20 * Z.of_nat k;
     timers := timers w ++ [{| timerId := nextTimer w;
                               due := now w + 20 * (Z.of_nat k + 1);
                               task := Animate (Z.of_nat k) (integer n) |}];
     nextTimer := S (nextTimer w);
     inflight := inflight w;
     copying := copying w;
     log := log w |}.

(** The world once the counter has reached [n]. *)
Definition counted (w : World) (n : Z) : World :=
  {| page := set_scoreDisplay_textContent (decimal (Z.to_N n)) (page w);
     now := now w + 20 * n;
     timers := timers w;
     nextTimer := S (nextTimer w);
     inflight := inflight w;
     copying := copying w;
     log := log w |}.

(** No timer of [w] bears the next identifier. *)
Definition freshIds (w : World) : Prop :=
  Forall (fun t => timerId t <> nextTimer w) (timers w).

(** Timer [id] firing [k] times in a row. *)
Definition firings (id : nat) (k : nat) : list input := repeat (TimerFires id) k.

(** The statement [c] takes every world to one related to it by [R]. *)
Definition keeps (R : World -> World -> Prop) {A : Type} (c : JSM A) : Prop :=
  forall w, R w (fst (c w)).

(** Nothing but the record of effects changed, and no request left. *)
Definition sameButLog (w w' : World) : Prop :=
  page w' = page w /\ now w' = now w /\ timers w' = timers w
  /\ nextTimer w' = nextTimer w /\ inflight w' = inflight w
  /\ copying w' = copying w /\ fetches w' = fetches w.

(** No request left and none settled. *)
Definition offline (w w' : World) : Prop :=
  fetches w' = fetches w /\ inflight w' = inflight w.

(** What may happen while a review is in flight: anything but the
    network settling. *)
Definition duringCall (i : input) : Prop :=
  match i with
  | FetchSettles _ => False
  | _ => True
  end.

(** At most one review is in flight, and the button is disabled while it
    is. *)
Definition singleFlight (w : World) : Prop :=
  match inflight w with
  | [] => True
  | [_] => reviewBtn_disabled (page w) = true
  | _ :: _ :: _ => False
  end.


(** Timers were added at the end, and none was removed or changed. *)
Definition timersGrow (w w' : World) : Prop :=
  exists added, timers w' = timers w ++ added.

(** The message of the failure [callGeminiAPI] reports for a text it
    cannot parse. *)
Definition invalidMessage : jsstring :=
  str "The AI returned an invalid response. Please try again.".

(** The timer [animateScore(finalScore)] arms in [w]. *)
Definition animation (finalScore : jsvalue) (w : World) : Timer :=
  {| timerId := nextTimer w; due := now w + 20; task := Animate 0 finalScore |}.

(** A markdown bullet around [item], and a text that can be one item: it
    has no blanks at its ends and stays on one line. *)
Definition bullet (item : jsstring) : jsstring := str "* " ++ item.

Definition oneLine (item : jsstring) : Prop := trim item = item /\ ~ In LF item.

(** How many times the network settled among the inputs [ins]. *)
Definition settles (ins : list input) : nat :=
  List.length (filter (fun i => match i with FetchSettles _ => true | _ => false end)
                 ins).

(** The reply holds no review that is a string. *)
Definition noReview (reply : value) : Prop :=
  forall ms rv, reply = JObject ms -> lookup (str "review") ms <> Some (JString rv).

(** The record of effects grew, and by no request. *)
Definition quietly (w w' : World) : Prop :=
  exists rest, log w' = log w ++ rest /\ filter isFetch rest = [].

(** ** Inputs to run the sources on *)

(** A page on which nothing has happened yet, and its world. *)
Definition freshPage : Page :=
  {| inputCode_value := [];
     reviewOutput_innerHTML := str "AI's feedback will appear here...";
     outputCode_value := [];
     scoreDisplay_textContent := str "N/A";
     loader_hidden := true;
     errorBox_hidden := true;
     errorMessage_textContent := [];
     reviewBtn_disabled := false;
     copyBtn_textContent := str "Copy" |}.

Definition freshWorld : World :=
  {| page := freshPage; now := 0; timers := []; nextTimer := 0;
     inflight := []; copying := []; log := [] |}.

(** The user typed [code] into the input box. *)
Definition typed (code : string) (w : World) : World :=
  set_page (set_inputCode_value (str code) (page w)) w.

(** A candidate text whose [updatedCode] is a number. *)
Definition numericCode : jsstring :=
  str "{" ++ q "review" ++ str ":" ++ q "* a" ++ str ","
  ++ q "updatedCode" ++ str ":5," ++ q "score" ++ str ":1}".

(** A response, and the network that answers every request with it. *)
Definition reply (code : N) (reason body : jsstring) : Response :=
  {| status := code; statusText := reason; text := body |}.

Definition answering (r : Response) : Request -> outcome :=
  fun _ => Responded r.

(** A success response around the candidate text [s]. *)
Definition candidateReply (s : jsstring) : Response :=
  reply 200 (str "OK") (Engine.stringify (envelope s)).

(** The JSON text of the specification's example, and its value. *)
Definition okReview : jsstring :=
  str "{" ++ q "review" ++ str ":" ++ q "ok" ++ str ","
  ++ q "updatedCode" ++ str ":" ++ [QUOTE; QUOTE] ++ str ","
  ++ q "score" ++ str ":90}".

Definition okResult : value :=
  JObject [(str "review", JString (str "ok"));
           (str "updatedCode", JString []);
           (str "score", JNumber 90 0)].

(** A candidate text that is valid JSON and holds a fence in a field. *)
Definition fencedField : jsstring :=
  str "{" ++ q "review" ++ str ":" ++ q "```" ++ str ","
  ++ q "updatedCode" ++ str ":" ++ [QUOTE; QUOTE] ++ str ","
  ++ q "score" ++ str ":1}".

Definition fencedFieldValue : value :=
  JObject [(str "review", JString (str "```"));
           (str "updatedCode", JString []);
           (str "score", JNumber 1 0)].

Definition fencedFieldResult : value :=
  JObject [(str "review", JString []);
           (str "updatedCode", JString []);
           (str "score", JNumber 1 0)].

(** A reply without candidates, and a reply with a candidate that lacks
    its parts. *)
Definition emptyReply : Response := reply 200 (str "OK") (str "{}").

Definition partlessReply : Response :=
  reply 200 (str "OK")
    (str "{" ++ q "candidates" ++ str ":[{" ++ q "content" ++ str ":{}}]}").

(** A request to review [code], as the browser would post it. *)
Definition post (code : string) : Proxy.Event :=
  {| Proxy.httpMethod := str "POST";
     Proxy.eventBody := Some (str "{" ++ q "code" ++ str ":" ++ q code ++ str "}") |}.

(** An environment that holds the key. *)
Definition withKey (key : string) : Proxy.Env :=
  {| Proxy.GEMINI_API_KEY := Some (str key) |}.

(** A candidate text with an updated code, kept with the blanks at its
    ends, and its value. *)
Definition improved : jsstring :=
  str "{" ++ q "review" ++ str ":" ++ q "* a" ++ str ","
  ++ q "updatedCode" ++ str ":" ++ q " x = 2 " ++ str ","
  ++ q "score" ++ str ":7}".

Definition improvedResult : list (jsstring * value) :=
  [(str "review", JString (str "* a"));
   (str "updatedCode", JString (str " x = 2 "));
   (str "score", JNumber 7 0)].

(** A candidate text whose [updatedCode] is a literal too small for a
    Number other than zero. *)
Definition vanishingCode : jsstring :=
  str "{" ++ q "review" ++ str ":" ++ q "* a" ++ str ","
  ++ q "updatedCode" ++ str ":1e-400," ++ q "score" ++ str ":1}".

(** An upstream failure whose body is a page, and one whose body is
    JSON. *)
Definition busy : Response :=
  reply 503 (str "Service Unavailable") (str "<html>busy</html>").

Definition quotaExceeded : Response :=
  reply 429 (str "Too Many Requests")
    (str "{" ++ q "error" ++ str ": {" ++ q "code" ++ str ": 429}}").

End Vocabulary.

Import Vocabulary.

(* ================================================================== *)
(** * The definitions at work *)
(* ================================================================== *)

Module Examples.

Example decimal_429 : decimal 429 = str "429".
Proof. reflexivity. Qed.

Example decimal_0 : decimal 0 = str "0".
Proof. reflexivity. Qed.

Example split_lines :
  split LF (str "a" ++ [LF] ++ str "b") = [str "a"; str "b"].
Proof. reflexivity. Qed.

Example split_empty : split LF [] = [[]].
Proof. reflexivity. Qed.

Example replace_leftmost :
  replaceAll (str "```") [] (str "a```b````c") = str "ab`c".
Proof. reflexivity. Qed.

Example trim_both_ends :
  trim ([LF; 32%N] ++ str "a b" ++ [9%N; 160%N]) = str "a b".
Proof. reflexivity. Qed.

Example parse_nested :
  parse (str "{" ++ q "review" ++ str ": [1, -2.50e1, true, null]}")
  = Some (JObject [(str "review",
            JArray [JNumber 1 0; JNumber (-250) (-1); JBool true; JNull])]).
Proof. reflexivity. Qed.

Example parse_repeated_key :
  parse (str "{" ++ q "a" ++ str ":1," ++ q "b" ++ str ":2," ++ q "a" ++ str ":3}")
  = Some (JObject [(str "a", JNumber 3 0); (str "b", JNumber 2 0)]).
Proof. reflexivity. Qed.

Example parse_escape :
  parse ([QUOTE] ++ str "a" ++ [BACKSLASH] ++ str "nA" ++ [BACKSLASH]
         ++ str "u0041" ++ [QUOTE])
  = Some (JString (str "a" ++ [LF] ++ str "AA")).
Proof. reflexivity. Qed.

Example parse_blanks : parse (str " null ") = Some JNull.
Proof. reflexivity. Qed.

Example parse_words : parse (str "Service Unavailable") = None.
Proof. reflexivity. Qed.

Example parse_trailing_comma : parse (str "[1,]") = None.
Proof. reflexivity. Qed.

Example parse_leading_zero : parse (str "01") = None.
Proof. reflexivity. Qed.

Example parse_nothing : parse [] = None.
Proof. reflexivity. Qed.

Example stringify_escapes :
  Engine.stringify (JObject [(str "error", JString (str "a" ++ [QUOTE; LF]))])
  = str "{" ++ q "error" ++ str ":" ++ [QUOTE] ++ str "a"
    ++ [BACKSLASH; QUOTE; BACKSLASH] ++ str "n" ++ [QUOTE] ++ str "}".
Proof. reflexivity. Qed.

Example numberOf_tenth : numberOf 1 (-1) = Finite 7205759403792794 (-56).
Proof. reflexivity. Qed.

Example numberOf_tie : numberOf 9007199254740993 0 = Finite 4503599627370496 1.
Proof. reflexivity. Qed.

Example numberOf_beyond : numberOf 1 400 = Infinite false.
Proof. vm_compute. reflexivity. Qed.

Example numberOf_smallest : numberOf 5 (-324) = Finite 1 (-1074).
Proof. vm_compute. reflexivity. Qed.

Example truthy_underflow : truthy (parse (str "1e-400")) = false.
Proof. vm_compute. reflexivity. Qed.

Example truthy_fraction : truthy (parse (str "0.5")) = true.
Proof. vm_compute. reflexivity. Qed.

Example decimalGE_rounds :
  parse (str "1.0000000000000000001") = Some (JNumber 10000000000000000001 (-19))
  /\ decimalGE 1 10000000000000000001 (-19) = true.
Proof. split; vm_compute; reflexivity. Qed.

Example decimalGE_infinity : decimalGE (10 ^ 400) 1 400 = false.
Proof. vm_compute. reflexivity. Qed.

Example stringify_rounds :
  Engine.stringify (JArray [JNumber 12345678901234567890 0; JNumber 1 400;
                            JNumber 1 (-1); JNumber 1 21; JNumber 15 (-8)])
  = str "[12345678901234567000,null,0.1,1e+21,1.5e-7]".
Proof. vm_compute. reflexivity. Qed.

Example stringify_lone_surrogate :
  Engine.stringify (JString [55357%N; 56832%N; 55357%N])
  = [QUOTE; 55357%N; 56832%N; BACKSLASH] ++ str "ud83d" ++ [QUOTE].
Proof. reflexivity. Qed.

Example textOf_array :
  Engine.textOf (JArray [JNumber 1 0; JNull; JArray [JNumber 25 (-1); JBool true];
                         JString (str "a"); JObject []])
  = Some (str "1,,2.5,true,a,[object Object]").
Proof. vm_compute. reflexivity. Qed.

Example StringToNumber_spellings :
  map Engine.StringToNumber
      [[]; str " 12 "; str "0x10"; str ".5"; str "5."; str "+5"; str "-1e3";
       str "-Infinity"; str "abc"; str "1 2"; str "0x"; str "-0x10"; str "."]
  = [Some (Finite 0 0); Some (numberOf 12 0); Some (numberOf 16 0);
     Some (numberOf 5 (-1)); Some (numberOf 5 0); Some (numberOf 5 0);
     Some (numberOf (-1) 3); Some (Infinite true); None; None; None; None; None].
Proof. vm_compute. reflexivity. Qed.

Example spelledGE_array :
  Engine.spelledGE 2 (JArray [JNumber 2 0]) = true
  /\ Engine.spelledGE 2 (JArray [JNumber 2 0; JNumber 3 0]) = false
  /\ Engine.spelledGE 0 (JArray []) = true
  /\ Engine.spelledGE 2 (JObject []) = false
  /\ Engine.spelledGE 7 (JString (str "7.0")) = true.
Proof. vm_compute. repeat split. Qed.

Example candidate_of_reply :
  candidateText (envelope (str "text")) = Ok (Some (JString (str "text"))).
Proof. reflexivity. Qed.

End Examples.

(* ================================================================== *)
(** * Facts about strings *)
(* ================================================================== *)

Module StringFacts.

Local Open Scope N_scope.

Lemma startsWith_length p s :
  startsWith p s = true -> (List.length p <= List.length s)%nat.
Proof.
  revert s; induction p as [|a p IH]; intros [|c s]; simpl; intros H;
    try lia; try discriminate.
  apply andb_prop in H as [_ H]. apply IH in H. lia.
Qed.

Lemma startsWith_app_l p s v :
  startsWith p s = true -> startsWith p (s ++ v) = true.
Proof.
  revert s; induction p as [|a p IH]; intros [|c s]; simpl; intros H;
    try reflexivity; try discriminate.
  apply andb_prop in H as [H1 H2]. rewrite H1, (IH _ H2). reflexivity.
Qed.

(** A match holds the last code unit of the pattern. *)
Lemma startsWith_last p x s :
  startsWith (p ++ [x]) s = true -> In x s.
Proof.
  revert s; induction p as [|a p IH]; intros [|c s]; simpl; intros H;
    try discriminate.
  - apply andb_prop in H as [H _]. apply N.eqb_eq in H. now left.
  - apply andb_prop in H as [_ H]. right. now apply IH.
Qed.

(** A match cannot end inside a suffix that lacks the pattern's last
    code unit. *)
Lemma startsWith_app_inv p x u v :
  ~ In x v ->
  startsWith (p ++ [x]) (u ++ v) = true -> startsWith (p ++ [x]) u = true.
Proof.
  intros Hx. revert u; induction p as [|a p IH]; intros [|c u]; simpl; intros H.
  - exfalso. apply Hx. apply (startsWith_last []). exact H.
  - apply andb_prop in H as [H _]. rewrite H. reflexivity.
  - exfalso. apply Hx. apply (startsWith_last (a :: p)). exact H.
  - apply andb_prop in H as [H1 H2]. rewrite H1. simpl. now apply IH.
Qed.

Lemma replaceAll_from_skip pat rep k s :
  (k <= List.length s)%nat ->
  replaceAll_from pat rep k s = replaceAll pat rep (skipn k s).
Proof.
  revert k; induction s as [|c s IH]; intros [|k] H; simpl in *;
    try reflexivity; try lia.
  apply IH. lia.
Qed.

Lemma replaceAll_nil pat rep : replaceAll pat rep [] = [].
Proof. reflexivity. Qed.

Lemma replaceAll_match pat rep s :
  pat <> [] -> startsWith pat s = true ->
  replaceAll pat rep s = rep ++ replaceAll pat rep (skipn (List.length pat) s).
Proof.
  intros Hp H. pose proof (startsWith_length _ _ H) as Hl.
  destruct pat as [|a pat]; [congruence|].
  destruct s as [|c s]; [discriminate|].
  unfold replaceAll at 1. simpl replaceAll_from. simpl in H. rewrite H.
  simpl in Hl. rewrite replaceAll_from_skip by lia.
  simpl. rewrite Nat.sub_0_r. reflexivity.
Qed.

Lemma startsWith_self p s : startsWith p (p ++ s) = true.
Proof.
  induction p as [|a p IH]; [reflexivity|]. simpl. now rewrite N.eqb_refl.
Qed.

Lemma replaceAll_drop_match pat rep s :
  pat <> [] -> replaceAll pat rep (pat ++ s) = rep ++ replaceAll pat rep s.
Proof.
  intros Hp. rewrite replaceAll_match by (assumption || apply startsWith_self).
  rewrite skipn_app, skipn_all, Nat.sub_diag. reflexivity.
Qed.

Lemma replaceAll_nomatch pat rep c s :
  startsWith pat (c :: s) = false ->
  replaceAll pat rep (c :: s) = c :: replaceAll pat rep s.
Proof.
  intros H. unfold replaceAll. simpl replaceAll_from. rewrite H. reflexivity.
Qed.

(** Nothing is replaced in a text that lacks the pattern's last code
    unit. *)
Lemma replaceAll_absent p x rep v :
  ~ In x v -> replaceAll (p ++ [x]) rep v = v.
Proof.
  induction v as [|c v IH]; intros Hx; [reflexivity|].
  rewrite replaceAll_nomatch.
  - rewrite IH; [reflexivity|]. intros Hin. apply Hx. now right.
  - destruct (startsWith (p ++ [x]) (c :: v)) eqn:E; [|reflexivity].
    exfalso. apply Hx. now apply (startsWith_last p).
Qed.

(** Replacement leaves alone a suffix that lacks the pattern's last code
    unit. *)
Lemma replaceAll_app_suffix p x rep v :
  ~ In x v ->
  forall u, replaceAll (p ++ [x]) rep (u ++ v) = replaceAll (p ++ [x]) rep u ++ v.
Proof.
  intros Hx u.
  remember (List.length u) as n eqn:Hn. revert u Hn.
  induction n as [n IH] using lt_wf_ind. intros u Hn.
  destruct u as [|c u].
  - simpl. now apply replaceAll_absent.
  - destruct (startsWith (p ++ [x]) (c :: u)) eqn:E.
    + assert (Hne : p ++ [x] <> []) by (destruct p; discriminate).
      pose proof (startsWith_length _ _ E) as Hl.
      rewrite (replaceAll_match _ rep _ Hne (startsWith_app_l _ _ v E)).
      rewrite (replaceAll_match _ rep _ Hne E).
      rewrite skipn_app.
      replace (List.length (p ++ [x]) - List.length (c :: u))%nat with 0%nat by lia.
      simpl (skipn 0 v).
      rewrite (IH (List.length (skipn (List.length (p ++ [x])) (c :: u)))).
      * now rewrite app_assoc.
      * rewrite length_skipn. subst n. rewrite length_app in *.
        change (List.length [x]) with 1%nat in *. lia.
      * reflexivity.
    + assert (E' : startsWith (p ++ [x]) ((c :: u) ++ v) = false).
      { destruct (startsWith (p ++ [x]) ((c :: u) ++ v)) eqn:E2; [|reflexivity].
        rewrite (startsWith_app_inv p x (c :: u) v Hx E2) in E. discriminate. }
      simpl app in *.
      rewrite (replaceAll_nomatch _ rep _ _ E'), (replaceAll_nomatch _ rep _ _ E).
      simpl. f_equal. apply (IH (List.length u)); [subst n; simpl; lia | reflexivity].
Qed.

(** Replacement leaves alone a prefix made of code units other than the
    pattern's first. *)
Lemma replaceAll_app_prefix a p rep w s :
  Forall (fun c => c <> a) w ->
  replaceAll (a :: p) rep (w ++ s) = w ++ replaceAll (a :: p) rep s.
Proof.
  induction 1 as [|c w Hc _ IH]; [reflexivity|].
  simpl app. rewrite replaceAll_nomatch.
  - now rewrite IH.
  - simpl. apply N.eqb_neq in Hc. rewrite N.eqb_sym, Hc. reflexivity.
Qed.

(** ** The fence *)

Lemma fence_eq : str "```" = fence.
Proof. reflexivity. Qed.

Lemma fence_json_eq : str "```json" = (fence ++ str "jso") ++ [110].
Proof. reflexivity. Qed.

Lemma fence_match s : startsWith fence (fence ++ s) = true.
Proof. reflexivity. Qed.

Lemma tick_neqb c : c <> BACKTICK -> (BACKTICK =? c) = false.
Proof. intros H. apply N.eqb_neq. congruence. Qed.

Lemma fence_nomatch1 c s : c <> BACKTICK -> startsWith fence (c :: s) = false.
Proof.
  intros H. unfold fence. cbn [startsWith]. now rewrite (tick_neqb c H).
Qed.

Lemma fence_nomatch2 c s :
  c <> BACKTICK -> startsWith fence (BACKTICK :: c :: s) = false.
Proof.
  intros H. unfold fence. cbn [startsWith].
  now rewrite (tick_neqb c H), andb_false_r.
Qed.

Lemma fence_nomatch3 c s :
  c <> BACKTICK -> startsWith fence (BACKTICK :: BACKTICK :: c :: s) = false.
Proof.
  intros H. unfold fence. cbn [startsWith].
  now rewrite (tick_neqb c H), !andb_false_r.
Qed.

Lemma replaceAll_fence_match s :
  replaceAll fence [] (fence ++ s) = replaceAll fence [] s.
Proof.
  rewrite replaceAll_match; [reflexivity | discriminate | apply fence_match].
Qed.

(** A fence appended to a text disappears with the fences of the text. *)
Lemma replaceAll_fence_app u :
  replaceAll fence [] (u ++ fence) = replaceAll fence [] u.
Proof.
  remember (List.length u) as n eqn:Hn. revert u Hn.
  induction n as [n IH] using lt_wf_ind. intros u Hn.
  destruct u as [|c1 u]; [reflexivity|].
  destruct (N.eq_dec c1 BACKTICK) as [->|N1].
  2:{ simpl app. rewrite !replaceAll_nomatch by now apply fence_nomatch1.
      f_equal. exact (IH (List.length u) ltac:(subst; simpl; lia) u eq_refl). }
  destruct u as [|c2 u]; [reflexivity|].
  destruct (N.eq_dec c2 BACKTICK) as [->|N2].
  2:{ simpl app.
      rewrite (replaceAll_nomatch fence [] BACKTICK (c2 :: u ++ fence))
        by now apply fence_nomatch2.
      rewrite (replaceAll_nomatch fence [] BACKTICK (c2 :: u))
        by now apply fence_nomatch2.
      f_equal.
      exact (IH (List.length (c2 :: u)) ltac:(subst; simpl; lia) (c2 :: u) eq_refl). }
  destruct u as [|c3 u]; [reflexivity|].
  destruct (N.eq_dec c3 BACKTICK) as [->|N3].
  - change (replaceAll fence [] (fence ++ (u ++ fence))
            = replaceAll fence [] (fence ++ u)).
    rewrite !replaceAll_fence_match.
    exact (IH (List.length u) ltac:(subst; simpl; lia) u eq_refl).
  - simpl app.
    rewrite (replaceAll_nomatch fence [] BACKTICK (BACKTICK :: c3 :: u ++ fence))
      by now apply fence_nomatch3.
    rewrite (replaceAll_nomatch fence [] BACKTICK (BACKTICK :: c3 :: u))
      by now apply fence_nomatch3.
    f_equal.
    exact (IH (List.length (BACKTICK :: c3 :: u)) ltac:(subst; simpl; lia)
              (BACKTICK :: c3 :: u) eq_refl).
Qed.

(** What is left of a text that does not begin with two backticks does
    not begin with two backticks. *)
Lemma replaceAll_fence_head u :
  startsWith [BACKTICK; BACKTICK] u = false ->
  startsWith [BACKTICK; BACKTICK] (replaceAll fence [] u) = false.
Proof.
  intros H.
  destruct u as [|c1 u]; [reflexivity|].
  destruct (N.eq_dec c1 BACKTICK) as [->|N1].
  2:{ rewrite replaceAll_nomatch by now apply fence_nomatch1.
      cbn [startsWith]. now rewrite (tick_neqb c1 N1). }
  destruct u as [|c2 u]; [reflexivity|].
  destruct (N.eq_dec c2 BACKTICK) as [->|N2]; [discriminate|].
  rewrite replaceAll_nomatch by now apply fence_nomatch2.
  rewrite replaceAll_nomatch by now apply fence_nomatch1.
  cbn [startsWith]. now rewrite (tick_neqb c2 N2), andb_false_r.
Qed.

(** No fence is left after the replacement. *)
Lemma replaceAll_fence_free u :
  includes fence (replaceAll fence [] u) = false.
Proof.
  remember (List.length u) as n eqn:Hn. revert u Hn.
  induction n as [n IH] using lt_wf_ind. intros u Hn.
  destruct u as [|c u]; [reflexivity|].
  destruct (startsWith fence (c :: u)) eqn:E.
  - rewrite replaceAll_match by (discriminate || assumption).
    simpl app.
    apply (IH (List.length (skipn (List.length fence) (c :: u)))); [|reflexivity].
    rewrite length_skipn. subst n. simpl. lia.
  - rewrite replaceAll_nomatch by assumption.
    simpl includes.
    rewrite (IH (List.length u)) by (subst; simpl; lia || reflexivity).
    rewrite orb_false_r.
    destruct (N.eq_dec c BACKTICK) as [->|N1].
    + change (startsWith [BACKTICK; BACKTICK] (replaceAll fence [] u) = false).
      apply replaceAll_fence_head. exact E.
    + now apply fence_nomatch1.
Qed.

(** ** Trimming *)

Lemma trimStart_blank_app w s : blank w -> trimStart (w ++ s) = trimStart s.
Proof.
  induction 1 as [|c w Hc _ IH]; [reflexivity|]. simpl. now rewrite Hc.
Qed.

Lemma trimStart_blank w : blank w -> trimStart w = [].
Proof.
  intros H. rewrite <- (app_nil_r w). now rewrite trimStart_blank_app.
Qed.

Lemma trimStart_snoc y c :
  trimStart (y ++ [c])
  = match trimStart y with
    | [] => if isWhiteSpace c then [] else [c]
    | z => z ++ [c]
    end.
Proof.
  induction y as [|a y IH]; simpl.
  - destruct (isWhiteSpace c); reflexivity.
  - destruct (isWhiteSpace a); [exact IH | reflexivity].
Qed.

Lemma trimEnd_cons c x :
  trimEnd (c :: x)
  = match trimEnd x with
    | [] => if isWhiteSpace c then [] else [c]
    | y => c :: y
    end.
Proof.
  unfold trimEnd. simpl rev. rewrite trimStart_snoc.
  destruct (trimStart (rev x)) as [|a z] eqn:E.
  - simpl. destruct (isWhiteSpace c); reflexivity.
  - rewrite rev_app_distr.
    change (rev [c] ++ rev (a :: z)) with (c :: rev (a :: z)).
    remember (rev (a :: z)) as y eqn:E2.
    destruct y; [|reflexivity].
    apply (f_equal (@List.length N)) in E2. rewrite length_rev in E2. discriminate.
Qed.

Lemma trimEnd_nil : trimEnd [] = [].
Proof. reflexivity. Qed.

Lemma trimEnd_app_blank s w : blank w -> trimEnd (s ++ w) = trimEnd s.
Proof.
  intros H. unfold trimEnd. rewrite rev_app_distr.
  rewrite trimStart_blank_app; [reflexivity|]. now apply Forall_rev.
Qed.

(** The two ends are trimmed independently. *)
Lemma trim_comm x : trimStart (trimEnd x) = trimEnd (trimStart x).
Proof.
  induction x as [|c x IH]; [reflexivity|].
  rewrite trimEnd_cons. simpl trimStart at 2.
  destruct (isWhiteSpace c) eqn:Hc.
  - rewrite <- IH. destruct (trimEnd x) as [|a y]; [reflexivity|].
    simpl. now rewrite Hc.
  - rewrite trimEnd_cons.
    destruct (trimEnd x) as [|a y]; simpl; now rewrite Hc.
Qed.

Lemma trim_blank_app_l w s : blank w -> trim (w ++ s) = trim s.
Proof.
  intros H. unfold trim. rewrite !trim_comm. now rewrite trimStart_blank_app.
Qed.

Lemma trim_app_blank_r s w : blank w -> trim (s ++ w) = trim s.
Proof.
  intros H. unfold trim. now rewrite trimEnd_app_blank.
Qed.

Lemma trim_blank w : blank w -> trim w = [].
Proof.
  intros H. unfold trim. rewrite trim_comm, trimStart_blank by assumption.
  reflexivity.
Qed.

(** A text is what [trimStart] keeps after a blank prefix, and what
    [trimEnd] keeps before a blank suffix. *)
Lemma trimStart_split s : exists w, blank w /\ s = w ++ trimStart s.
Proof.
  induction s as [|c s [w [Hw E]]].
  - exists []. split; [constructor | reflexivity].
  - simpl. destruct (isWhiteSpace c) eqn:Hc.
    + exists (c :: w). split; [now constructor|]. simpl. now rewrite <- E.
    + exists []. split; [constructor | reflexivity].
Qed.

Lemma trimEnd_split s : exists w, blank w /\ s = trimEnd s ++ w.
Proof.
  destruct (trimStart_split (rev s)) as [w [Hw E]].
  exists (rev w). split; [now apply Forall_rev|].
  unfold trimEnd. rewrite <- rev_app_distr, <- E. now rewrite rev_involutive.
Qed.

Lemma trimStart_idem s : trimStart (trimStart s) = trimStart s.
Proof.
  induction s as [|c s IH]; [reflexivity|]. simpl.
  destruct (isWhiteSpace c) eqn:Hc; [exact IH|]. simpl. now rewrite Hc.
Qed.

Lemma trimEnd_idem s : trimEnd (trimEnd s) = trimEnd s.
Proof.
  unfold trimEnd. rewrite rev_involutive, trimStart_idem. reflexivity.
Qed.

Lemma trim_idem s : trim (trim s) = trim s.
Proof.
  unfold trim. rewrite (trim_comm (trimStart (trimEnd s))).
  rewrite trimStart_idem, <- trim_comm, trimEnd_idem. reflexivity.
Qed.

(** Trimming the end first does not change what is left, trimmed, after
    dropping a prefix. *)
Lemma trim_skipn_trimEnd k l : trim (skipn k (trimEnd l)) = trim (skipn k l).
Proof.
  destruct (trimEnd_split l) as [w [Hw E]].
  rewrite E at 2. rewrite skipn_app.
  rewrite trim_app_blank_r; [reflexivity|].
  unfold blank in *. rewrite Forall_forall in *. intros c Hc. apply Hw.
  rewrite <- (firstn_skipn (k - List.length (trimEnd l)) w).
  apply in_or_app. now right.
Qed.

(** ** Occurrences *)

Lemma includes_app_inv p a b :
  p <> [] -> includes p (a ++ b) = false ->
  includes p a = false /\ includes p b = false.
Proof.
  intros Hp. induction a as [|c a IH]; simpl; intros H.
  - split; [destruct p; [congruence | reflexivity] | exact H].
  - apply orb_false_elim in H as [H1 H2]. destruct (IH H2) as [Ha Hb].
    split; [|exact Hb]. rewrite Ha, orb_false_r.
    destruct (startsWith p (c :: a)) eqn:E; [|reflexivity].
    change (c :: a ++ b) with ((c :: a) ++ b) in H1.
    now rewrite (startsWith_app_l _ _ b E) in H1.
Qed.

Lemma includes_trim p s : p <> [] -> includes p s = false -> includes p (trim s) = false.
Proof.
  intros Hp H. unfold trim.
  destruct (trimEnd_split s) as [w1 [_ E1]].
  destruct (trimStart_split (trimEnd s)) as [w2 [_ E2]].
  rewrite E1 in H. apply (includes_app_inv _ _ _ Hp) in H as [H _].
  rewrite E2 in H. now apply (includes_app_inv _ _ _ Hp) in H as [_ H].
Qed.

(** A text that holds a pattern holds every prefix of the pattern. *)
Lemma startsWith_prefix p r s : startsWith (p ++ r) s = true -> startsWith p s = true.
Proof.
  revert s; induction p as [|a p IH]; intros [|c s]; simpl; intros H;
    try reflexivity; try discriminate.
  apply andb_prop in H as [H1 H2]. rewrite H1. simpl. now apply IH.
Qed.

Lemma includes_prefix p r s : p <> [] -> includes p s = false -> includes (p ++ r) s = false.
Proof.
  intros Hp. induction s as [|c s IH]; simpl; intros H.
  - destruct p; [congruence | reflexivity].
  - apply orb_false_elim in H as [H1 H2]. rewrite (IH H2), orb_false_r.
    destruct (startsWith (p ++ r) (c :: s)) eqn:E; [|reflexivity].
    now rewrite (startsWith_prefix _ _ _ E) in H1.
Qed.

End StringFacts.

(* ================================================================== *)
(** * White space around a JSON text *)
(* ================================================================== *)

Module ParseFacts.

Import Vocabulary StringFacts.

Local Open Scope N_scope.

Lemma blank_neqb c k :
  isWhiteSpace c = true -> isWhiteSpace k = false -> (c =? k) = false.
Proof.
  intros Hc Hk. apply N.eqb_neq. intros ->. congruence.
Qed.

Lemma blank_range c :
  isWhiteSpace c = true ->
  (9 <= c <= 13) \/ c = 32 \/ 160 <= c.
Proof.
  unfold isWhiteSpace. intros H.
  repeat (apply orb_prop in H; destruct H as [H|H]);
    repeat match goal with
           | H : (_ && _) = true |- _ => apply andb_prop in H; destruct H
           | H : (_ <=? _) = true |- _ => apply N.leb_le in H
           | H : (_ =? _) = true |- _ => apply N.eqb_eq in H
           end; lia.
Qed.

Lemma blank_digit c : isWhiteSpace c = true -> digit c = None.
Proof.
  intros H. unfold digit.
  destruct ((48 <=? c) && (c <=? 57)) eqn:E; [|reflexivity].
  apply andb_prop in E as [E1 E2].
  apply N.leb_le in E1. apply N.leb_le in E2.
  destruct (blank_range c H) as [R|[R|R]]; lia.
Qed.

Lemma blank_expMark c : isWhiteSpace c = true -> isExpMark c = false.
Proof.
  intros H. unfold isExpMark.
  now rewrite (blank_neqb c 101 H eq_refl), (blank_neqb c 69 H eq_refl).
Qed.

(** White space between tokens: JSON has four, and no other starts a
    token. *)
Lemma lex_start_blank c :
  isWhiteSpace c = true ->
  lex_start c = if isJsonSpace c then Some ([], LStart) else None.
Proof.
  intros H. unfold lex_start. destruct (isJsonSpace c); [reflexivity|].
  rewrite (blank_neqb c 123 H eq_refl), (blank_neqb c 125 H eq_refl),
    (blank_neqb c 91 H eq_refl), (blank_neqb c 93 H eq_refl),
    (blank_neqb c 58 H eq_refl), (blank_neqb c 44 H eq_refl),
    (blank_neqb c 34 H eq_refl), (blank_neqb c 45 H eq_refl),
    (blank_neqb c 48 H eq_refl), (blank_neqb c 116 H eq_refl),
    (blank_neqb c 102 H eq_refl), (blank_neqb c 110 H eq_refl).
  now rewrite (blank_digit c H).
Qed.

Lemma lex_after_blank t c :
  isWhiteSpace c = true ->
  lex_after t c = if isJsonSpace c then Some ([t], LStart) else None.
Proof.
  intros H. unfold lex_after. rewrite (lex_start_blank c H).
  destruct (isJsonSpace c); reflexivity.
Qed.

Lemma steady_lex_start c ts st : lex_start c = Some (ts, st) -> steady st.
Proof.
  unfold lex_start.
  repeat match goal with
         | |- context [if ?b then _ else _] => destruct b
         end;
    try destruct (digit c); intros H; inversion H; subst; simpl; auto;
    (split; [discriminate | repeat constructor]).
Qed.

Lemma steady_lex_after t c ts st : lex_after t c = Some (ts, st) -> steady st.
Proof.
  unfold lex_after. destruct (lex_start c) as [[ts' st']|] eqn:E; [|discriminate].
  intros H. inversion H; subst. now apply (steady_lex_start c ts').
Qed.

(** The lexer stays in such states. *)
Lemma steady_lex_step st c ts st' :
  steady st -> lex_step st c = Some (ts, st') -> steady st'.
Proof.
  intros Hs H.
  destruct st as [|acc|acc|acc seen code|rest t| | | | | | | |]; simpl in H.
  4:{ destruct (hexdigit c); [|discriminate].
      destruct seen as [|[|[|[|?]]]]; inversion H; subst; exact I. }
  4:{ destruct rest as [|x rest']; [destruct Hs as [Hs _]; congruence|].
      destruct (c =? x); [|discriminate].
      destruct rest' as [|y rest'']; inversion H; subst; simpl; auto.
      destruct Hs as [_ Hs]. inversion Hs; subst.
      split; [discriminate | assumption]. }
  all: repeat match type of H with
              | lex_start _ = Some _ => exact (steady_lex_start _ _ _ H)
              | lex_after _ _ = Some _ => exact (steady_lex_after _ _ _ _ H)
              | context [if ?b then _ else _] => destruct b
              | context [match digit ?c with _ => _ end] => destruct (digit c)
              end;
       try discriminate; inversion H; subst; exact I.
Qed.

(** Blanks at the end of a text that lexes close what the end of the text
    would have closed. *)
Lemma lex_blank_end w : forall st ts,
  steady st -> blank w -> lex st w = Some ts -> lex_end st = Some ts.
Proof.
  induction w as [|c w IH]; intros st ts Hs Hw H; [exact H|].
  inversion Hw as [|? ? Hc Hw']; subst.
  simpl in H.
  destruct (lex_step st c) as [[em st']|] eqn:E; [|discriminate].
  destruct (lex st' w) as [r|] eqn:R; [|discriminate].
  inversion H; subst; clear H.
  pose proof (IH st' r (steady_lex_step st c em st' Hs E) Hw' R) as End'.
  destruct st; simpl in E.
  - rewrite (lex_start_blank c Hc) in E. destruct (isJsonSpace c); [|discriminate].
    inversion E; subst. exact End'.
  - rewrite (blank_neqb c 34 Hc eq_refl), (blank_neqb c 92 Hc eq_refl) in E.
    destruct (c <? 32); [discriminate|]. inversion E; subst. discriminate.
  - repeat match type of E with
           | context [if ?b then _ else _] => destruct b
           end; try discriminate; inversion E; subst; discriminate.
  - destruct (hexdigit c); [|discriminate].
    destruct seen as [|[|[|[|?]]]]; inversion E; subst; discriminate.
  - destruct rest as [|x rest']; [destruct Hs as [Hs _]; congruence|].
    destruct Hs as [_ Hs]. inversion Hs as [|? ? Hx _]; subst.
    rewrite (blank_neqb c x Hc Hx) in E. discriminate.
  - rewrite (blank_neqb c 48 Hc eq_refl), (blank_digit c Hc) in E. discriminate.
  - rewrite (blank_neqb c 46 Hc eq_refl), (blank_expMark c Hc),
      (lex_after_blank _ c Hc) in E.
    destruct (isJsonSpace c); [|discriminate]. inversion E; subst.
    simpl in End'. inversion End'; subst. reflexivity.
  - rewrite (blank_digit c Hc), (blank_neqb c 46 Hc eq_refl), (blank_expMark c Hc),
      (lex_after_blank _ c Hc) in E.
    destruct (isJsonSpace c); [|discriminate]. inversion E; subst.
    simpl in End'. inversion End'; subst. reflexivity.
  - rewrite (blank_digit c Hc) in E. discriminate.
  - rewrite (blank_digit c Hc), (blank_expMark c Hc), (lex_after_blank _ c Hc) in E.
    destruct (isJsonSpace c); [|discriminate]. inversion E; subst.
    simpl in End'. inversion End'; subst. reflexivity.
  - rewrite (blank_neqb c 43 Hc eq_refl), (blank_neqb c 45 Hc eq_refl),
      (blank_digit c Hc) in E. discriminate.
  - rewrite (blank_digit c Hc) in E. discriminate.
  - rewrite (blank_digit c Hc), (lex_after_blank _ c Hc) in E.
    destruct (isJsonSpace c); [|discriminate]. inversion E; subst.
    simpl in End'. inversion End'; subst. reflexivity.
Qed.

Lemma lex_app_blank s : forall st ts w,
  steady st -> blank w -> lex st (s ++ w) = Some ts -> lex st s = Some ts.
Proof.
  induction s as [|c s IH]; intros st ts w Hs Hw H.
  - now apply (lex_blank_end w).
  - simpl in *.
    destruct (lex_step st c) as [[em st']|] eqn:E; [|discriminate].
    destruct (lex st' (s ++ w)) as [r|] eqn:R; [|discriminate].
    rewrite (IH st' r w (steady_lex_step st c em st' Hs E) Hw R). exact H.
Qed.

Lemma lex_blank_app w : forall s ts,
  blank w -> lex LStart (w ++ s) = Some ts -> lex LStart s = Some ts.
Proof.
  induction w as [|c w IH]; intros s ts Hw H; [exact H|].
  inversion Hw as [|? ? Hc Hw']; subst.
  simpl in H. rewrite (lex_start_blank c Hc) in H.
  destruct (isJsonSpace c); [|discriminate].
  destruct (lex LStart (w ++ s)) as [r|] eqn:R; [|discriminate].
  inversion H; subst. now apply IH.
Qed.

(** A text that parses parses to the same value once trimmed. *)
Theorem parse_trim t v : parse t = Some v -> parse (trim t) = Some v.
Proof.
  unfold parse. intros H.
  destruct (lex LStart t) as [ts|] eqn:L; [|discriminate].
  destruct (trimEnd_split t) as [w2 [H2 E2]].
  destruct (trimStart_split (trimEnd t)) as [w1 [H1 E1]].
  fold (trim t) in E1.
  rewrite E2 in L. apply (lex_app_blank (trimEnd t) LStart ts w2 I H2) in L.
  rewrite E1 in L. apply (lex_blank_app w1 (trim t) ts H1) in L.
  now rewrite L.
Qed.

End ParseFacts.

(* ================================================================== *)
(** * The call to the model *)
(* ================================================================== *)

Module CallFacts.

Import Vocabulary StringFacts ParseFacts Client.

Local Open Scope N_scope.

Lemma blank_no_tick w : blank w -> Forall (fun c => c <> BACKTICK) w.
Proof.
  unfold blank. apply Forall_impl. intros c H ->. discriminate.
Qed.

Lemma blank_no_unit x w : isWhiteSpace x = false -> blank w -> ~ In x w.
Proof.
  unfold blank. rewrite Forall_forall. intros Hx H Hin.
  apply H in Hin. congruence.
Qed.

Lemma no_n_in_fence_blank w : blank w -> ~ In 110 (fence ++ w).
Proof.
  intros H Hin. apply in_app_or in Hin as [Hin|Hin].
  - simpl in Hin. unfold BACKTICK in Hin. intuition discriminate.
  - now apply (blank_no_unit 110 w eq_refl H).
Qed.

Lemma replace_json_fenced w0 w1 t w2 w3 :
  blank w0 -> blank w1 -> blank w2 -> blank w3 ->
  replaceAll (str "```json") [] (fenced w0 w1 t w2 w3)
  = w0 ++ w1 ++ replaceAll (str "```json") [] t ++ w2 ++ fence ++ w3.
Proof.
  intros H0 H1 H2 H3. unfold fenced. rewrite fence_eq.
  set (pat := str "```json").
  assert (Hpat : pat = BACKTICK :: str "``json") by reflexivity.
  rewrite Hpat at 1. rewrite replaceAll_app_prefix by now apply blank_no_tick.
  rewrite <- Hpat. rewrite replaceAll_drop_match by discriminate.
  rewrite app_nil_l.
  rewrite Hpat at 1. rewrite replaceAll_app_prefix by now apply blank_no_tick.
  rewrite <- Hpat. f_equal. f_equal.
  subst pat. rewrite fence_json_eq.
  rewrite (app_assoc t w2 (fence ++ w3)).
  rewrite (replaceAll_app_suffix _ 110 [] (fence ++ w3) (no_n_in_fence_blank w3 H3)).
  rewrite (replaceAll_app_suffix _ 110 [] w2 (blank_no_unit 110 w2 eq_refl H2)).
  now rewrite <- app_assoc.
Qed.

Lemma replace_fence_fenced w0 w1 s w2 w3 :
  blank w0 -> blank w1 -> blank w2 -> blank w3 ->
  replaceAll (str "```") [] (w0 ++ w1 ++ s ++ w2 ++ fence ++ w3)
  = w0 ++ w1 ++ replaceAll (str "```") [] s ++ w2 ++ w3.
Proof.
  intros H0 H1 H2 H3. rewrite fence_eq.
  unfold fence at 1 3.
  rewrite replaceAll_app_prefix by now apply blank_no_tick.
  rewrite replaceAll_app_prefix by now apply blank_no_tick.
  f_equal. f_equal.
  change [BACKTICK; BACKTICK; BACKTICK] with ([BACKTICK; BACKTICK] ++ [BACKTICK]).
  rewrite (app_assoc s w2 (fence ++ w3)), (app_assoc (s ++ w2) fence w3).
  rewrite (replaceAll_app_suffix _ BACKTICK [] w3 (blank_no_unit BACKTICK w3 eq_refl H3)).
  change ([BACKTICK; BACKTICK] ++ [BACKTICK]) with fence.
  rewrite replaceAll_fence_app.
  change fence with ([BACKTICK; BACKTICK] ++ [BACKTICK]).
  rewrite (replaceAll_app_suffix _ BACKTICK [] w2 (blank_no_unit BACKTICK w2 eq_refl H2)).
  now rewrite <- app_assoc.
Qed.

(** The fences around a text and the blanks around them leave no trace in
    the cleaned text. *)
Lemma cleanResponse_fenced w0 w1 t w2 w3 :
  blank w0 -> blank w1 -> blank w2 -> blank w3 ->
  cleanResponse (fenced w0 w1 t w2 w3) = cleanResponse t.
Proof.
  intros H0 H1 H2 H3. unfold cleanResponse.
  rewrite replace_json_fenced, replace_fence_fenced by assumption.
  rewrite trim_blank_app_l, trim_blank_app_l by assumption.
  rewrite app_assoc, trim_app_blank_r by assumption.
  now rewrite trim_app_blank_r.
Qed.

Section Call.

Context {rt : Runtime}.

(** With a candidate text in the reply, the call comes down to cleaning
    and parsing that text. *)
Lemma callGeminiAPI_resume_candidate o s w :
  candidate o s ->
  callGeminiAPI_resume o w
  = tryCatch (JSON_parse (cleanResponse s))
      (fun _ =>
         console_error [LText (str "Failed to parse JSON from AI response:");
                        LText (cleanResponse s)] ;;; invalidResponse)
      (record EvBodyJson w).
Proof.
  intros (r & v & -> & Hok & Hp & Hc).
  unfold callGeminiAPI_resume, fetched, bind, ret at 1. rewrite Hok. simpl negb.
  cbv beta iota. unfold Response_json, bind, emit. rewrite Hp.
  unfold ret at 1, lift. rewrite Hc. simpl stringReceiver. cbv beta iota.
  reflexivity.
Qed.

(** With a candidate text [s] in the reply, the call sends its request,
    reads the body of the response, hands the cleaned text to
    [JSON.parse] and returns the value it gives; when it gives none, the
    call logs the cleaned text and throws the fixed error. *)
Lemma callGeminiAPI_candidate code net world s :
  candidate (net (request code)) s ->
  callGeminiAPI code net world
  = let w := record (EvJSONparse (cleanResponse s))
               (record EvBodyJson (record (EvFetch (request code)) world)) in
    match parse (cleanResponse s) with
    | Some v => (w, Ok v)
    | None =>
        (record (EvConsoleError
                   [LText (str "Failed to parse JSON from AI response:");
                    LText (cleanResponse s)]) w,
         Throw (Error invalidMessage))
    end.
Proof.
  intros Hc. unfold callGeminiAPI, bind, emit.
  rewrite (callGeminiAPI_resume_candidate _ _ _ Hc).
  unfold tryCatch, JSON_parse, bind, emit.
  destruct (parse (cleanResponse s)); reflexivity.
Qed.

Lemma replaceAll_tickFree p s :
  tickFree s -> replaceAll (BACKTICK :: p) [] s = s.
Proof.
  intros H. rewrite <- (app_nil_r s) at 1.
  rewrite replaceAll_app_prefix by exact H. now rewrite app_nil_r.
Qed.

Lemma cleanResponse_tickFree t : tickFree t -> cleanResponse t = trim t.
Proof.
  intros H. unfold cleanResponse.
  change (str "```json") with (BACKTICK :: str "``json").
  change (str "```") with (BACKTICK :: str "``").
  now rewrite !(replaceAll_tickFree _ t H).
Qed.

(** C1.  A candidate text wrapped in a [json] fence and a closing fence,
    with blanks around the fences and around the text, gives
    [callGeminiAPI] the same outcome, result and record of effects, as the
    bare text.  The call returns the value the cleaned text parses to,
    after the request, the read of the body and [JSON.parse] of the
    cleaned text and nothing else; for a JSON text without backticks that
    value is the value of the text, and the cleaned text is the text,
    trimmed.  The fenced text of the specification parses to
    [{review: "ok", updatedCode: "", score: 90}]. *)
Theorem C1_fenced_candidate_as_bare :
  (forall code net net' w0 w1 t w2 w3 world,
     blank w0 -> blank w1 -> blank w2 -> blank w3 ->
     candidate (net (request code)) (fenced w0 w1 t w2 w3) ->
     candidate (net' (request code)) t ->
     callGeminiAPI code net world = callGeminiAPI code net' world)
  /\ (forall code net w0 w1 t w2 w3 v world,
       blank w0 -> blank w1 -> blank w2 -> blank w3 ->
       candidate (net (request code)) (fenced w0 w1 t w2 w3) ->
       parse (cleanResponse t) = Some v ->
       callGeminiAPI code net world
       = (record (EvJSONparse (cleanResponse t))
            (record EvBodyJson (record (EvFetch (request code)) world)),
          Ok v))
  /\ (forall t v,
       tickFree t -> parse t = Some v ->
       cleanResponse t = trim t /\ parse (cleanResponse t) = Some v)
  /\ (forall code net world,
       candidate (net (request code))
         (str "```json" ++ [LF] ++ okReview ++ [LF] ++ str "```") ->
       snd (callGeminiAPI code net world) = Ok okResult).
Proof.
  split; [|split; [|split]].
  - intros code net net' w0 w1 t w2 w3 world H0 H1 H2 H3 Hf Hb.
    rewrite (callGeminiAPI_candidate _ _ _ _ Hf).
    rewrite (callGeminiAPI_candidate _ _ _ _ Hb).
    now rewrite cleanResponse_fenced.
  - intros code net w0 w1 t w2 w3 v world H0 H1 H2 H3 Hf Hp.
    rewrite (callGeminiAPI_candidate _ _ _ _ Hf).
    rewrite cleanResponse_fenced by assumption. cbv zeta.
    now rewrite Hp.
  - intros t v Ht Hp. rewrite (cleanResponse_tickFree t Ht).
    split; [reflexivity | exact (parse_trim t v Hp)].
  - intros code net world Hc.
    rewrite (callGeminiAPI_candidate _ _ _ _ Hc).
    assert (E : cleanResponse (str "```json" ++ [LF] ++ okReview ++ [LF] ++ str "```")
                = okReview) by (vm_compute; reflexivity).
    rewrite E. cbv zeta.
    assert (P : parse okReview = Some okResult) by (vm_compute; reflexivity).
    rewrite P. reflexivity.
Qed.

(** X4.  A JSON text without backticks, bare or fenced, comes back as the
    value [JSON.parse] gives it. *)
Theorem json_candidate_returns_its_value code net world t v :
  tickFree t -> parse t = Some v ->
  (candidate (net (request code)) t ->
   snd (callGeminiAPI code net world) = Ok v)
  /\ (forall w0 w1 w2 w3,
       blank w0 -> blank w1 -> blank w2 -> blank w3 ->
       candidate (net (request code)) (fenced w0 w1 t w2 w3) ->
       snd (callGeminiAPI code net world) = Ok v).
Proof.
  intros Ht Hp.
  assert (bare : forall s, cleanResponse s = trim t ->
            candidate (net (request code)) s ->
            snd (callGeminiAPI code net world) = Ok v).
  { intros s Hs Hc. unfold callGeminiAPI, bind, emit.
    rewrite (callGeminiAPI_resume_candidate _ _ _ Hc), Hs.
    unfold tryCatch, JSON_parse, bind, emit.
    now rewrite (parse_trim t v Hp). }
  split.
  - apply bare. now apply cleanResponse_tickFree.
  - intros w0 w1 w2 w3 H0 H1 H2 H3. apply bare.
    rewrite cleanResponse_fenced by assumption.
    now apply cleanResponse_tickFree.
Qed.

(** C6.  A response whose status is outside 200..299 makes
    [callGeminiAPI] throw [Error("API Error: <status> <reason>")]; the
    record of effects grows by the [fetch] alone, so neither
    [response.json()] nor [JSON.parse] was called.  For status 429 the
    message holds the text [429]. *)
Theorem C6_failure_status_throws_before_parsing :
  (forall code net r world,
     net (request code) = Responded r ->
     status r < 200 \/ 299 < status r ->
     callGeminiAPI code net world
     = (record (EvFetch (request code)) world,
        Throw (Error (str "API Error: " ++ decimal (status r)
                        ++ str " " ++ statusText r))))
  /\ (forall code net r world,
       net (request code) = Responded r ->
       status r = 429 ->
       exists message,
         snd (callGeminiAPI code net world) = Throw (Error message)
         /\ includes (str "429") message = true
         /\ filter isParse (log (fst (callGeminiAPI code net world)))
            = filter isParse (log world)).
Proof.
  assert (main : forall code net r world,
     net (request code) = Responded r -> ok r = false ->
     callGeminiAPI code net world
     = (record (EvFetch (request code)) world,
        Throw (Error (str "API Error: " ++ decimal (status r)
                        ++ str " " ++ statusText r)))).
  { intros code net r world Hnet Hok.
    unfold callGeminiAPI, bind, emit. rewrite Hnet.
    unfold callGeminiAPI_resume, fetched, bind, ret. rewrite Hok. reflexivity. }
  split.
  - intros code net r world Hnet Hst. apply main; [exact Hnet|].
    unfold ok. destruct Hst as [H|H].
    + apply N.leb_gt in H. now rewrite H.
    + apply N.leb_gt in H. now rewrite H, andb_false_r.
  - intros code net r world Hnet Hst.
    rewrite (main code net r world Hnet) by (unfold ok; now rewrite Hst).
    eexists. split; [reflexivity|]. rewrite Hst. split; [reflexivity|].
    unfold record, World_recording. simpl. rewrite filter_app. simpl.
    now rewrite app_nil_r.
Qed.

Lemma firstCandidate_fault v e :
  firstCandidate v = Throw e ->
  exists base prop, e = Fault (ReadOfNullish base prop).
Proof.
  unfold firstCandidate. destruct v as [| | | | |ms]; simpl;
    try (intros H; inversion H; eauto; fail).
  destruct (lookup (str "candidates") ms) as [[| | | | |]|]; simpl;
    intros H; inversion H; eauto.
Qed.

(** C8, as the source has it.  A success response whose reply holds no
    first candidate makes the call throw the engine's [TypeError] for a
    read on [undefined] or [null], raised by the unguarded chain of reads
    right after [response.json()]: there is no failure kept for the empty
    reply. *)
Theorem C8_no_candidate_throws_engine_fault :
  forall o r v world,
    o = Responded r -> ok r = true -> parse (text r) = Some v ->
    noCandidate v ->
    exists base prop,
      callGeminiAPI_resume o world
      = (record EvBodyJson world, Throw (Fault (ReadOfNullish base prop))).
Proof.
  intros o r v world -> Hok Hp Hno.
  unfold callGeminiAPI_resume, fetched, bind, ret at 1. rewrite Hok.
  simpl negb. cbv beta iota. unfold Response_json, bind, emit. rewrite Hp.
  unfold ret at 1, lift.
  change (candidateText v) with
    (then_ (then_ (then_ (then_ (firstCandidate v)
       (fun v => getProp v (str "content")))
       (fun v => getProp v (str "parts")))
       (fun v => getIndex v 0))
       (fun v => getProp v (str "text"))).
  destruct (firstCandidate v) as [[c|]|e] eqn:E.
  - exfalso. exact (Hno c E).
  - exists Undefined, (str "content"). reflexivity.
  - destruct (firstCandidate_fault v e E) as (base & prop & ->).
    exists base, prop. reflexivity.
Qed.

(** A fence in the middle of a text goes like one at its ends. *)
Lemma cleanResponse_inner a b :
  tickFree a -> tickFree b ->
  cleanResponse (a ++ str "```json" ++ b) = trim (a ++ b)
  /\ (startsWith (str "json") b = false ->
      cleanResponse (a ++ str "```" ++ b) = trim (a ++ b)).
Proof.
  intros Ha Hb. unfold cleanResponse. split.
  - change (str "```json") with (BACKTICK :: str "``json").
    rewrite replaceAll_app_prefix by exact Ha.
    rewrite replaceAll_drop_match by discriminate.
    rewrite app_nil_l, (replaceAll_tickFree _ b Hb).
    change (str "```") with (BACKTICK :: str "``").
    rewrite replaceAll_app_prefix by exact Ha.
    now rewrite (replaceAll_tickFree _ b Hb).
  - intros Hj.
    assert (E : replaceAll (str "```json") [] (str "```" ++ b) = str "```" ++ b).
    { set (J := str "```json").
      assert (N1 : startsWith J (BACKTICK :: BACKTICK :: BACKTICK :: b) = false)
        by exact Hj.
      assert (N2 : startsWith J (BACKTICK :: BACKTICK :: b) = false).
      { destruct Hb as [|c b Hc _]; [reflexivity|].
        change (startsWith J (BACKTICK :: BACKTICK :: c :: b))
          with ((BACKTICK =? BACKTICK) && ((BACKTICK =? BACKTICK)
                && ((BACKTICK =? c) && startsWith (str "json") b))).
        now rewrite (tick_neqb c Hc), !andb_false_r. }
      assert (N3 : startsWith J (BACKTICK :: b) = false).
      { destruct Hb as [|c b Hc _]; [reflexivity|].
        change (startsWith J (BACKTICK :: c :: b))
          with ((BACKTICK =? BACKTICK) && ((BACKTICK =? c)
                && startsWith (str "`json") b)).
        now rewrite (tick_neqb c Hc), !andb_false_r. }
      change (str "```" ++ b) with (BACKTICK :: BACKTICK :: BACKTICK :: b).
      rewrite (replaceAll_nomatch J [] _ _ N1).
      rewrite (replaceAll_nomatch J [] _ _ N2).
      rewrite (replaceAll_nomatch J [] _ _ N3).
      subst J. change (str "```json") with (BACKTICK :: str "``json").
      now rewrite (replaceAll_tickFree _ b Hb). }
    change (str "```json") with (BACKTICK :: str "``json") at 1.
    rewrite replaceAll_app_prefix by exact Ha.
    change (BACKTICK :: str "``json") with (str "```json").
    rewrite E.
    change (str "```") with (BACKTICK :: str "``") at 1.
    rewrite replaceAll_app_prefix by exact Ha.
    change (BACKTICK :: str "``") with (str "```").
    rewrite replaceAll_drop_match by discriminate.
    rewrite app_nil_l.
    change (str "```") with (BACKTICK :: str "``").
    now rewrite (replaceAll_tickFree _ b Hb).
Qed.

(** C9.  The text [callGeminiAPI] hands to [JSON.parse] is the cleaned
    candidate text, whatever the candidate text, and the call returns what
    [JSON.parse] makes of it.  No fence, [json] or bare, is left in a
    cleaned text, wherever it stood: a fence between two texts without
    backticks goes, and the two texts stay.  So for a valid JSON text whose
    field [review] is a fence, the call returns an object that differs
    from what parsing that text gives. *)
Theorem C9_fences_removed_everywhere :
  (forall code net world s,
     candidate (net (request code)) s ->
     callGeminiAPI code net world
     = let w := record (EvJSONparse (cleanResponse s))
                  (record EvBodyJson (record (EvFetch (request code)) world)) in
       match parse (cleanResponse s) with
       | Some v => (w, Ok v)
       | None =>
           (record (EvConsoleError
                      [LText (str "Failed to parse JSON from AI response:");
                       LText (cleanResponse s)]) w,
            Throw (Error invalidMessage))
       end)
  /\ (forall s, includes (str "```") (cleanResponse s) = false
                /\ includes (str "```json") (cleanResponse s) = false)
  /\ (forall a b,
       tickFree a -> tickFree b ->
       cleanResponse (a ++ str "```json" ++ b) = trim (a ++ b)
       /\ (startsWith (str "json") b = false ->
           cleanResponse (a ++ str "```" ++ b) = trim (a ++ b)))
  /\ cleanResponse (str "a```json b```c") = str "a bc"
  /\ parse fencedField = Some fencedFieldValue
  /\ (forall code net world,
       candidate (net (request code)) fencedField ->
       snd (callGeminiAPI code net world) = Ok fencedFieldResult)
  /\ fencedFieldResult <> fencedFieldValue.
Proof.
  assert (free : forall s, includes fence (cleanResponse s) = false).
  { intros s. unfold cleanResponse. apply includes_trim; [discriminate|].
    rewrite fence_eq. apply replaceAll_fence_free. }
  split; [|split; [|split; [|split; [|split; [|split]]]]].
  - exact callGeminiAPI_candidate.
  - intros s. split.
    + rewrite fence_eq. apply free.
    + change (str "```json") with (fence ++ str "json").
      apply includes_prefix; [discriminate | apply free].
  - exact cleanResponse_inner.
  - vm_compute. reflexivity.
  - vm_compute. reflexivity.
  - intros code net world Hc.
    rewrite (callGeminiAPI_candidate _ _ _ _ Hc).
    assert (E : cleanResponse fencedField
                = str "{" ++ q "review" ++ str ":" ++ [QUOTE; QUOTE] ++ str ","
                  ++ q "updatedCode" ++ str ":" ++ [QUOTE; QUOTE] ++ str ","
                  ++ q "score" ++ str ":1}") by (vm_compute; reflexivity).
    rewrite E. cbv zeta.
    match goal with
    | |- context [parse ?t] =>
        assert (P : parse t = Some fencedFieldResult) by (vm_compute; reflexivity);
        rewrite P
    end.
    reflexivity.
  - discriminate.
Qed.

End Call.

Lemma candidate_candidateReply s req :
  parse (Engine.stringify (envelope s)) = Some (envelope s) ->
  candidate (answering (candidateReply s) req) s.
Proof.
  intros H. exists (candidateReply s), (envelope s).
  split; [reflexivity|]. split; [reflexivity|]. split; [exact H | reflexivity].
Defined.

Lemma C1_witness :
  callGeminiAPI (rt := Engine.sample) (str "x = 1")
    (answering (candidateReply (fenced [] [LF] okReview [LF; 32] [LF]))) freshWorld
  = callGeminiAPI (rt := Engine.sample) (str "x = 1")
      (answering (candidateReply okReview)) freshWorld
  /\ callGeminiAPI (rt := Engine.sample) (str "x = 1")
       (answering (candidateReply (fenced [] [LF] okReview [LF; 32] [LF])))
       freshWorld
     = (record (EvJSONparse (cleanResponse okReview))
          (record EvBodyJson
             (record (EvFetch (request (rt := Engine.sample) (str "x = 1")))
                freshWorld)),
        Ok okResult)
  /\ (cleanResponse okReview = trim okReview
      /\ parse (cleanResponse okReview) = Some okResult)
  /\ snd (callGeminiAPI (rt := Engine.sample) (str "x = 1")
            (answering (candidateReply
               (str "```json" ++ [LF] ++ okReview ++ [LF] ++ str "```")))
            freshWorld)
     = Ok okResult.
Proof.
  destruct (C1_fenced_candidate_as_bare (rt := Engine.sample))
    as (same & parsed & plain & example).
  split; [|split; [|split]].
  - apply (same (str "x = 1") _ _ [] [LF] okReview [LF; 32] [LF] freshWorld);
      [ constructor | repeat constructor | repeat constructor
      | repeat constructor
      | apply candidate_candidateReply; vm_compute; reflexivity
      | apply candidate_candidateReply; vm_compute; reflexivity ].
  - apply (parsed (str "x = 1") _ [] [LF] okReview [LF; 32] [LF]);
      [ constructor | repeat constructor | repeat constructor
      | repeat constructor
      | apply candidate_candidateReply; vm_compute; reflexivity
      | vm_compute; reflexivity ].
  - apply plain.
    + unfold tickFree, okReview. vm_compute.
      repeat (constructor; [discriminate|]). constructor.
    + vm_compute. reflexivity.
  - apply example. apply candidate_candidateReply. vm_compute. reflexivity.
Defined.

Lemma C6_witness :
  callGeminiAPI (rt := Engine.sample) (str "x = 1")
    (answering (reply 429 (str "Too Many Requests") (str "slow down"))) freshWorld
  = (record (EvFetch (request (rt := Engine.sample) (str "x = 1"))) freshWorld,
     Throw (Error (str "API Error: 429 Too Many Requests")))
  /\ exists message,
       snd (callGeminiAPI (rt := Engine.sample) (str "x = 1")
              (answering (reply 429 (str "Too Many Requests") (str "slow down")))
              freshWorld)
       = Throw (Error message)
       /\ includes (str "429") message = true
       /\ filter isParse
            (log (fst (callGeminiAPI (rt := Engine.sample) (str "x = 1")
                         (answering (reply 429 (str "Too Many Requests")
                                       (str "slow down")))
                         freshWorld)))
          = filter isParse (log freshWorld).
Proof.
  split.
  - apply (proj1 (C6_failure_status_throws_before_parsing (rt := Engine.sample))
             (str "x = 1") _ (reply 429 (str "Too Many Requests") (str "slow down"))).
    + reflexivity.
    + right. reflexivity.
  - apply (proj2 (C6_failure_status_throws_before_parsing (rt := Engine.sample))
             (str "x = 1") _ (reply 429 (str "Too Many Requests") (str "slow down"))).
    + reflexivity.
    + reflexivity.
Defined.

(** C8, as stated, fails: the reply [{}] is a success response without a
    candidate, and the call throws the engine's [TypeError] for reading [0]
    of [undefined]; a reply whose candidate lacks its parts makes it throw
    the same, so this is no failure kept for the empty reply. *)
Lemma C8_counterexample :
  parse (text emptyReply) = Some (JObject [])
  /\ noCandidate (JObject [])
  /\ snd (callGeminiAPI_resume (Responded emptyReply) freshWorld)
     = Throw (Fault (ReadOfNullish Undefined (str "0")))
  /\ snd (callGeminiAPI_resume (Responded partlessReply) freshWorld)
     = Throw (Fault (ReadOfNullish Undefined (str "0")))
  /\ ~ distinctFailure (Fault (ReadOfNullish Undefined (str "0"))).
Proof.
  split; [reflexivity|].
  split; [intros c Hc; vm_compute in Hc; discriminate|].
  split; [reflexivity|]. split; [reflexivity|].
  intros Hd.
  apply (Hd partlessReply
            (JObject [(str "candidates",
               JArray [JObject [(str "content", JObject [])]])])
            freshWorld eq_refl eq_refl).
  - intros Hn. apply (Hn (JObject [(str "content", JObject [])])).
    reflexivity.
  - reflexivity.
Qed.

Lemma C8_witness :
  exists base prop,
    callGeminiAPI_resume
      (Responded (reply 200 (str "OK")
                    (str "{" ++ q "candidates" ++ str ":[]}")))
      freshWorld
    = (record EvBodyJson freshWorld, Throw (Fault (ReadOfNullish base prop))).
Proof.
  apply (C8_no_candidate_throws_engine_fault _
           (reply 200 (str "OK") (str "{" ++ q "candidates" ++ str ":[]}"))
           (JObject [(str "candidates", JArray [])])).
  - reflexivity.
  - reflexivity.
  - vm_compute. reflexivity.
  - intros c Hc. vm_compute in Hc. discriminate.
Defined.

Lemma C9_witness :
  callGeminiAPI (rt := Engine.sample) (str "x = 1")
    (answering (candidateReply fencedField)) freshWorld
  = (record (EvJSONparse (cleanResponse fencedField))
       (record EvBodyJson
          (record (EvFetch (request (rt := Engine.sample) (str "x = 1")))
             freshWorld)),
     Ok fencedFieldResult)
  /\ (cleanResponse (str "see " ++ str "```json" ++ str " here") = str "see  here"
      /\ (startsWith (str "json") (str " here") = false ->
          cleanResponse (str "see " ++ str "```" ++ str " here") = str "see  here"))
  /\ snd (callGeminiAPI (rt := Engine.sample) (str "x = 1")
            (answering (candidateReply fencedField)) freshWorld)
     = Ok fencedFieldResult.
Proof.
  destruct (C9_fences_removed_everywhere (rt := Engine.sample))
    as (handed & _ & inner & _ & _ & returned & _).
  split; [|split].
  - rewrite (handed (str "x = 1") (answering (candidateReply fencedField))
               freshWorld fencedField)
      by (apply candidate_candidateReply; vm_compute; reflexivity).
    vm_compute. reflexivity.
  - apply (inner (str "see ") (str " here")).
    + repeat constructor; discriminate.
    + repeat constructor; discriminate.
  - apply returned. apply candidate_candidateReply. vm_compute. reflexivity.
Defined.

End CallFacts.

(* ================================================================== *)
(** * The review as a list *)
(* ================================================================== *)

Module ListFacts.

Import Vocabulary StringFacts Client.

Local Open Scope N_scope.

Lemma fold_items (f : jsstring -> jsstring) ls acc :
  fold_left (fun html line => html ++ li_open ++ f line ++ li_close) ls acc
  = acc ++ flat_map (fun line => listItem (f line)) ls.
Proof.
  revert acc; induction ls as [|l ls IH]; intros acc; simpl.
  - now rewrite app_nil_r.
  - rewrite IH. unfold listItem. now rewrite <- app_assoc.
Qed.

(** The markup is one list item per line that is not blank, in order,
    each holding the [trimmedLine] of its line. *)
Lemma formatReviewAsHtml_items s :
  formatReviewAsHtml (Some (JString s))
  = Ok (unorderedList (map trimmedLine (reviewLines s))).
Proof.
  unfold formatReviewAsHtml, unorderedList. simpl stringReceiver. cbv beta iota.
  rewrite fold_items, <- app_assoc. do 3 f_equal.
  induction (reviewLines s) as [|l ls IH]; [reflexivity|].
  simpl. now rewrite IH.
Qed.

Lemma indexOf_from_spec line i :
  (0 <= i)%Z ->
  match afterAsterisk line with
  | Some rest =>
      (i <= indexOf_from ASTERISK line i)%Z
      /\ skipn (Z.to_nat (indexOf_from ASTERISK line i + 1 - i)) line = rest
  | None => indexOf_from ASTERISK line i = (-1)%Z
  end.
Proof.
  revert i; induction line as [|c line IH]; intros i Hi; simpl; [reflexivity|].
  destruct (c =? ASTERISK).
  - split; [lia|]. replace (i + 1 - i)%Z with 1%Z by lia. reflexivity.
  - specialize (IH (i + 1)%Z ltac:(lia)).
    destruct (afterAsterisk line) as [rest|]; [|exact IH].
    destruct IH as [Hle Hskip]. split; [lia|].
    replace (Z.to_nat (indexOf_from ASTERISK line (i + 1) + 1 - i))
      with (S (Z.to_nat (indexOf_from ASTERISK line (i + 1) + 1 - (i + 1))))
      by lia.
    exact Hskip.
Qed.

Lemma trim_unindented line : trimStart line = line -> trim line = trimEnd line.
Proof.
  intros H. unfold trim. now rewrite trim_comm, H.
Qed.

(** On a line that does not begin with a blank, the script's item is the
    specification's. *)
Lemma trimmedLine_unindented line :
  trimStart line = line -> trimmedLine line = itemOf line.
Proof.
  intros H. unfold trimmedLine, itemOf, substring, indexOf.
  rewrite (trim_unindented line H), trim_skipn_trimEnd.
  pose proof (indexOf_from_spec line 0 ltac:(lia)) as S.
  destruct (afterAsterisk line) as [rest|].
  - destruct S as [Hle Hskip]. rewrite Z.sub_0_r in Hskip.
    rewrite Z.max_r by lia. now rewrite Hskip.
  - rewrite S. simpl skipn. now apply trim_unindented.
Qed.

(** X6.  Lines, none of which begins with a blank, give the list of the
    specification: one item per line that is not blank. *)
Theorem formatReviewAsHtml_unindented s :
  Forall (fun line => trimStart line = line) (split LF s) ->
  formatReviewAsHtml (Some (JString s))
  = Ok (unorderedList (map itemOf (reviewLines s))).
Proof.
  intros H. rewrite formatReviewAsHtml_items. do 2 f_equal.
  apply map_ext_in. intros l Hl. apply trimmedLine_unindented.
  unfold reviewLines in Hl. apply filter_In in Hl as [Hl _].
  rewrite Forall_forall in H. now apply H.
Qed.

(** The two examples of the specification. *)
Theorem formatReviewAsHtml_examples :
  formatReviewAsHtml (Some (JString (str "* a" ++ [LF] ++ str "* b")))
  = Ok (unorderedList [str "a"; str "b"])
  /\ formatReviewAsHtml (Some (JString [])) = Ok (unorderedList []).
Proof. split; reflexivity. Qed.

(** C2, where the source departs from it.  The line ["  * Point"] begins
    with two blanks: its item by the specification is ["Point"], and the
    script emits ["oint"], because it takes the index of the asterisk in
    the line as typed and cuts the trimmed line there. *)
Theorem C2_indented_line_is_cut_short :
  itemOf (str "  * Point") = str "Point"
  /\ formatReviewAsHtml (Some (JString (str "  * Point")))
     = Ok (unorderedList [str "oint"])
  /\ str "oint" <> itemOf (str "  * Point").
Proof.
  split; [reflexivity|]. split; [reflexivity|]. discriminate.
Qed.

End ListFacts.

(* ================================================================== *)
(** * The animated score *)
(* ================================================================== *)

Module ScoreFacts.

Import Vocabulary Client CallFacts.

Section Score.

Context {rt : Runtime}.

Lemma findTimer_last id ts t :
  Forall (fun x => timerId x <> id) ts -> timerId t = id ->
  findTimer id (ts ++ [t]) = Some t.
Proof.
  intros H Ht. induction H as [|x ts Hx _ IH]; simpl.
  - now rewrite Ht, Nat.eqb_refl.
  - apply Nat.eqb_neq in Hx. now rewrite Hx.
Qed.

Lemma clearTimer_last id ts t :
  Forall (fun x => timerId x <> id) ts -> timerId t = id ->
  clearTimer id (ts ++ [t]) = ts.
Proof.
  intros H Ht. unfold clearTimer. induction H as [|x ts Hx _ IH]; simpl.
  - now rewrite Ht, Nat.eqb_refl.
  - apply Nat.eqb_neq in Hx. rewrite Hx. simpl. now rewrite IH.
Qed.

Lemma rearm_last id d k ts t :
  Forall (fun x => timerId x <> id) ts -> timerId t = id ->
  rearm id d k (ts ++ [t]) = ts ++ [{| timerId := id; due := d; task := k |}].
Proof.
  intros H Ht. unfold rearm. induction H as [|x ts Hx _ IH]; simpl.
  - now rewrite Ht, Nat.eqb_refl.
  - apply Nat.eqb_neq in Hx. rewrite Hx. now rewrite IH.
Qed.

Lemma findTimer_absent id ts :
  Forall (fun x => timerId x <> id) ts -> findTimer id ts = None.
Proof.
  induction 1 as [|x ts Hx _ IH]; simpl; [reflexivity|].
  apply Nat.eqb_neq in Hx. now rewrite Hx.
Qed.

(** An integer below [2 ^ 53] is a Number as it stands: its bits, moved
    up to fill the 53. *)
Lemma numberOf_integer n :
  (0 < n < 2 ^ 53)%Z ->
  exists s, (0 <= s)%Z /\ numberOf n 0 = Finite (n * 2 ^ s) (- s).
Proof.
  intros [Hpos Hlt].
  pose proof (Z.log2_spec n Hpos) as [Hlo _].
  pose proof (Z.log2_nonneg n) as Hl0.
  assert (Hl : (Z.log2 n < 53)%Z) by (apply Z.log2_lt_pow2; assumption).
  set (l := Z.log2 n) in *.
  exists (52 - l)%Z. split; [lia|].
  assert (Hs : (0 < 2 ^ (52 - l) <= 2 ^ 52)%Z).
  { split; [apply Z.pow_pos_nonneg; lia | apply Z.pow_le_mono_r; lia]. }
  unfold numberOf.
  change (Z.max 0 0) with 0%Z. change (Z.max 0 (- 0)) with 0%Z.
  change (10 ^ 0)%Z with 1%Z.
  rewrite Z.abs_eq, Z.mul_1_r by lia.
  replace (n =? 0)%Z with false by (symmetry; apply Z.eqb_neq; lia).
  assert (B : binade n 1 = l).
  { unfold binade. change (Z.log2 1) with 0%Z. rewrite Z.sub_0_r. fold l.
    rewrite (Z.max_r 0 l), (Z.max_l 0 (- l)) by lia.
    change (2 ^ 0)%Z with 1%Z. rewrite Z.mul_1_l, Z.mul_1_r.
    replace (2 ^ l <=? n)%Z with true by (symmetry; apply Z.leb_le; exact Hlo).
    reflexivity. }
  rewrite B. cbv zeta.
  rewrite (Z.max_l (l - 52) (-1074)) by lia.
  rewrite (Z.max_r 0 (- (l - 52))), (Z.max_l 0 (l - 52)) by lia.
  replace (- (l - 52))%Z with (52 - l)%Z by lia.
  change (2 ^ 0)%Z with 1%Z. rewrite !Z.mul_1_r.
  assert (N : nearestEven (n * 2 ^ (52 - l)) 1 = (n * 2 ^ (52 - l))%Z).
  { unfold nearestEven. rewrite Z.mod_1_r, Z.div_1_r. reflexivity. }
  rewrite N.
  assert (Hbig : (2 ^ 53 * 2 ^ 52 < 2 ^ 1024)%Z) by reflexivity.
  replace (2 ^ 1024 <=? n * 2 ^ (52 - l))%Z with false
    by (symmetry; apply Z.leb_gt; nia).
  rewrite Z.sgn_pos, Z.mul_1_l by lia.
  f_equal. lia.
Qed.

(** Against an integer score below [2 ^ 53], the comparison is that of
    the integers. *)
Lemma decimalGE_integer k n :
  (0 <= n < 2 ^ 53)%Z -> decimalGE k n 0 = (n <=? k)%Z.
Proof.
  intros [H0 Hlt]. unfold decimalGE, reachesNumber.
  destruct (Z.eq_dec n 0) as [->|Hn].
  - change (numberOf 0 0) with (Finite 0 0). cbv beta iota.
    change (0 <=? 0)%Z with true. cbv iota. now rewrite Z.mul_0_l.
  - destruct (numberOf_integer n ltac:(lia)) as (s & Hs & ->).
    assert (P : (0 < 2 ^ s)%Z) by (apply Z.pow_pos_nonneg; lia).
    destruct (Z.eq_dec s 0) as [->|Hs0].
    + change (- 0)%Z with 0%Z. change (0 <=? 0)%Z with true. cbv iota.
      change (2 ^ 0)%Z with 1%Z. now rewrite !Z.mul_1_r.
    + replace (0 <=? - s)%Z with false by (symmetry; apply Z.leb_gt; lia).
      rewrite Z.opp_involutive.
      destruct (Z.leb_spec n k) as [Hle|Hgt].
      * apply Z.leb_le. nia.
      * apply Z.leb_gt. nia.
Qed.

Lemma animateScore_counting w n :
  fst (animateScore (integer n) w) = counting w n 0.
Proof.
  unfold animateScore, counting. simpl.
  unfold set_nextTimer, set_timers. simpl.
  now rewrite Z.add_0_r.
Qed.

(** One firing while the counter is below [n - 1]. *)
Lemma fire_counting w n k :
  freshIds w -> (Z.of_nat k + 1 < n < 2 ^ 53)%Z ->
  fire (nextTimer w) (counting w n k) = counting w n (S k).
Proof.
  intros Hf Hk. unfold fire.
  cbn [timers counting]. rewrite findTimer_last by (exact Hf || reflexivity).
  cbn [due task animateStep ge integer]. rewrite decimalGE_integer by lia.
  replace (n <=? Z.of_nat k + 1)%Z with false
    by (symmetry; apply Z.leb_gt; lia).
  unfold set_now, set_timers, set_page.
  cbn [page now timers nextTimer inflight copying log counting].
  rewrite rearm_last by (exact Hf || reflexivity).
  unfold counting.
  replace (Z.of_nat (S k)) with (Z.of_nat k + 1)%Z by lia.
  rewrite Z.max_r by lia.
  replace (now w + 20 * (Z.of_nat k + 1) + 20)%Z
    with (now w + 20 * (Z.of_nat k + 1 + 1))%Z by lia.
  destruct k; reflexivity.
Qed.

(** The firing that brings the counter to [n]. *)
Lemma fire_counted w n k :
  freshIds w -> (Z.of_nat k + 1 = n)%Z -> (n < 2 ^ 53)%Z ->
  fire (nextTimer w) (counting w n k) = counted w n.
Proof.
  intros Hf Hk Hn. unfold fire.
  cbn [timers counting]. rewrite findTimer_last by (exact Hf || reflexivity).
  cbn [due task animateStep ge integer]. rewrite decimalGE_integer by lia.
  replace (n <=? Z.of_nat k + 1)%Z with true
    by (symmetry; apply Z.leb_le; lia).
  unfold set_now, set_timers, set_page.
  cbn [page now timers nextTimer inflight copying log counting].
  rewrite clearTimer_last by (exact Hf || reflexivity).
  unfold counted. rewrite Z.max_r by lia. rewrite Hk.
  destruct k; reflexivity.
Qed.

(** Once cleared, the timer does not fire. *)
Lemma fire_cleared w n :
  freshIds w -> fire (nextTimer w) (counted w n) = counted w n.
Proof.
  intros Hf. unfold fire. cbn [timers counted].
  now rewrite (findTimer_absent _ _ Hf).
Qed.

Lemma run_app w a b : run (run w a) b = run w (a ++ b).
Proof. unfold run. now rewrite fold_left_app. Qed.

Lemma firings_S id k : firings id (S k) = firings id k ++ [TimerFires id].
Proof. unfold firings. now rewrite <- repeat_cons. Qed.

(** For [n] from 1 up to [2 ^ 53], the counter shows [k] after [k]
    firings, 20 apart, for every [k] up to [n]; the firing that shows [n]
    clears the timer, and nothing changes after it. *)
Theorem animateScore_counts w n :
  freshIds w -> (1 <= n < 2 ^ 53)%Z ->
  (forall k, (Z.of_nat k < n)%Z ->
     run (fst (animateScore (integer n) w)) (firings (nextTimer w) k)
     = counting w n k)
  /\ (forall k, (n <= Z.of_nat k)%Z ->
       run (fst (animateScore (integer n) w)) (firings (nextTimer w) k)
       = counted w n).
Proof.
  intros Hf Hn.
  assert (below : forall k, (Z.of_nat k < n)%Z ->
     run (fst (animateScore (integer n) w)) (firings (nextTimer w) k)
     = counting w n k).
  { induction k as [|k IH]; intros Hk.
    - apply animateScore_counting.
    - rewrite firings_S, <- run_app, IH by lia.
      apply fire_counting; [exact Hf | lia]. }
  split; [exact below|].
  induction k as [|k IH]; intros Hk; [lia|].
  rewrite firings_S, <- run_app.
  destruct (Z.eq_dec (Z.of_nat k + 1) n) as [E|E].
  - rewrite below by lia. apply fire_counted; [exact Hf | exact E | lia].
  - rewrite IH by lia. now apply fire_cleared.
Qed.

(** C5, where the source departs from it.  [animateScore(0)] on a fresh
    page: the first firing, at time 20, shows [1] and clears the timer;
    the counter never shows [0], the score it was given. *)
Theorem C5_score_zero_ends_at_one :
  let w := run (fst (animateScore (integer 0) freshWorld)) [TimerFires 0] in
  scoreDisplay_textContent (page w) = str "1"
  /\ now w = 20%Z
  /\ timers w = []
  /\ forall k, run w (firings 0 k) = w.
Proof.
  split; [reflexivity|]. split; [reflexivity|]. split; [reflexivity|].
  induction k as [|k IH]; [reflexivity|].
  rewrite firings_S, <- run_app, IH. reflexivity.
Qed.

End Score.

Lemma animateScore_42 :
  let w := run (rt := Engine.sample) (fst (animateScore (integer 42) freshWorld))
               (firings 0 42) in
  scoreDisplay_textContent (page w) = str "42"
  /\ now w = 840%Z
  /\ timers w = [].
Proof.
  intros w.
  assert (E : w = counted freshWorld 42)
    by exact (proj2 (animateScore_counts (rt := Engine.sample) freshWorld 42
                       ltac:(constructor) ltac:(split; [lia | reflexivity]))
                42%nat ltac:(lia)).
  rewrite E. repeat split.
Qed.

End ScoreFacts.

(* ================================================================== *)
(** * The review button *)
(* ================================================================== *)

Module ButtonFacts.

Import Vocabulary StringFacts Client CallFacts.

(** ** What a statement leaves as it was *)

Section Keeping.

Variable R : World -> World -> Prop.
Hypothesis R_refl : forall w, R w w.
Hypothesis R_trans : forall a b c, R a b -> R b c -> R a c.

Lemma keeps_ret {A} (a : A) : keeps R (ret a).
Proof. intros w. apply R_refl. Qed.

Lemma keeps_throw {A} e : keeps R (throw (A := A) e).
Proof. intros w. apply R_refl. Qed.

Lemma keeps_lift {A} (r : result A) : keeps R (lift r).
Proof. intros w. apply R_refl. Qed.

Lemma keeps_bind {A B} (c : JSM A) (k : A -> JSM B) :
  keeps R c -> (forall a, keeps R (k a)) -> keeps R (bind c k).
Proof.
  intros Hc Hk w. unfold bind. specialize (Hc w).
  destruct (c w) as [w' [a|e]]; simpl in *; [|exact Hc].
  eapply R_trans; [exact Hc | apply Hk].
Qed.

Lemma keeps_tryCatch {A} (c : JSM A) (h : exn -> JSM A) :
  keeps R c -> (forall e, keeps R (h e)) -> keeps R (tryCatch c h).
Proof.
  intros Hc Hh w. unfold tryCatch. specialize (Hc w).
  destruct (c w) as [w' [a|e]]; simpl in *; [exact Hc|].
  eapply R_trans; [exact Hc | apply Hh].
Qed.

Lemma keeps_if {A} (b : bool) (c d : JSM A) :
  keeps R c -> keeps R d -> keeps R (if b then c else d).
Proof. destruct b; auto. Qed.

End Keeping.

Lemma sameButLog_refl w : sameButLog w w.
Proof. repeat split. Qed.

Lemma sameButLog_trans a b c : sameButLog a b -> sameButLog b c -> sameButLog a c.
Proof. unfold sameButLog. intuition congruence. Qed.

Lemma offline_refl w : offline w w.
Proof. split; reflexivity. Qed.

Lemma offline_trans a b c : offline a b -> offline b c -> offline a c.
Proof. unfold offline. intuition congruence. Qed.

Lemma sameButLog_offline w w' : sameButLog w w' -> offline w w'.
Proof. unfold sameButLog, offline. intuition. Qed.

Lemma fetches_record e w :
  isFetch e = false -> fetches (record e w) = fetches w.
Proof.
  intros H. unfold fetches, record, World_recording. simpl.
  rewrite filter_app. simpl. rewrite H. now rewrite app_nil_r.
Qed.

Lemma keeps_emit e : isFetch e = false -> keeps sameButLog (emit e).
Proof.
  intros H w. unfold emit. simpl. repeat split. now apply fetches_record.
Qed.

Lemma keeps_onPage f : keeps offline (onPage f).
Proof. intros w. split; reflexivity. Qed.

Lemma keeps_animateScore v : keeps offline (animateScore v).
Proof. intros w. split; reflexivity. Qed.

Lemma keeps_weaken {A} (c : JSM A) : keeps sameButLog c -> keeps offline c.
Proof. intros H w. apply sameButLog_offline, H. Qed.

(** Statements built from the ones above keep what their parts keep. *)
Ltac keeping_with known :=
  repeat first
    [ known
    | exact sameButLog_refl | exact sameButLog_trans
    | exact offline_refl | exact offline_trans
    | apply keeps_ret | apply keeps_throw | apply keeps_lift
    | apply keeps_emit; reflexivity
    | apply keeps_onPage | apply keeps_animateScore
    | apply keeps_bind | apply keeps_tryCatch | apply keeps_if
    | match goal with |- forall _, keeps _ _ => intro end ].

Ltac keeping := keeping_with fail.

Lemma keeps_JSON_parse t : keeps sameButLog (JSON_parse t).
Proof.
  unfold JSON_parse. keeping. destruct (parse t); keeping.
Qed.

Lemma keeps_Response_json r : keeps sameButLog (Response_json r).
Proof.
  unfold Response_json. keeping. destruct (parse (text r)); keeping.
Qed.

Lemma keeps_fetched o : keeps sameButLog (fetched o).
Proof. destruct o; simpl; keeping. Qed.

(** Once the network has settled, the call touches nothing but the
    record of effects. *)
Lemma keeps_callGeminiAPI_resume o : keeps sameButLog (callGeminiAPI_resume o).
Proof.
  unfold callGeminiAPI_resume, console_error.
  keeping_with ltac:(first [ apply keeps_fetched | apply keeps_Response_json
                           | apply keeps_JSON_parse ]).
Qed.

Section Button.

Context {rt : Runtime}.

Lemma keeps_reviewUpdate o : keeps offline (reviewUpdate o).
Proof.
  unfold reviewUpdate.
  keeping_with ltac:(apply keeps_weaken, keeps_callGeminiAPI_resume).
Qed.

(** Whatever happens once the network has settled, the [finally] block
    has run: the button is enabled again and the spinner hidden; and no
    request left. *)
Lemma reviewSettled_cleanup o w :
  reviewBtn_disabled (page (reviewSettled o w)) = false
  /\ loader_hidden (page (reviewSettled o w)) = true
  /\ offline w (reviewSettled o w).
Proof.
  unfold reviewSettled, finally.
  assert (K : keeps offline
                (tryCatch (reviewUpdate o)
                   (fun error =>
                      console_error [LText (str "Error during AI review:"); LExn error] ;;;
                      showError (str "An error occurred: " ++ message error)))).
  { unfold console_error, showError.
    keeping_with ltac:(first [ apply keeps_reviewUpdate
                             | apply keeps_weaken, keeps_emit; reflexivity ]). }
  specialize (K w).
  destruct (tryCatch _ _ w) as [w' r]. simpl in *.
  split; [reflexivity|]. split; [reflexivity|]. exact K.
Qed.

Lemma input_eq_ClickReview i : i = ClickReview \/ i <> ClickReview.
Proof. destruct i; (now left) || (right; discriminate). Qed.

(** The clear button, the copy button, the timers and the clipboard never
    touch the review button, the spinner or the network. *)
Lemma step_aside w i :
  duringCall i -> i <> ClickReview ->
  reviewBtn_disabled (page (step w i)) = reviewBtn_disabled (page w)
  /\ loader_hidden (page (step w i)) = loader_hidden (page w)
  /\ fetches (step w i) = fetches w
  /\ inflight (step w i) = inflight w.
Proof.
  intros Hi Hn. destruct i as [| | |id|o|written]; simpl step.
  - congruence.
  - unfold clearClick. simpl. auto.
  - unfold copyClick. destruct (outputCode_value (page w)); simpl; auto.
  - unfold fire. destruct (findTimer id (timers w)) as [t|]; [|auto].
    destruct (task t) as [cur fin|]; simpl; [|auto].
    destruct (ge (cur + 1) fin); simpl; auto.
  - destruct Hi.
  - destruct (copying w) as [|c rest]; [auto|].
    destruct written; simpl; auto.
Qed.

(** While the button is disabled, no other event enables it, sends a
    request or shows or hides the spinner. *)
Lemma step_duringCall w i :
  reviewBtn_disabled (page w) = true -> duringCall i ->
  reviewBtn_disabled (page (step w i)) = true
  /\ loader_hidden (page (step w i)) = loader_hidden (page w)
  /\ fetches (step w i) = fetches w
  /\ inflight (step w i) = inflight w.
Proof.
  intros Hd Hi. destruct (input_eq_ClickReview i) as [->|Hn].
  - simpl. rewrite Hd. auto.
  - destruct (step_aside w i Hi Hn) as (D & L & F & I).
    rewrite D. auto.
Qed.

Lemma run_duringCall evs : forall w,
  reviewBtn_disabled (page w) = true -> Forall duringCall evs ->
  reviewBtn_disabled (page (run w evs)) = true
  /\ loader_hidden (page (run w evs)) = loader_hidden (page w)
  /\ fetches (run w evs) = fetches w
  /\ inflight (run w evs) = inflight w.
Proof.
  induction evs as [|i evs IH]; intros w Hd Hall; [simpl; auto|].
  inversion Hall as [|? ? Hi Hevs]; subst.
  destruct (step_duringCall w i Hd Hi) as (D & L & F & I).
  destruct (IH (step w i) D Hevs) as (D' & L' & F' & I').
  change (run w (i :: evs)) with (run (step w i) evs).
  repeat split; congruence.
Qed.

(** The click on an enabled button with code in the input box: one
    request leaves, the button is disabled and the spinner shown. *)
Lemma reviewClick_sends w c code :
  trim (inputCode_value (page w)) = c :: code ->
  fetches (reviewClick w) = S (fetches w)
  /\ reviewBtn_disabled (page (reviewClick w)) = true
  /\ loader_hidden (page (reviewClick w)) = false
  /\ errorBox_hidden (page (reviewClick w)) = true
  /\ inflight (reviewClick w) = inflight w ++ [c :: code].
Proof.
  intros E. unfold reviewClick. rewrite E. simpl.
  repeat split. unfold fetches. simpl. rewrite filter_app. simpl.
  rewrite length_app. simpl. lia.
Qed.

(** With nothing but blanks in the input box, the click sends nothing
    and shows the banner. *)
Lemma reviewClick_blank w :
  trim (inputCode_value (page w)) = [] ->
  fetches (reviewClick w) = fetches w
  /\ inflight (reviewClick w) = inflight w
  /\ errorBox_hidden (page (reviewClick w)) = false
  /\ errorMessage_textContent (page (reviewClick w))
     = str "Please paste some code in the input box before reviewing."
  /\ reviewBtn_disabled (page (reviewClick w)) = reviewBtn_disabled (page w).
Proof.
  intros E. unfold reviewClick. rewrite E. simpl. repeat split.
Qed.

(** C3.  With code in the input box that is not blank, a click on the
    enabled review button sends exactly one request and disables the
    button; whatever else happens before the network settles, clicks on
    the review button included, the button stays disabled and no other
    request leaves; and when the network settles, with a success, a
    failure status or no response at all, the button is enabled again and
    the spinner hidden, still with that one request. *)
Theorem C3_one_call_disabled_until_settled :
  forall w,
    trim (inputCode_value (page w)) <> [] ->
    reviewBtn_disabled (page w) = false ->
    inflight w = [] ->
    let w1 := step w ClickReview in
    fetches w1 = S (fetches w)
    /\ reviewBtn_disabled (page w1) = true
    /\ loader_hidden (page w1) = false
    /\ forall evs, Forall duringCall evs ->
         let w2 := run w1 evs in
         reviewBtn_disabled (page w2) = true
         /\ loader_hidden (page w2) = false
         /\ fetches w2 = S (fetches w)
         /\ forall o,
              let w3 := step w2 (FetchSettles o) in
              reviewBtn_disabled (page w3) = false
              /\ loader_hidden (page w3) = true
              /\ fetches w3 = S (fetches w)
              /\ inflight w3 = [].
Proof.
  intros w Hcode Hen Hidle w1.
  destruct (trim (inputCode_value (page w))) as [|c code] eqn:E; [congruence|].
  assert (Hw1 : w1 = reviewClick w) by (unfold w1; simpl; now rewrite Hen).
  destruct (reviewClick_sends w c code E) as (F1 & D1 & L1 & _ & I1).
  rewrite <- Hw1 in *. rewrite Hidle in I1. simpl in I1.
  split; [exact F1|]. split; [exact D1|]. split; [exact L1|].
  intros evs Hevs w2.
  destruct (run_duringCall evs w1 D1 Hevs) as (D2 & L2 & F2 & I2).
  fold w2 in D2, L2, F2, I2.
  split; [exact D2|]. split; [congruence|]. split; [congruence|].
  intros o w3.
  assert (Hw3 : w3 = reviewSettled o (set_inflight [] w2)).
  { unfold w3. simpl. rewrite I2, I1. reflexivity. }
  destruct (reviewSettled_cleanup o (set_inflight [] w2)) as (D3 & L3 & F3 & I3).
  rewrite <- Hw3 in *.
  split; [exact D3|]. split; [exact L3|].
  split; [|exact I3].
  rewrite F3. change (fetches (set_inflight [] w2)) with (fetches w2). congruence.
Qed.

(** Whatever happens to the page, at most one review is in flight, and
    the button is disabled while it is: a second click cannot send a
    second request before the first has settled. *)
Theorem singleFlight_step w i : singleFlight w -> singleFlight (step w i).
Proof.
  unfold singleFlight. intros H.
  destruct (input_eq_ClickReview i) as [->|Hn].
  - simpl. destruct (reviewBtn_disabled (page w)) eqn:Hd; [now rewrite Hd|].
    destruct (inflight w) as [|a [|b rest]] eqn:Hin; try discriminate; try tauto.
    unfold reviewClick.
    destruct (trim (inputCode_value (page w))) as [|c code];
      simpl; rewrite ?Hin; simpl; auto.
  - destruct i as [| | |id|o|written]; [congruence | | | | |].
    4:{ simpl. destruct (inflight w) as [|a [|b rest]] eqn:Hin.
        - now rewrite Hin.
        - destruct (reviewSettled_cleanup o (set_inflight [] w))
            as (_ & _ & _ & Hi).
          now rewrite Hi.
        - destruct H. }
    all: match goal with
         | |- context [step ?w0 ?i] =>
             destruct (step_aside w0 i I Hn) as (D & _ & _ & Hi);
             rewrite Hi, D; exact H
         end.
Qed.

(** Whatever happens to a fresh page, at most one review is in flight,
    and the button is disabled while it is. *)
Theorem singleFlight_run evs : singleFlight (run freshWorld evs).
Proof.
  assert (G : forall w, singleFlight w -> singleFlight (run w evs)).
  { induction evs as [|i evs IH]; intros w H; [exact H|].
    apply (IH (step w i)). now apply singleFlight_step. }
  apply G. exact I.
Qed.

(** The value or the failure of the call does not depend on the world
    it runs in. *)
Lemma callGeminiAPI_resume_result o w w' :
  snd (callGeminiAPI_resume o w) = snd (callGeminiAPI_resume o w').
Proof.
  destruct o as [|r]; [reflexivity|].
  destruct (ok r) eqn:Hok.
  2:{ unfold callGeminiAPI_resume, fetched, bind, ret. now rewrite Hok. }
  destruct (parse (text r)) as [v|] eqn:Hp.
  2:{ unfold callGeminiAPI_resume, fetched, Response_json, bind, emit, ret.
      now rewrite Hok, Hp. }
  assert (E : forall (k : value -> JSM value) w0,
             (response <- fetched (Responded r) ;;
              if negb (ok response)
              then throw (Error (str "API Error: " ++ decimal (status response)
                                   ++ str " " ++ statusText response))
              else reply <- Response_json response ;; k reply) w0
             = k v (record EvBodyJson w0)).
  { intros k w0. unfold fetched, Response_json, bind, emit, ret.
    now rewrite Hok, Hp. }
  unfold callGeminiAPI_resume. rewrite !E. clear E.
  unfold bind, lift.
  destruct (candidateText v) as [t|e]; [|reflexivity].
  destruct t as [[| | |s| |]|]; simpl stringReceiver; cbv beta iota;
    try reflexivity.
  unfold tryCatch, JSON_parse, bind, emit.
  destruct (parse (cleanResponse s)); reflexivity.
Qed.

(** When the call fails, what runs once the network has settled writes
    the message of the failure into the banner and shows it, hides the
    spinner and enables the button, and nothing else. *)
Lemma reviewSettled_failure o w e :
  snd (callGeminiAPI_resume o w) = Throw e ->
  page (reviewSettled o w)
  = set_reviewBtn_disabled false
      (set_loader_hidden true
         (set_errorBox_hidden false
            (set_errorMessage_textContent
               (str "An error occurred: " ++ message e) (page w))))
  /\ timers (reviewSettled o w) = timers w
  /\ now (reviewSettled o w) = now w.
Proof.
  intros H.
  pose proof (keeps_callGeminiAPI_resume o w) as (P & N & T & _).
  unfold reviewSettled, finally, tryCatch, reviewUpdate, bind.
  destruct (callGeminiAPI_resume o w) as [w0 r]. simpl in H, P, N, T. subst r.
  simpl. rewrite P, T, N. repeat split.
Qed.

(** C7.  A click on the review button with code in the input box, and
    then the failure of the call, in the network or in parsing: compared
    with the page before the click, the corrected-code box, the score, the
    review, the input and the label of the copy button are as they were
    and no timer was added, so no animation starts; the banner shows the
    message of the failure, the spinner is hidden and the button
    enabled. *)
Theorem C7_failure_updates_only_the_banner :
  forall w o e,
    trim (inputCode_value (page w)) <> [] ->
    reviewBtn_disabled (page w) = false ->
    inflight w = [] ->
    snd (callGeminiAPI_resume o w) = Throw e ->
    let w' := run w [ClickReview; FetchSettles o] in
    outputCode_value (page w') = outputCode_value (page w)
    /\ scoreDisplay_textContent (page w') = scoreDisplay_textContent (page w)
    /\ reviewOutput_innerHTML (page w') = reviewOutput_innerHTML (page w)
    /\ inputCode_value (page w') = inputCode_value (page w)
    /\ copyBtn_textContent (page w') = copyBtn_textContent (page w)
    /\ timers w' = timers w
    /\ errorMessage_textContent (page w') = str "An error occurred: " ++ message e
    /\ errorBox_hidden (page w') = false
    /\ loader_hidden (page w') = true
    /\ reviewBtn_disabled (page w') = false.
Proof.
  intros w o e Hcode Hen Hidle H w'.
  destruct (trim (inputCode_value (page w))) as [|c code] eqn:E; [congruence|].
  assert (Hw' : w' = reviewSettled o (set_inflight [] (reviewClick w))).
  { unfold w', run. cbn [fold_left step]. rewrite Hen.
    destruct (reviewClick_sends w c code E) as (_ & _ & _ & _ & I).
    rewrite I, Hidle. reflexivity. }
  rewrite (callGeminiAPI_resume_result o w (set_inflight [] (reviewClick w))) in H.
  destruct (reviewSettled_failure o _ e H) as (P & T & _).
  rewrite Hw', P, T. unfold reviewClick. rewrite E. simpl. repeat split.
Qed.

End Button.

Lemma C3_witness :
  let w := typed "x = 1" freshWorld in
  let w1 := step (rt := Engine.sample) w ClickReview in
  fetches w1 = S (fetches w)
  /\ reviewBtn_disabled (page w1) = true
  /\ loader_hidden (page w1) = false
  /\ forall evs, Forall duringCall evs ->
       let w2 := run (rt := Engine.sample) w1 evs in
       reviewBtn_disabled (page w2) = true
       /\ loader_hidden (page w2) = false
       /\ fetches w2 = S (fetches w)
       /\ forall o,
            let w3 := step (rt := Engine.sample) w2 (FetchSettles o) in
            reviewBtn_disabled (page w3) = false
            /\ loader_hidden (page w3) = true
            /\ fetches w3 = S (fetches w)
            /\ inflight w3 = [].
Proof.
  apply (C3_one_call_disabled_until_settled (rt := Engine.sample)
           (typed "x = 1" freshWorld)).
  - vm_compute. discriminate.
  - reflexivity.
  - reflexivity.
Defined.

Lemma C7_witness :
  let w := typed "x = 1" freshWorld in
  let o := Responded (reply 429 (str "Too Many Requests") []) in
  let w' := run (rt := Engine.sample) w [ClickReview; FetchSettles o] in
  outputCode_value (page w') = outputCode_value (page w)
  /\ scoreDisplay_textContent (page w') = scoreDisplay_textContent (page w)
  /\ reviewOutput_innerHTML (page w') = reviewOutput_innerHTML (page w)
  /\ inputCode_value (page w') = inputCode_value (page w)
  /\ copyBtn_textContent (page w') = copyBtn_textContent (page w)
  /\ timers w' = timers w
  /\ errorMessage_textContent (page w')
     = str "An error occurred: API Error: 429 Too Many Requests"
  /\ errorBox_hidden (page w') = false
  /\ loader_hidden (page w') = true
  /\ reviewBtn_disabled (page w') = false.
Proof.
  apply (C7_failure_updates_only_the_banner (rt := Engine.sample)
           (typed "x = 1" freshWorld)
           (Responded (reply 429 (str "Too Many Requests") []))
           (Error (str "API Error: 429 Too Many Requests"))).
  - vm_compute. discriminate.
  - reflexivity.
  - reflexivity.
  - reflexivity.
Defined.

(** A failure after the call is another matter: with an [updatedCode]
    that is a number, the review is on the page when [trim] throws, and
    the banner is shown over it. *)
Remark later_failure_keeps_the_new_review :
  let w' := reviewSettled (rt := Engine.sample)
              (Responded (candidateReply numericCode)) freshWorld in
  reviewOutput_innerHTML (page w') = unorderedList [str "a"]
  /\ outputCode_value (page w') = []
  /\ errorMessage_textContent (page w')
     = str "An error occurred: " ++ Engine.wording (NotAFunction (str "trim"))
  /\ errorBox_hidden (page w') = false
  /\ timers w' = [].
Proof. vm_compute. repeat split. Qed.

End ButtonFacts.

(* ================================================================== *)
(** * The proxy *)
(* ================================================================== *)

Module ProxyFacts.

Import Vocabulary Proxy CallFacts.

Local Open Scope N_scope.

Section Function.

Context {rt : Runtime}.

(** The function sends at most the request it built from the posted code
    and the configured key. *)
Lemma handler_fetch_inv env net event req :
  In (EvFetch req) (fst (handler env net event)) ->
  exists parsed code apiKey codeText,
    jsstring_eqb (httpMethod event) (str "POST") = true
    /\ parse (eventText event) = Some parsed
    /\ getProp (Some parsed) (str "code") = Ok code
    /\ configured env = Some apiKey
    /\ template code = Ok codeText
    /\ req = request apiKey codeText.
Proof.
  unfold handler, tryBlock, JSON_parse, Response_json, console_error, bind, emit,
    lift, ret, throw, fetched, record, log_recording.
  destruct (jsstring_eqb (httpMethod event) (str "POST")) eqn:Em; simpl negb;
    cbv iota; [|simpl; tauto].
  destruct (parse (eventText event)) as [parsed|] eqn:Ep;
    [|simpl; intuition discriminate].
  destruct (getProp (Some parsed) (str "code")) as [code|e] eqn:Ec;
    [|simpl; intuition discriminate].
  destruct (configured env) as [apiKey|] eqn:Ek; [|simpl; intuition discriminate].
  destruct (template code) as [codeText|e] eqn:Et;
    [|simpl; intuition discriminate].
  intros H. exists parsed, code, apiKey, codeText.
  repeat (split; [assumption || reflexivity|]).
  destruct (net (request apiKey codeText)) as [|r]; simpl in H.
  - intuition (try discriminate). congruence.
  - destruct (ok r); simpl in H;
      destruct (parse (text r)) as [v|]; simpl in H;
      try destruct (candidateText v); simpl in H;
      intuition (try discriminate); congruence.
Qed.

(** C4, as the source has it.  When the upstream answers the function's
    request with a status outside 200..299 and a body that is JSON, the
    function returns that status and, as its body, the parsed body
    serialised again. *)
Theorem C4_failure_status_relayed_for_json_bodies :
  forall env net event req r errorData,
    In (EvFetch req) (fst (handler env net event)) ->
    net req = Responded r ->
    ok r = false ->
    parse (text r) = Some errorData ->
    snd (handler env net event)
    = {| statusCode := status r; replyHeaders := [];
         replyBody := Some (JString (JSON_stringify errorData)) |}.
Proof.
  intros env net event req r errorData Hin Hnet Hok He.
  destruct (handler_fetch_inv env net event req Hin)
    as (parsed & code & apiKey & codeText & Hm & Hp & Hc & Hk & Ht & ->).
  unfold handler, tryBlock, fetched, JSON_parse, Response_json, console_error,
    bind, emit, lift, ret, throw.
  rewrite Hm. simpl negb. cbv beta iota.
  rewrite Hp. cbv beta iota. rewrite Hc. cbv beta iota.
  rewrite Hk. cbv beta iota. rewrite Ht. cbv beta iota.
  rewrite Hnet. cbv beta iota. rewrite Hok. simpl negb. cbv beta iota.
  rewrite He. reflexivity.
Qed.




End Function.

(** C4, as stated, fails twice over.  The upstream answers 429 with a
    JSON body written with spaces: the function returns the body without
    them.  The upstream answers 503 with a page that is not JSON: the
    function returns 500. *)
Lemma C4_counterexample :
  replyBody (snd (handler (rt := Engine.sample) (withKey "secret")
                    (answering quotaExceeded) (post "x = 1")))
  = Some (JString (str "{" ++ q "error" ++ str ":{" ++ q "code" ++ str ":429}}"))
  /\ text quotaExceeded
     = str "{" ++ q "error" ++ str ": {" ++ q "code" ++ str ": 429}}"
  /\ replyBody (snd (handler (rt := Engine.sample) (withKey "secret")
                       (answering quotaExceeded) (post "x = 1")))
     <> Some (JString (text quotaExceeded))
  /\ status busy = 503
  /\ statusCode (snd (handler (rt := Engine.sample) (withKey "secret")
                        (answering busy) (post "x = 1")))
     = 500.
Proof.
  split; [vm_compute; reflexivity|]. split; [reflexivity|].
  split; [vm_compute; discriminate|]. split; reflexivity.
Qed.

Lemma C4_witness :
  snd (handler (rt := Engine.sample) (withKey "secret") (answering quotaExceeded)
         (post "x = 1"))
  = {| statusCode := 429; replyHeaders := [];
       replyBody :=
         Some (JString (Engine.stringify
                          (JObject [(str "error",
                             JObject [(str "code", JNumber 429 0)])]))) |}.
Proof.
  apply (C4_failure_status_relayed_for_json_bodies (rt := Engine.sample)
           (withKey "secret") (answering quotaExceeded) (post "x = 1")
           (request (rt := Engine.sample) (str "secret") (str "x = 1")) quotaExceeded).
  - vm_compute. tauto.
  - reflexivity.
  - reflexivity.
  - vm_compute. reflexivity.
Defined.


End ProxyFacts.

(* ================================================================== *)
(** * More on the call to the model *)
(* ================================================================== *)

Module CallCoverage.

Import Vocabulary StringFacts ParseFacts Client CallFacts ButtonFacts.

Local Open Scope N_scope.

(** A text that holds no match is left as it is. *)
Lemma replaceAll_none p s :
  includes p s = false -> replaceAll p [] s = s.
Proof.
  induction s as [|c s IH]; intros H; [reflexivity|].
  simpl in H. apply orb_false_elim in H as [H1 H2].
  rewrite (replaceAll_nomatch p [] c s H1). now rewrite IH.
Qed.

Lemma cleanResponse_fence_free s : includes fence (cleanResponse s) = false.
Proof.
  unfold cleanResponse. apply includes_trim; [discriminate|].
  rewrite fence_eq. apply replaceAll_fence_free.
Qed.

(** X5.  Cleaning a cleaned text changes nothing. *)
Theorem cleanResponse_idempotent s :
  cleanResponse (cleanResponse s) = cleanResponse s.
Proof.
  pose proof (cleanResponse_fence_free s) as F.
  unfold cleanResponse at 1.
  rewrite (replaceAll_none (str "```json") (cleanResponse s)).
  - rewrite fence_eq, (replaceAll_none fence _ F).
    unfold cleanResponse. apply trim_idem.
  - change (str "```json") with (fence ++ str "json").
    apply includes_prefix; [discriminate | exact F].
Qed.

Lemma getProp_fault v k e :
  getProp v k = Throw e -> exists base prop, e = Fault (ReadOfNullish base prop).
Proof.
  destruct v as [[]|]; simpl; intros H; inversion H; eauto.
Qed.

Lemma getIndex_fault v i e :
  getIndex v i = Throw e -> exists base prop, e = Fault (ReadOfNullish base prop).
Proof.
  destruct v as [[]|]; simpl; intros H; inversion H; eauto.
Qed.

Lemma then_fault r f e :
  then_ r f = Throw e -> r = Throw e \/ exists v, f v = Throw e.
Proof.
  destruct r as [v|e']; simpl; intros H; [right; eauto | left; exact H].
Qed.

(** The chain of reads throws nothing but the [TypeError] of a read on
    [undefined] or [null]. *)
Lemma candidateText_fault v e :
  candidateText v = Throw e ->
  exists base prop, e = Fault (ReadOfNullish base prop).
Proof.
  unfold candidateText. intros H.
  repeat match goal with
         | H : then_ _ _ = Throw _ |- _ =>
             apply then_fault in H; destruct H as [H|[? H]]
         | H : getProp _ _ = Throw _ |- _ => exact (getProp_fault _ _ _ H)
         | H : getIndex _ _ = Throw _ |- _ => exact (getIndex_fault _ _ _ H)
         end.
Qed.

Section Call.

Context {rt : Runtime}.

(** X3.  A success response whose candidate text, once cleaned, is not
    JSON: the call logs the cleaned text to the console and throws an
    error with a fixed message, and the banner shows that message, not
    the text. *)
Theorem unparsable_candidate_reports_fixed_message o s w :
  candidate o s ->
  parse (cleanResponse s) = None ->
  callGeminiAPI_resume o w
  = (record (EvConsoleError
               [LText (str "Failed to parse JSON from AI response:");
                LText (cleanResponse s)])
       (record (EvJSONparse (cleanResponse s)) (record EvBodyJson w)),
     Throw (Error invalidMessage))
  /\ errorMessage_textContent (page (reviewSettled o w))
     = str "An error occurred: " ++ invalidMessage
  /\ errorBox_hidden (page (reviewSettled o w)) = false.
Proof.
  intros Hc Hp.
  assert (E : callGeminiAPI_resume o w
    = (record (EvConsoleError
                 [LText (str "Failed to parse JSON from AI response:");
                  LText (cleanResponse s)])
         (record (EvJSONparse (cleanResponse s)) (record EvBodyJson w)),
       Throw (Error invalidMessage))).
  { rewrite (callGeminiAPI_resume_candidate _ _ _ Hc).
    unfold tryCatch, JSON_parse, bind, emit. rewrite Hp. reflexivity. }
  split; [exact E|].
  unfold reviewSettled, finally, tryCatch, reviewUpdate, bind. rewrite E.
  split; reflexivity.
Qed.

(** X2.  Whatever the network did, the call either returns the value the
    cleaned candidate text of a success response parses to, or throws one
    of six failures: the rejection of [fetch], the status error, the
    response body that is not JSON, a read on [undefined] or [null] in
    the reply, a candidate text that is no string, or the fixed error for
    a text that does not parse. *)
Theorem callGeminiAPI_outcomes o w :
  match snd (callGeminiAPI_resume o w) with
  | Ok v => exists s, candidate o s /\ parse (cleanResponse s) = Some v
  | Throw e =>
      (o = Rejected /\ e = Fault FetchFailed)
      \/ (exists r, o = Responded r /\ ok r = false
                    /\ e = Error (str "API Error: " ++ decimal (status r)
                                    ++ str " " ++ statusText r))
      \/ (exists r, o = Responded r /\ ok r = true /\ parse (text r) = None
                    /\ e = Fault (InvalidJSON (text r)))
      \/ (exists base prop, e = Fault (ReadOfNullish base prop))
      \/ e = Fault (NotAFunction (str "replace"))
      \/ (exists s, candidate o s /\ parse (cleanResponse s) = None
                    /\ e = Error invalidMessage)
  end.
Proof.
  destruct o as [|r]; [simpl; left; split; reflexivity|].
  destruct (ok r) eqn:Hok.
  2:{ unfold callGeminiAPI_resume, fetched, bind, ret. rewrite Hok.
      simpl. right. left. exists r. repeat split; auto. }
  destruct (parse (text r)) as [v|] eqn:Hp.
  2:{ unfold callGeminiAPI_resume, fetched, Response_json, bind, emit, ret.
      rewrite Hok, Hp.
      simpl. right. right. left. exists r. repeat split; auto. }
  assert (E : forall k : value -> JSM value,
             (response <- fetched (Responded r) ;;
              if negb (ok response)
              then throw (Error (str "API Error: " ++ decimal (status response)
                                   ++ str " " ++ statusText response))
              else reply <- Response_json response ;; k reply) w
             = k v (record EvBodyJson w)).
  { intros k. unfold fetched, Response_json, bind, emit, ret.
    rewrite Hok, Hp. reflexivity. }
  unfold callGeminiAPI_resume. rewrite E. clear E.
  unfold bind, lift.
  destruct (candidateText v) as [t|e] eqn:Hc.
  2:{ right. right. right. left. exact (candidateText_fault v e Hc). }
  destruct t as [[| | |s| |]|]; simpl stringReceiver; cbv beta iota;
    try (right; right; right; left; eauto; fail);
    try (right; right; right; right; left; reflexivity).
  unfold tryCatch, JSON_parse, bind, emit.
  assert (C : candidate (Responded r) s) by (exists r, v; auto).
  destruct (parse (cleanResponse s)) as [u|] eqn:Hu; simpl.
  - exists s. auto.
  - right. right. right. right. right. exists s. auto.
Qed.

Lemma quietly_refl w : quietly w w.
Proof. exists []. now rewrite app_nil_r. Qed.

Lemma quietly_trans a b c : quietly a b -> quietly b c -> quietly a c.
Proof.
  intros (x & Hx & Fx) (y & Hy & Fy). exists (x ++ y).
  rewrite Hy, Hx, app_assoc, filter_app, Fx, Fy. now split.
Qed.

Lemma quietly_emit e : isFetch e = false -> keeps quietly (emit e).
Proof.
  intros H w. exists [e]. split; [reflexivity|]. simpl. now rewrite H.
Qed.

Ltac quiet known :=
  keeping_with ltac:(first [ exact quietly_refl | exact quietly_trans
                           | apply quietly_emit; reflexivity | known ]).

Lemma quietly_JSON_parse t : keeps quietly (JSON_parse t).
Proof. unfold JSON_parse. quiet fail. destruct (parse t); quiet fail. Qed.

Lemma quietly_Response_json r : keeps quietly (Response_json r).
Proof.
  unfold Response_json. quiet fail. destruct (parse (text r)); quiet fail.
Qed.

Lemma quietly_fetched o : keeps quietly (fetched o).
Proof. destruct o; simpl; quiet fail. Qed.

(** Once the network has settled, the call sends nothing. *)
Lemma quietly_callGeminiAPI_resume o : keeps quietly (callGeminiAPI_resume o).
Proof.
  unfold callGeminiAPI_resume, console_error.
  quiet ltac:(first [ apply quietly_fetched | apply quietly_Response_json
                    | apply quietly_JSON_parse ]).
Qed.

(** X1.  The call sends exactly one request, before anything else it
    does to the outside, and leaves the page, the timers, the clock and
    the reviews in flight as they were, whatever the network does. *)
Theorem callGeminiAPI_sends_one_request code net w :
  let w' := fst (callGeminiAPI code net w) in
  (exists rest,
     log w' = log w ++ EvFetch (request code) :: rest
     /\ filter isFetch rest = [])
  /\ fetches w' = S (fetches w)
  /\ page w' = page w
  /\ timers w' = timers w
  /\ now w' = now w
  /\ inflight w' = inflight w.
Proof.
  unfold callGeminiAPI, bind, emit. simpl.
  pose proof (keeps_callGeminiAPI_resume (net (request code))
                (record (EvFetch (request code)) w))
    as (P & N & T & _ & I & _ & F).
  pose proof (quietly_callGeminiAPI_resume (net (request code))
                (record (EvFetch (request code)) w))
    as (rest & L & Q).
  destruct (callGeminiAPI_resume (net (request code))
              (record (EvFetch (request code)) w)) as [w' r]; simpl in *.
  split.
  - exists rest. split; [|exact Q]. rewrite L. now rewrite <- app_assoc.
  - rewrite P, N, T, I, F. repeat split.
    unfold fetches, record, World_recording. simpl.
    rewrite filter_app, length_app. simpl. lia.
Qed.

End Call.

Lemma unparsable_candidate_witness :
  callGeminiAPI_resume (Responded (candidateReply (str "Sorry, no."))) freshWorld
  = (record (EvConsoleError
               [LText (str "Failed to parse JSON from AI response:");
                LText (cleanResponse (str "Sorry, no."))])
       (record (EvJSONparse (cleanResponse (str "Sorry, no.")))
          (record EvBodyJson freshWorld)),
     Throw (Error invalidMessage))
  /\ errorMessage_textContent
       (page (reviewSettled (rt := Engine.sample)
                (Responded (candidateReply (str "Sorry, no."))) freshWorld))
     = str "An error occurred: " ++ invalidMessage
  /\ errorBox_hidden
       (page (reviewSettled (rt := Engine.sample)
                (Responded (candidateReply (str "Sorry, no."))) freshWorld))
     = false.
Proof.
  apply (unparsable_candidate_reports_fixed_message (rt := Engine.sample)).
  - apply (candidate_candidateReply (str "Sorry, no.")
             (request (rt := Engine.sample) (str "x"))).
    vm_compute. reflexivity.
  - vm_compute. reflexivity.
Defined.

Lemma json_candidate_witness :
  snd (callGeminiAPI (rt := Engine.sample) (str "x = 1")
         (answering (candidateReply (fenced [] [LF] okReview [LF] [])))
         freshWorld)
  = Ok okResult.
Proof.
  destruct (json_candidate_returns_its_value (rt := Engine.sample) (str "x = 1")
              (answering (candidateReply (fenced [] [LF] okReview [LF] [])))
              freshWorld okReview okResult) as [_ F].
  - unfold tickFree, okReview. vm_compute.
    repeat (constructor; [discriminate|]). constructor.
  - vm_compute. reflexivity.
  - apply (F [] [LF] [LF] []); try (repeat constructor).
    apply candidate_candidateReply. vm_compute. reflexivity.
Defined.

End CallCoverage.

(* ================================================================== *)
(** * More on the review as a list *)
(* ================================================================== *)

Module ListCoverage.

Import Vocabulary StringFacts Client ListFacts.

Local Open Scope N_scope.

Lemma jsstring_eqb_eq a b : jsstring_eqb a b = true <-> a = b.
Proof.
  unfold jsstring_eqb. destruct (list_eq_dec N.eq_dec a b); split;
    congruence || auto.
Qed.

Lemma trim_nil_blank s : trim s = [] -> blank s.
Proof.
  intros H. destruct (trimEnd_split s) as (w & Hw & E).
  destruct (trimStart_split (trimEnd s)) as (w' & Hw' & E').
  fold (trim s) in E'. rewrite H, app_nil_r in E'. rewrite E' in E.
  rewrite E. unfold blank in *. apply Forall_app. now split.
Qed.

Lemma split_app_sep sep l rest :
  ~ In sep l -> split sep (l ++ sep :: rest) = l :: split sep rest.
Proof.
  induction l as [|c l IH]; intros H; simpl.
  - now rewrite N.eqb_refl.
  - destruct (c =? sep) eqn:E.
    + apply N.eqb_eq in E. exfalso. apply H. now left.
    + rewrite IH; [reflexivity|]. intros Hin. apply H. now right.
Qed.

Lemma split_nosep sep l : ~ In sep l -> split sep l = [l].
Proof.
  induction l as [|c l IH]; intros H; simpl; [reflexivity|].
  destruct (c =? sep) eqn:E.
  - apply N.eqb_eq in E. exfalso. apply H. now left.
  - rewrite IH; [reflexivity|]. intros Hin. apply H. now right.
Qed.

(** Splitting at the line feeds gives back the lines that were joined by
    them. *)
Lemma split_of_lines ls :
  ls <> [] -> Forall (fun l => ~ In LF l) ls -> split LF (lines ls) = ls.
Proof.
  induction ls as [|l ls IH]; intros Hne H; [congruence|].
  inversion H as [|? ? Hl Hls]; subst.
  destruct ls as [|l2 ls'].
  - simpl. rewrite app_nil_r. now apply split_nosep.
  - change (lines (l :: l2 :: ls')) with (l ++ LF :: lines (l2 :: ls')).
    rewrite split_app_sep by exact Hl.
    rewrite IH; [reflexivity | discriminate | exact Hls].
Qed.

Lemma split_blank s : blank s -> Forall blank (split LF s).
Proof.
  unfold blank. induction 1 as [|c s Hc Hs IH]; simpl.
  - repeat constructor.
  - destruct (c =? LF).
    + constructor; [constructor | exact IH].
    + destruct (split LF s) as [|l ls]; [repeat constructor; exact Hc|].
      inversion IH; subst. constructor; [now constructor | assumption].
Qed.

Lemma bullet_kept item : negb (jsstring_eqb (trim (bullet item)) []) = true.
Proof.
  destruct (jsstring_eqb (trim (bullet item)) []) eqn:E; [|reflexivity].
  apply jsstring_eqb_eq, trim_nil_blank in E.
  unfold blank, bullet in E. inversion E as [|? ? Hc _]. discriminate Hc.
Qed.

Lemma trimmedLine_bullet item : trim item = item -> trimmedLine (bullet item) = item.
Proof.
  intros H. rewrite trimmedLine_unindented by reflexivity.
  unfold itemOf, bullet. simpl afterAsterisk. cbv beta iota.
  change (32 :: item) with ([32] ++ item).
  rewrite trim_blank_app_l by (repeat constructor). exact H.
Qed.

(** X7.  A review made of bulleted lines, one item to a line, gives the
    list of its items, each as it was written: the bullets are gone and
    nothing in an item is escaped. *)
Theorem formatReviewAsHtml_bullets items :
  Forall oneLine items ->
  formatReviewAsHtml (Some (JString (lines (map bullet items))))
  = Ok (unorderedList items).
Proof.
  intros H. rewrite formatReviewAsHtml_items. do 2 f_equal.
  destruct items as [|i items]; [reflexivity|].
  unfold reviewLines. rewrite split_of_lines.
  - induction H as [|x xs [Hx _] _ IH]; [reflexivity|].
    cbn [map filter]. rewrite bullet_kept. cbn [map].
    now rewrite trimmedLine_bullet, IH.
  - discriminate.
  - rewrite Forall_map. revert H. apply Forall_impl.
    intros x [_ Hx] [E|[E|Hin]]; try discriminate. now apply Hx.
Qed.

(** X8.  A review that is white space only gives the empty list. *)
Theorem formatReviewAsHtml_blank s :
  blank s -> formatReviewAsHtml (Some (JString s)) = Ok (unorderedList []).
Proof.
  intros H. rewrite formatReviewAsHtml_items. do 2 f_equal.
  unfold reviewLines. apply split_blank in H.
  induction H as [|l ls Hl _ IH]; [reflexivity|].
  cbn [filter]. rewrite (trim_blank l Hl). exact IH.
Qed.

Lemma formatReviewAsHtml_bullets_witness :
  formatReviewAsHtml
    (Some (JString (lines (map bullet [str "<b>x</b>"; str "a * b"]))))
  = Ok (unorderedList [str "<b>x</b>"; str "a * b"]).
Proof.
  apply formatReviewAsHtml_bullets.
  repeat constructor; vm_compute; intuition discriminate.
Defined.

Lemma formatReviewAsHtml_blank_witness :
  formatReviewAsHtml (Some (JString [32; LF; 9; LF]))
  = Ok (unorderedList []).
Proof.
  apply formatReviewAsHtml_blank. repeat constructor.
Defined.

Lemma formatReviewAsHtml_unindented_witness :
  formatReviewAsHtml (Some (JString (str "- a *b " ++ [LF; LF] ++ str "c")))
  = Ok (unorderedList
          (map itemOf (reviewLines (str "- a *b " ++ [LF; LF] ++ str "c")))).
Proof.
  apply formatReviewAsHtml_unindented. vm_compute. repeat constructor.
Defined.

End ListCoverage.

(* ================================================================== *)
(** * More on the timers: the score, the copy button *)
(* ================================================================== *)

Module TimerCoverage.

Import Vocabulary Client ScoreFacts ButtonFacts.

Local Open Scope Z_scope.

Lemma findTimer_app_l id ts added t :
  findTimer id ts = Some t -> findTimer id (ts ++ added) = Some t.
Proof.
  induction ts as [|x ts IH]; simpl; [discriminate|].
  destruct (Nat.eqb (timerId x) id); [auto | exact IH].
Qed.

Lemma findTimer_clearTimer_other id id' ts :
  id' <> id -> findTimer id (clearTimer id' ts) = findTimer id ts.
Proof.
  intros Hn. unfold clearTimer. induction ts as [|x ts IH]; simpl; [reflexivity|].
  destruct (Nat.eqb (timerId x) id') eqn:E; simpl.
  - apply Nat.eqb_eq in E.
    replace (Nat.eqb (timerId x) id) with false
      by (symmetry; apply Nat.eqb_neq; congruence).
    exact IH.
  - destruct (Nat.eqb (timerId x) id); [reflexivity | exact IH].
Qed.

Lemma findTimer_rearm_other id id' d k ts :
  id' <> id -> findTimer id (rearm id' d k ts) = findTimer id ts.
Proof.
  intros Hn. unfold rearm. induction ts as [|x ts IH]; simpl; [reflexivity|].
  destruct (Nat.eqb (timerId x) id') eqn:E; simpl.
  - apply Nat.eqb_eq in E.
    replace (Nat.eqb id' id) with false by (symmetry; now apply Nat.eqb_neq).
    replace (Nat.eqb (timerId x) id) with false
      by (symmetry; apply Nat.eqb_neq; congruence).
    exact IH.
  - destruct (Nat.eqb (timerId x) id); [reflexivity | exact IH].
Qed.

Lemma timersGrow_refl w : timersGrow w w.
Proof. exists []. now rewrite app_nil_r. Qed.

Lemma timersGrow_trans a b c : timersGrow a b -> timersGrow b c -> timersGrow a c.
Proof.
  intros [x Hx] [y Hy]. exists (x ++ y). now rewrite Hy, Hx, app_assoc.
Qed.

Lemma sameButLog_timersGrow w w' : sameButLog w w' -> timersGrow w w'.
Proof.
  intros (_ & _ & T & _). exists []. now rewrite T, app_nil_r.
Qed.

Lemma timersGrow_emit e : keeps timersGrow (emit e).
Proof. intros w. exists []. simpl. now rewrite app_nil_r. Qed.

Lemma timersGrow_onPage f : keeps timersGrow (onPage f).
Proof. intros w. exists []. simpl. now rewrite app_nil_r. Qed.

Lemma timersGrow_animateScore v : keeps timersGrow (animateScore v).
Proof. intros w. eexists. reflexivity. Qed.

Lemma timersGrow_callGeminiAPI_resume o : keeps timersGrow (callGeminiAPI_resume o).
Proof. intros w. apply sameButLog_timersGrow, keeps_callGeminiAPI_resume. Qed.

Section Timers.

Context {rt : Runtime}.

(** Once the network has settled, the review button adds timers at most:
    it stops none. *)
Lemma reviewSettled_timers o w : timersGrow w (reviewSettled o w).
Proof.
  unfold reviewSettled, finally.
  assert (K : keeps timersGrow
                (tryCatch (reviewUpdate o)
                   (fun error =>
                      console_error [LText (str "Error during AI review:"); LExn error] ;;;
                      showError (str "An error occurred: " ++ message error)))).
  { unfold reviewUpdate, console_error, showError.
    keeping_with ltac:(first [ exact timersGrow_refl | exact timersGrow_trans
                             | apply timersGrow_emit | apply timersGrow_onPage
                             | apply timersGrow_animateScore
                             | apply timersGrow_callGeminiAPI_resume ]). }
  specialize (K w).
  destruct (tryCatch _ _ w) as [w' r]. exact K.
Qed.

(** X16.  A timer stays armed, with its due time and its counter, whatever
    happens to the page other than its own firing: neither the clear
    button nor a new review stops an animation. *)
Theorem timer_survives_other_inputs w i id t :
  findTimer id (timers w) = Some t -> i <> TimerFires id ->
  findTimer id (timers (step w i)) = Some t.
Proof.
  intros H Hi. destruct i as [| | |id'|o|written]; simpl step.
  - destruct (reviewBtn_disabled (page w)); [exact H|].
    unfold reviewClick. destruct (trim (inputCode_value (page w))); exact H.
  - exact H.
  - unfold copyClick. destruct (outputCode_value (page w)); exact H.
  - assert (Hn : id' <> id) by congruence.
    unfold fire. destruct (findTimer id' (timers w)) as [t'|]; [|exact H].
    destruct (task t') as [cur fs|]; simpl.
    + destruct (ge (cur + 1) fs); simpl.
      * now rewrite findTimer_clearTimer_other.
      * now rewrite findTimer_rearm_other.
    + now rewrite findTimer_clearTimer_other.
  - destruct (inflight w) as [|a rest]; [exact H|].
    destruct (reviewSettled_timers o (set_inflight rest w)) as [added E].
    rewrite E. now apply findTimer_app_l.
  - destruct (copying w) as [|a rest]; [exact H|].
    destruct written; [|exact H]. simpl. now apply findTimer_app_l.
Qed.







(** X20.  The copy button with text in the corrected-code box: the text
    goes to the clipboard; when the write succeeds the button reads
    [Copied!], and 2000 later [Copy] again, with no timer left; when the
    write fails nothing has changed. *)
Theorem copy_round_trip w :
  outputCode_value (page w) <> [] -> copying w = [] -> freshIds w ->
  let w1 := step w ClickCopy in
  let w2 := step w1 (ClipboardSettles true) in
  let w3 := step w2 (TimerFires (nextTimer w)) in
  copying w1 = [outputCode_value (page w)]
  /\ page w1 = page w
  /\ copyBtn_textContent (page w2) = str "Copied!"
  /\ timers w2 = timers w ++ [{| timerId := nextTimer w; due := now w + 2000;
                                  task := RestoreCopyLabel |}]
  /\ copyBtn_textContent (page w3) = str "Copy"
  /\ timers w3 = timers w
  /\ now w3 = now w + 2000
  /\ step w1 (ClipboardSettles false) = w.
Proof.
  intros Hv Hc Hf w1 w2 w3.
  assert (E1 : w1 = set_copying [outputCode_value (page w)] w).
  { unfold w1. simpl. unfold copyClick.
    destruct (outputCode_value (page w)); [congruence|]. now rewrite Hc. }
  assert (E2 : w2 = copyWritten (set_copying [] w)).
  { unfold w2. rewrite E1. reflexivity. }
  split; [now rewrite E1|]. split; [now rewrite E1|].
  split; [now rewrite E2|]. split; [now rewrite E2|].
  assert (E3 : w3 = set_timers (timers w)
                      (set_page (set_copyBtn_textContent (str "Copy")
                                   (set_copyBtn_textContent (str "Copied!") (page w)))
                         (set_now (now w + 2000) (copyWritten (set_copying [] w))))).
  { unfold w3. rewrite E2. simpl step. unfold fire.
    change (timers (copyWritten (set_copying [] w)))
      with (timers w ++ [{| timerId := nextTimer w; due := now w + 2000;
                            task := RestoreCopyLabel |}]).
    rewrite findTimer_last by (exact Hf || reflexivity).
    cbn [task due]. unfold set_timers at 1.
    cbn [timers set_now set_page copyWritten set_nextTimer set_timers set_copying
         page now nextTimer inflight copying log].
    rewrite clearTimer_last by (exact Hf || reflexivity).
    rewrite Z.max_r by lia. reflexivity. }
  split; [now rewrite E3|]. split; [now rewrite E3|]. split; [now rewrite E3|].
  rewrite E1. simpl. destruct w; simpl in *. now rewrite Hc.
Qed.

End Timers.


Lemma timer_survives_other_inputs_witness :
  findTimer 0 (timers (step (rt := Engine.sample)
                         (fst (animateScore (integer 5) freshWorld)) ClickClear))
  = Some (animation (integer 5) freshWorld).
Proof.
  apply (timer_survives_other_inputs (rt := Engine.sample)).
  - reflexivity.
  - discriminate.
Defined.




Lemma copy_round_trip_witness :
  let w := set_page (set_outputCode_value (str "x = 2") freshPage) freshWorld in
  let w1 := step (rt := Engine.sample) w ClickCopy in
  let w2 := step (rt := Engine.sample) w1 (ClipboardSettles true) in
  let w3 := step (rt := Engine.sample) w2 (TimerFires (nextTimer w)) in
  copying w1 = [outputCode_value (page w)]
  /\ page w1 = page w
  /\ copyBtn_textContent (page w2) = str "Copied!"
  /\ timers w2 = timers w ++ [{| timerId := nextTimer w; due := now w + 2000;
                                  task := RestoreCopyLabel |}]
  /\ copyBtn_textContent (page w3) = str "Copy"
  /\ timers w3 = timers w
  /\ now w3 = now w + 2000
  /\ step (rt := Engine.sample) w1 (ClipboardSettles false) = w.
Proof.
  apply (copy_round_trip (rt := Engine.sample)
           (set_page (set_outputCode_value (str "x = 2") freshPage) freshWorld)).
  - discriminate.
  - reflexivity.
  - constructor.
Defined.

(** The score [1.0000000000000000001] is the Number 1: the first firing
    reaches it, shows 1 and clears the timer. *)
Example rounded_score_stops_at_one :
  run (rt := Engine.sample)
    (fst (animateScore (parse (str "1.0000000000000000001")) freshWorld))
    [TimerFires 0]
  = counted freshWorld 1.
Proof. vm_compute. reflexivity. Qed.

(** Against [1e400], the Number [Infinity], no count is enough. *)
Example infinite_score_never_reached (rt : Runtime) j :
  ge j (parse (str "1e400")) = false.
Proof.
  assert (P : parse (str "1e400") = Some (JNumber 1 400))
    by (vm_compute; reflexivity).
  rewrite P. unfold ge, decimalGE.
  assert (N : numberOf 1 400 = Infinite false) by (vm_compute; reflexivity).
  now rewrite N.
Qed.

End TimerCoverage.

(* ================================================================== *)
(** * More on the review button *)
(* ================================================================== *)

Module ButtonCoverage.

Import Vocabulary StringFacts Client CallFacts ListFacts ButtonFacts ListCoverage.

Section Button.

Context {rt : Runtime}.

(** X9.  A click with nothing but white space in the input box sends
    nothing and starts nothing: the banner asks for code, the button
    stays enabled and the spinner as it was. *)
Theorem blank_input_sends_nothing w :
  blank (inputCode_value (page w)) -> reviewBtn_disabled (page w) = false ->
  let w' := step w ClickReview in
  log w' = log w
  /\ inflight w' = inflight w
  /\ timers w' = timers w
  /\ errorBox_hidden (page w') = false
  /\ errorMessage_textContent (page w')
     = str "Please paste some code in the input box before reviewing."
  /\ reviewBtn_disabled (page w') = false
  /\ loader_hidden (page w') = loader_hidden (page w)
  /\ reviewOutput_innerHTML (page w') = reviewOutput_innerHTML (page w)
  /\ outputCode_value (page w') = outputCode_value (page w).
Proof.
  intros Hb Hd w'. unfold w'. simpl step. rewrite Hd.
  unfold reviewClick. rewrite (trim_blank _ Hb). simpl.
  repeat split. exact Hd.
Qed.

Lemma settles_cons i evs : settles (i :: evs) = (settles [i] + settles evs)%nat.
Proof. unfold settles. destruct i; reflexivity. Qed.

(** A request that left is in flight or was settled. *)
Lemma step_balance w i :
  (fetches (step w i) + List.length (inflight w)
   <= fetches w + List.length (inflight (step w i)) + settles [i])%nat.
Proof.
  destruct (input_eq_ClickReview i) as [->|Hn].
  - simpl step. destruct (reviewBtn_disabled (page w)); [simpl; lia|].
    destruct (trim (inputCode_value (page w))) as [|c code] eqn:E.
    + destruct (reviewClick_blank w E) as (F & I & _). rewrite F, I. lia.
    + destruct (reviewClick_sends w c code E) as (F & _ & _ & _ & I).
      rewrite F, I, length_app. simpl. lia.
  - destruct i as [| | |id|o|written]; [congruence | | | | |].
    4:{ simpl step. destruct (inflight w) as [|a rest] eqn:Hin.
        - rewrite Hin. lia.
        - destruct (reviewSettled_cleanup o (set_inflight rest w))
            as (_ & _ & F & I).
          rewrite F, I. change (settles [FetchSettles o]) with 1%nat.
          simpl. unfold fetches. simpl. lia. }
    all: match goal with
         | |- context [step ?w0 ?i] =>
             destruct (step_aside w0 i I Hn) as (_ & _ & F & Hi);
             rewrite F, Hi; simpl; lia
         end.
Qed.

Lemma run_balance evs : forall w,
  (fetches (run w evs) + List.length (inflight w)
   <= fetches w + List.length (inflight (run w evs)) + settles evs)%nat.
Proof.
  induction evs as [|i evs IH]; intros w; [simpl; lia|].
  change (run w (i :: evs)) with (run (step w i) evs).
  rewrite settles_cons.
  pose proof (IH (step w i)). pose proof (step_balance w i). lia.
Qed.

(** X10.  From a state with at most one review in flight, and the button
    disabled while it is, every state reached is such a state, whatever
    happens to the page: a click does not reach the script while the
    button is disabled, and the script disables it until the network has
    settled. *)
Theorem single_flight_from_any_state w evs :
  singleFlight w -> singleFlight (run w evs).
Proof.
  revert w. induction evs as [|i evs IH]; intros w H; [exact H|].
  apply (IH (step w i)). now apply singleFlight_step.
Qed.

(** X11.  From a state with no review in flight, whatever happens to the
    page, the requests that leave are at most one more than the times the
    network settles: a request leaves only after the one before it has
    settled. *)
Theorem requests_follow_settles w evs :
  inflight w = [] ->
  (fetches (run w evs) <= fetches w + S (settles evs))%nat.
Proof.
  intros Hidle.
  assert (G : forall w0, singleFlight w0 -> singleFlight (run w0 evs)).
  { induction evs as [|i evs IH]; intros w0 H; [exact H|].
    apply (IH (step w0 i)). now apply singleFlight_step. }
  specialize (G w). unfold singleFlight at 1 in G. rewrite Hidle in G.
  specialize (G I).
  pose proof (run_balance evs w) as B. rewrite Hidle in B.
  assert (L : (List.length (inflight (run w evs)) <= 1)%nat).
  { unfold singleFlight in G.
    destruct (inflight (run w evs)) as [|a [|b rest]];
      simpl; [lia | lia | destruct G]. }
  simpl in B. lia.
Qed.

(** What the [try] block does after the call returned the object [ms]. *)
Ltac after_call H w' :=
  let P := fresh "P" in let N := fresh "N" in
  let T := fresh "T" in let NT := fresh "NT" in
  match type of H with
  | snd (callGeminiAPI_resume ?o ?w) = _ =>
      pose proof (keeps_callGeminiAPI_resume o w) as (P & N & T & NT & _);
      unfold w', reviewSettled, finally, tryCatch, reviewUpdate, bind;
      destruct (callGeminiAPI_resume o w) as [w0 r];
      simpl in H, P, N, T, NT; subst r;
      unfold lift, getProp
  end.

(** X12.  The call returned an object with a review and an updated code
    that are strings, the code not blank: the review is on the page as a
    list, the code in its box as it came, blanks at its ends included, and
    the animation of the score is armed; the banner and the score shown
    are as they were. *)
Theorem review_success_updates_page o w ms rv code :
  snd (callGeminiAPI_resume o w) = Ok (JObject ms) ->
  lookup (str "review") ms = Some (JString rv) ->
  lookup (str "updatedCode") ms = Some (JString code) ->
  trim code <> [] ->
  let w' := reviewSettled o w in
  reviewOutput_innerHTML (page w') = unorderedList (map trimmedLine (reviewLines rv))
  /\ outputCode_value (page w') = code
  /\ timers w' = timers w ++ [animation (lookup (str "score") ms) w]
  /\ scoreDisplay_textContent (page w') = scoreDisplay_textContent (page w)
  /\ errorBox_hidden (page w') = errorBox_hidden (page w)
  /\ errorMessage_textContent (page w') = errorMessage_textContent (page w)
  /\ inputCode_value (page w') = inputCode_value (page w)
  /\ loader_hidden (page w') = true
  /\ reviewBtn_disabled (page w') = false.
Proof.
  intros H Hr Hu Ht w'. after_call H w'.
  rewrite Hr, Hu, formatReviewAsHtml_items. cbv beta iota.
  assert (Hc : truthy (Some (JString code)) = true)
    by (destruct code; [contradiction Ht; reflexivity | reflexivity]).
  rewrite Hc. simpl stringReceiver. cbv beta iota.
  assert (Hn : jsstring_eqb (trim code) [] = false).
  { destruct (jsstring_eqb (trim code) []) eqn:E; [|reflexivity].
    apply jsstring_eqb_eq in E. contradiction. }
  rewrite Hn. simpl. unfold animation. rewrite P, N, T, NT. repeat split.
Qed.

(** X13.  The call returned an object with a review, and an updated code
    that is missing, falsy, or a blank string: the corrected-code box
    shows the fixed sentence, and the review and the animation are as
    with a code. *)
Theorem review_without_code_shows_the_sentence o w ms rv :
  snd (callGeminiAPI_resume o w) = Ok (JObject ms) ->
  lookup (str "review") ms = Some (JString rv) ->
  truthy (lookup (str "updatedCode") ms) = false
  \/ (exists code, lookup (str "updatedCode") ms = Some (JString code)
                   /\ blank code) ->
  let w' := reviewSettled o w in
  reviewOutput_innerHTML (page w') = unorderedList (map trimmedLine (reviewLines rv))
  /\ outputCode_value (page w') = noChangesNeeded
  /\ timers w' = timers w ++ [animation (lookup (str "score") ms) w]
  /\ errorBox_hidden (page w') = errorBox_hidden (page w).
Proof.
  intros H Hr Hu w'. after_call H w'.
  rewrite Hr, formatReviewAsHtml_items. cbv beta iota.
  destruct Hu as [Hf|(code & Hu & Hb)].
  - rewrite Hf. simpl. unfold animation. rewrite P, N, T, NT. repeat split.
  - rewrite Hu. destruct code as [|c code].
    + simpl. unfold animation. rewrite P, N, T, NT. repeat split.
    + cbn [truthy stringReceiver]. cbv beta iota.
      rewrite (trim_blank _ Hb). simpl.
      unfold animation. rewrite P, N, T, NT. repeat split.
Qed.

(** X14.  The call returned an object with a review, and an updated code
    that is truthy and no string: the review is on the page when [trim]
    throws, so the banner is shown over the new review, with the box of
    the corrected code and the timers as they were. *)
Theorem review_with_code_of_another_type o w ms rv uc :
  snd (callGeminiAPI_resume o w) = Ok (JObject ms) ->
  lookup (str "review") ms = Some (JString rv) ->
  lookup (str "updatedCode") ms = Some uc ->
  truthy (Some uc) = true ->
  (forall code, uc <> JString code) ->
  let w' := reviewSettled o w in
  reviewOutput_innerHTML (page w') = unorderedList (map trimmedLine (reviewLines rv))
  /\ outputCode_value (page w') = outputCode_value (page w)
  /\ timers w' = timers w
  /\ errorMessage_textContent (page w')
     = str "An error occurred: " ++ faultMessage (NotAFunction (str "trim"))
  /\ errorBox_hidden (page w') = false
  /\ loader_hidden (page w') = true
  /\ reviewBtn_disabled (page w') = false.
Proof.
  intros H Hr Hu Ht Hs w'. after_call H w'.
  rewrite Hr, Hu, formatReviewAsHtml_items. cbv beta iota. rewrite Ht.
  destruct uc as [| | |code| |]; try discriminate Ht;
    try (exfalso; exact (Hs code eq_refl));
    simpl; rewrite P, T; repeat split.
Qed.

(** X15.  The call returned a value that holds no review that is a
    string: reading or formatting the review throws before anything is
    written, so the page keeps the review, the code and the score it had,
    no animation starts, and the banner shows the message of the engine's
    failure. *)
Theorem review_of_another_type_changes_nothing o w reply :
  snd (callGeminiAPI_resume o w) = Ok reply ->
  noReview reply ->
  let w' := reviewSettled o w in
  exists f,
    errorMessage_textContent (page w') = str "An error occurred: " ++ faultMessage f
    /\ errorBox_hidden (page w') = false
    /\ reviewOutput_innerHTML (page w') = reviewOutput_innerHTML (page w)
    /\ outputCode_value (page w') = outputCode_value (page w)
    /\ scoreDisplay_textContent (page w') = scoreDisplay_textContent (page w)
    /\ timers w' = timers w
    /\ loader_hidden (page w') = true
    /\ reviewBtn_disabled (page w') = false.
Proof.
  intros H Hno w'. after_call H w'.
  destruct reply as [| | | | |ms];
    try (simpl; eexists; rewrite P, T; repeat split; fail).
  destruct (lookup (str "review") ms) as [[| | |rv| |]|] eqn:Hr;
    try (simpl; eexists; rewrite P, T; repeat split; fail).
  exfalso. exact (Hno ms rv eq_refl Hr).
Qed.

End Button.

Lemma blank_input_sends_nothing_witness :
  let w := set_page (set_inputCode_value [32; LF; 9]%N freshPage) freshWorld in
  let w' := step (rt := Engine.sample) w ClickReview in
  log w' = log w
  /\ inflight w' = inflight w
  /\ timers w' = timers w
  /\ errorBox_hidden (page w') = false
  /\ errorMessage_textContent (page w')
     = str "Please paste some code in the input box before reviewing."
  /\ reviewBtn_disabled (page w') = false
  /\ loader_hidden (page w') = loader_hidden (page w)
  /\ reviewOutput_innerHTML (page w') = reviewOutput_innerHTML (page w)
  /\ outputCode_value (page w') = outputCode_value (page w).
Proof.
  apply (blank_input_sends_nothing (rt := Engine.sample)
           (set_page (set_inputCode_value [32; LF; 9]%N freshPage) freshWorld)).
  - repeat constructor.
  - reflexivity.
Defined.

Lemma single_flight_from_any_state_witness :
  singleFlight
    (run (rt := Engine.sample) (typed "x = 1" freshWorld)
       [ClickReview; ClickReview; FetchSettles Rejected; ClickReview]).
Proof.
  apply (single_flight_from_any_state (rt := Engine.sample)). exact I.
Defined.

Lemma requests_follow_settles_witness :
  (fetches (run (rt := Engine.sample) (typed "x = 1" freshWorld)
              [ClickReview; ClickReview; FetchSettles Rejected; ClickReview])
   <= fetches (typed "x = 1" freshWorld)
      + S (settles [ClickReview; ClickReview; FetchSettles Rejected; ClickReview]))%nat.
Proof.
  apply (requests_follow_settles (rt := Engine.sample)). reflexivity.
Defined.

(** On that run the second click sends nothing, and the click after the
    network has settled sends the second request. *)
Example two_requests_one_settle :
  fetches (run (rt := Engine.sample) (typed "x = 1" freshWorld)
             [ClickReview; ClickReview]) = 1%nat
  /\ inflight (run (rt := Engine.sample) (typed "x = 1" freshWorld)
                 [ClickReview; ClickReview]) = [str "x = 1"]
  /\ fetches (run (rt := Engine.sample) (typed "x = 1" freshWorld)
                [ClickReview; ClickReview; FetchSettles Rejected; ClickReview])
     = 2%nat.
Proof. vm_compute. repeat split. Qed.

Lemma review_success_updates_page_witness :
  let o := Responded (candidateReply improved) in
  let w' := reviewSettled (rt := Engine.sample) o freshWorld in
  reviewOutput_innerHTML (page w')
  = unorderedList (map trimmedLine (reviewLines (str "* a")))
  /\ outputCode_value (page w') = str " x = 2 "
  /\ timers w'
     = timers freshWorld
       ++ [animation (lookup (str "score") improvedResult) freshWorld]
  /\ scoreDisplay_textContent (page w') = scoreDisplay_textContent (page freshWorld)
  /\ errorBox_hidden (page w') = errorBox_hidden (page freshWorld)
  /\ errorMessage_textContent (page w') = errorMessage_textContent (page freshWorld)
  /\ inputCode_value (page w') = inputCode_value (page freshWorld)
  /\ loader_hidden (page w') = true
  /\ reviewBtn_disabled (page w') = false.
Proof.
  apply (review_success_updates_page (rt := Engine.sample)
           (Responded (candidateReply improved)) freshWorld improvedResult
           (str "* a") (str " x = 2 ")).
  - vm_compute. reflexivity.
  - reflexivity.
  - reflexivity.
  - vm_compute. discriminate.
Defined.

Lemma review_without_code_shows_the_sentence_witness :
  let o := Responded (candidateReply okReview) in
  let w' := reviewSettled (rt := Engine.sample) o freshWorld in
  reviewOutput_innerHTML (page w')
  = unorderedList (map trimmedLine (reviewLines (str "ok")))
  /\ outputCode_value (page w') = noChangesNeeded
  /\ timers w' = timers freshWorld ++ [animation (integer 90) freshWorld]
  /\ errorBox_hidden (page w') = errorBox_hidden (page freshWorld).
Proof.
  apply (review_without_code_shows_the_sentence (rt := Engine.sample)
           (Responded (candidateReply okReview)) freshWorld
           [(str "review", JString (str "ok"));
            (str "updatedCode", JString []);
            (str "score", JNumber 90 0)]
           (str "ok")).
  - vm_compute. reflexivity.
  - reflexivity.
  - left. reflexivity.
Defined.

Lemma review_with_code_of_another_type_witness :
  let o := Responded (candidateReply numericCode) in
  let w' := reviewSettled (rt := Engine.sample) o freshWorld in
  reviewOutput_innerHTML (page w')
  = unorderedList (map trimmedLine (reviewLines (str "* a")))
  /\ outputCode_value (page w') = outputCode_value (page freshWorld)
  /\ timers w' = timers freshWorld
  /\ errorMessage_textContent (page w')
     = str "An error occurred: "
       ++ faultMessage (Runtime := Engine.sample) (NotAFunction (str "trim"))
  /\ errorBox_hidden (page w') = false
  /\ loader_hidden (page w') = true
  /\ reviewBtn_disabled (page w') = false.
Proof.
  apply (review_with_code_of_another_type (rt := Engine.sample)
           (Responded (candidateReply numericCode)) freshWorld
           [(str "review", JString (str "* a"));
            (str "updatedCode", JNumber 5 0);
            (str "score", JNumber 1 0)]
           (str "* a") (JNumber 5 0)).
  - vm_compute. reflexivity.
  - reflexivity.
  - reflexivity.
  - reflexivity.
  - discriminate.
Defined.

Lemma review_of_another_type_changes_nothing_witness :
  let o := Responded (candidateReply (str "{}")) in
  let w' := reviewSettled (rt := Engine.sample) o freshWorld in
  exists f,
    errorMessage_textContent (page w')
    = str "An error occurred: " ++ faultMessage (Runtime := Engine.sample) f
    /\ errorBox_hidden (page w') = false
    /\ reviewOutput_innerHTML (page w') = reviewOutput_innerHTML (page freshWorld)
    /\ outputCode_value (page w') = outputCode_value (page freshWorld)
    /\ scoreDisplay_textContent (page w') = scoreDisplay_textContent (page freshWorld)
    /\ timers w' = timers freshWorld
    /\ loader_hidden (page w') = true
    /\ reviewBtn_disabled (page w') = false.
Proof.
  apply (review_of_another_type_changes_nothing (rt := Engine.sample)
           (Responded (candidateReply (str "{}"))) freshWorld (JObject [])).
  - vm_compute. reflexivity.
  - intros ms rv E. inversion E. discriminate.
Defined.

(** An [updatedCode] written [1e-400] is the Number zero, and falsy: the
    box shows the sentence and the animation starts. *)
Example vanishing_code_is_falsy :
  let w' := reviewSettled (rt := Engine.sample)
              (Responded (candidateReply vanishingCode)) freshWorld in
  outputCode_value (page w') = noChangesNeeded
  /\ errorBox_hidden (page w') = true
  /\ timers w' = [animation (integer 1) freshWorld].
Proof. vm_compute. repeat split. Qed.

End ButtonCoverage.

(* ================================================================== *)
(** * More on the proxy *)
(* ================================================================== *)

Module ProxyCoverage.

Import Vocabulary Proxy CallFacts ProxyFacts.

Local Open Scope N_scope.

Lemma jsstring_eqb_false a b : a <> b -> jsstring_eqb a b = false.
Proof.
  intros H. unfold jsstring_eqb. destruct (list_eq_dec N.eq_dec a b); congruence.
Qed.

Lemma ok_200 r : status r = 200 -> ok r = true.
Proof. intros H. unfold ok. now rewrite H. Qed.

Section Function.

Context {rt : Runtime}.

(** The function, case by case. *)
Ltac handler_cases :=
  unfold handler, tryBlock, fetched, JSON_parse, Response_json, console_error,
    bind, emit, lift, ret, throw, record, log_recording.

(** X21.  A request whose method is not [POST], letter for letter, gets
    405: the body is not parsed, the key is not read and nothing is
    sent. *)
Theorem other_methods_get_405 env net event :
  httpMethod event <> str "POST" ->
  handler env net event
  = ([], {| statusCode := 405; replyHeaders := [];
            replyBody := Some (JString (str "Method Not Allowed")) |}).
Proof.
  intros H. unfold handler. now rewrite (jsstring_eqb_false _ _ H).
Qed.


(** X23.  The reply does not depend on the key: with two keys and an
    upstream that answers the two requests alike, the function returns
    the same reply. *)
Theorem reply_does_not_depend_on_the_key env env' key key' net net' event :
  configured env = Some key -> configured env' = Some key' ->
  (forall code, net (request key code) = net' (request key' code)) ->
  snd (handler env net event) = snd (handler env' net' event).
Proof.
  intros Hk Hk' Hnet. handler_cases. rewrite Hk, Hk'.
  destruct (jsstring_eqb (httpMethod event) (str "POST")); simpl negb;
    cbv iota; [|reflexivity].
  destruct (parse (eventText event)) as [parsed|]; [|reflexivity].
  destruct (getProp (Some parsed) (str "code")) as [code|e]; [|reflexivity].
  destruct (template code) as [codeText|e]; [|reflexivity].
  rewrite (Hnet codeText).
  destruct (net' (request key' codeText)) as [|r]; [reflexivity|].
  cbv beta iota.
  destruct (ok r); simpl negb; cbv iota;
    destruct (parse (text r)) as [v|]; try reflexivity.
  destruct (candidateText v); reflexivity.
Qed.

(** X24.  When the upstream answers the function's request with a success
    response that holds the candidate path, the function returns 200, a
    JSON content type and, as its body, what it read at the end of the
    path, as it is: string or not, fenced or not. *)
Theorem success_relays_the_candidate_as_it_is env net event req r v t :
  In (EvFetch req) (fst (handler env net event)) ->
  net req = Responded r -> ok r = true ->
  parse (text r) = Some v -> candidateText v = Ok t ->
  handler env net event
  = ([EvJSONparse (eventText event); EvFetch req; EvBodyJson],
     {| statusCode := 200;
        replyHeaders := [(str "Content-Type", str "application/json")];
        replyBody := t |}).
Proof.
  intros Hin Hnet Hok Hv Ht.
  destruct (handler_fetch_inv env net event req Hin)
    as (parsed & code & apiKey & codeText & Hm & Hp & Hc & Hk & Hx & ->).
  handler_cases.
  rewrite Hm. simpl negb. cbv beta iota.
  rewrite Hp. cbv beta iota. rewrite Hc. cbv beta iota.
  rewrite Hk. cbv beta iota. rewrite Hx. cbv beta iota.
  rewrite Hnet. cbv beta iota. rewrite Hok. simpl negb. cbv beta iota.
  rewrite Hv. cbv beta iota. rewrite Ht. reflexivity.
Qed.


(** X26.  The function sends one request at most. *)
Theorem handler_sends_one_request_at_most env net event :
  (List.length (filter isFetch (fst (handler env net event))) <= 1)%nat.
Proof.
  handler_cases.
  destruct (jsstring_eqb (httpMethod event) (str "POST")); simpl negb;
    cbv iota; [|simpl; lia].
  destruct (parse (eventText event)) as [parsed|]; [|simpl; lia].
  destruct (getProp (Some parsed) (str "code")) as [code|e]; [|simpl; lia].
  destruct (configured env) as [apiKey|]; [|simpl; lia].
  destruct (template code) as [codeText|e]; [|simpl; lia].
  destruct (net (request apiKey codeText)) as [|r]; [simpl; lia|].
  cbv beta iota.
  destruct (ok r); simpl negb; cbv iota;
    destruct (parse (text r)) as [v|]; try (simpl; lia).
  destruct (candidateText v); simpl; lia.
Qed.

(** X27.  The function returns 200 only when it sent a request, the
    upstream answered it with a success response, and the body it returns
    is what the candidate path of that response holds. *)
Theorem status_200_only_for_a_candidate env net event :
  statusCode (snd (handler env net event)) = 200 ->
  exists req r v,
    In (EvFetch req) (fst (handler env net event))
    /\ net req = Responded r /\ ok r = true
    /\ parse (text r) = Some v
    /\ candidateText v = Ok (replyBody (snd (handler env net event))).
Proof.
  handler_cases.
  destruct (jsstring_eqb (httpMethod event) (str "POST")); simpl negb;
    cbv iota; [|simpl; discriminate].
  destruct (parse (eventText event)) as [parsed|]; [|simpl; discriminate].
  destruct (getProp (Some parsed) (str "code")) as [code|e]; [|simpl; discriminate].
  destruct (configured env) as [apiKey|]; [|simpl; discriminate].
  destruct (template code) as [codeText|e]; [|simpl; discriminate].
  destruct (net (request apiKey codeText)) as [|r] eqn:En; [simpl; discriminate|].
  cbv beta iota.
  destruct (ok r) eqn:Eo; simpl negb; cbv iota;
    destruct (parse (text r)) as [v|] eqn:Ev; try (simpl; discriminate).
  - destruct (candidateText v) as [t|e] eqn:Ec; [|simpl; discriminate].
    intros _. exists (request apiKey codeText), r, v.
    split; [simpl; tauto|]. repeat split; assumption.
  - cbn [snd statusCode]. intros Hs. rewrite (ok_200 r Hs) in Eo. discriminate.
Qed.

(** X28.  The code is not validated: a POST whose body is JSON without a
    [code], other than [null], makes the function ask for a review of
    the text [undefined]. *)
Theorem missing_code_is_sent_as_undefined env net event parsed key :
  httpMethod event = str "POST" ->
  parse (eventText event) = Some parsed -> parsed <> JNull ->
  (forall ms, parsed = JObject ms -> lookup (str "code") ms = None) ->
  configured env = Some key ->
  In (EvFetch (request key (str "undefined"))) (fst (handler env net event)).
Proof.
  intros Hm Hp Hn Hc Hk.
  assert (G : getProp (Some parsed) (str "code") = Ok None).
  { destruct parsed as [| | | | |ms]; try reflexivity; [congruence|].
    simpl. now rewrite (Hc ms eq_refl). }
  handler_cases. rewrite Hm, Hp. cbv beta iota. rewrite G. cbv beta iota.
  rewrite Hk. cbn [template]. cbv beta iota.
  destruct (net (request key (str "undefined"))) as [|r]; [simpl; tauto|].
  cbv beta iota.
  destruct (ok r); simpl negb; cbv iota;
    destruct (parse (text r)) as [v|]; try (simpl; tauto).
  destruct (candidateText v); simpl; tauto.
Qed.

End Function.

Lemma other_methods_get_405_witness :
  handler (rt := Engine.sample) (withKey "secret") (answering busy)
    {| httpMethod := str "post"; eventBody := None |}
  = ([], {| statusCode := 405; replyHeaders := [];
            replyBody := Some (JString (str "Method Not Allowed")) |}).
Proof.
  apply (other_methods_get_405 (rt := Engine.sample)). discriminate.
Defined.


Lemma reply_does_not_depend_on_the_key_witness :
  snd (handler (rt := Engine.sample) (withKey "secret")
         (answering (candidateReply okReview)) (post "x = 1"))
  = snd (handler (rt := Engine.sample) (withKey "other")
           (answering (candidateReply okReview)) (post "x = 1")).
Proof.
  apply (reply_does_not_depend_on_the_key (rt := Engine.sample)
           (withKey "secret") (withKey "other") (str "secret") (str "other")).
  - reflexivity.
  - reflexivity.
  - intros code. reflexivity.
Defined.

Lemma success_relays_the_candidate_as_it_is_witness :
  handler (rt := Engine.sample) (withKey "secret")
    (answering (candidateReply (fenced [] [LF] okReview [LF] []))) (post "x = 1")
  = ([EvJSONparse (eventText (post "x = 1"));
      EvFetch (request (rt := Engine.sample) (str "secret") (str "x = 1"));
      EvBodyJson],
     {| statusCode := 200;
        replyHeaders := [(str "Content-Type", str "application/json")];
        replyBody := Some (JString (fenced [] [LF] okReview [LF] [])) |}).
Proof.
  apply (success_relays_the_candidate_as_it_is (rt := Engine.sample)
           (withKey "secret")
           (answering (candidateReply (fenced [] [LF] okReview [LF] [])))
           (post "x = 1")
           (request (rt := Engine.sample) (str "secret") (str "x = 1"))
           (candidateReply (fenced [] [LF] okReview [LF] []))
           (envelope (fenced [] [LF] okReview [LF] []))).
  - vm_compute. tauto.
  - reflexivity.
  - reflexivity.
  - vm_compute. reflexivity.
  - reflexivity.
Defined.


Lemma status_200_only_for_a_candidate_witness :
  exists req r v,
    In (EvFetch req)
       (fst (handler (rt := Engine.sample) (withKey "secret")
               (answering (candidateReply okReview)) (post "x = 1")))
    /\ answering (candidateReply okReview) req = Responded r /\ ok r = true
    /\ parse (text r) = Some v
    /\ candidateText v
       = Ok (replyBody (snd (handler (rt := Engine.sample) (withKey "secret")
                               (answering (candidateReply okReview))
                               (post "x = 1")))).
Proof.
  apply (status_200_only_for_a_candidate (rt := Engine.sample) (withKey "secret")
           (answering (candidateReply okReview)) (post "x = 1")).
  vm_compute. reflexivity.
Defined.

Lemma missing_code_is_sent_as_undefined_witness :
  In (EvFetch (request (rt := Engine.sample) (str "secret") (str "undefined")))
     (fst (handler (rt := Engine.sample) (withKey "secret") (answering busy)
             {| httpMethod := str "POST"; eventBody := Some (str "[1, 2]") |})).
Proof.
  apply (missing_code_is_sent_as_undefined (rt := Engine.sample) (withKey "secret")
           (answering busy)
           {| httpMethod := str "POST"; eventBody := Some (str "[1, 2]") |}
           (JArray [JNumber 1 0; JNumber 2 0])).
  - reflexivity.
  - vm_compute. reflexivity.
  - discriminate.
  - discriminate.
  - reflexivity.
Defined.


End ProxyCoverage.
